(** * Network layer of "Mario & Luigi LIVE": packet codec, relay host, consumer

    Shallow embedding of the network layer of [src/1-live.py] (lines 247-370
    and 1029-1044); [src/live-8.9.25.-a.py] carries the same text at lines
    428-551 and 1041-1056.

    Modelling conventions.
    - Python objects are terms of [value]; a [dict] is an association list
      in insertion order with pairwise distinct keys.
    - A [bytes] object is a [string] (a sequence of bytes); a Python [str] is
      the [string] holding its UTF-8 encoding.
    - A Python exception is a constructor of [exn]; a statement that raises
      keeps every mutation made before the raise.
    - A [float] is a binary64 number, kept as the decimal that
      [float.__repr__] writes ([pyfloat]); what [json.loads] reads is
      rounded to the nearest such number ([Float64]).
    - [socket.sendto] is modelled as appending to the list of datagrams
      sent.
    - A failure of [json.loads] is the one exception [JSONDecodeError];
      CPython raises [ValueError] instead at an integer of more than 4300
      digits and [RecursionError] instead where the nesting exceeds the
      recursion limit of the interpreter, about a thousand levels.  Text
      that is valid and nested that deep takes more than [PACKET_SIZE]
      bytes; the model reads it, the interpreter does not.
    - [PacketType] derives from [Enum], not from [IntEnum]: a member is
      not a number, [json.dumps] has no encoding for it, and it is equal
      to no value that [json.loads] returns. *)

From Stdlib Require Import ZArith NArith List Bool Ascii String Lia.
From Stdlib Require Import DecimalString.
Import ListNotations.
Open Scope string_scope.
Open Scope Z_scope.

(** ** Exceptions and results *)

Inductive exn : Type :=
| TypeError
| KeyError
| AttributeError
| ValueError
| JSONDecodeError      (* subclass of ValueError; any failure of json.loads *)
| UnicodeDecodeError.  (* subclass of ValueError *)

Inductive result (A : Type) : Type :=
| Return (a : A)
| Raise (e : exn).
Arguments Return {A} a.
Arguments Raise {A} e.

Definition bind {A B : Type} (r : result A) (k : A -> result B) : result B :=
  match r with
  | Return a => k a
  | Raise e => Raise e
  end.

Notation "x <- r ;; k" := (bind r (fun x => k))
  (at level 61, r at next level, right associativity).

Definition raises {A : Type} (r : result A) : bool :=
  match r with Return _ => false | Raise _ => true end.

(** ** The type tags (src/1-live.py, 247-256) *)

Inductive PacketType : Type :=
| CONNECT | DISCONNECT | PLAYER_UPDATE | CHAT_MESSAGE | BATTLE_REQUEST
| BATTLE_ACTION | WORLD_STATE | DOWNLOAD_PLAY | PATCH_SYNC.

Definition PacketType_value (t : PacketType) : Z :=
  match t with
  | CONNECT => 1 | DISCONNECT => 2 | PLAYER_UPDATE => 3 | CHAT_MESSAGE => 4
  | BATTLE_REQUEST => 5 | BATTLE_ACTION => 6 | WORLD_STATE => 7
  | DOWNLOAD_PLAY => 8 | PATCH_SYNC => 9
  end.

Definition PacketType_eqb (a b : PacketType) : bool :=
  PacketType_value a =? PacketType_value b.

Definition PACKET_SIZE : Z := 1024.

(** ** Python values *)

(** A float: [FDec neg m e] is the binary64 number whose [repr] has the
    sign [neg], the digits of [m] and the exponent [e], that is the number
    nearest to (-1)^neg * m * 10^e. *)
Inductive pyfloat : Type :=
| FDec (neg : bool) (m : N) (e : Z)
| FInf (neg : bool)
| FNaN.

Unset Elimination Schemes.
Inductive value : Type :=
| VNone
| VBool (b : bool)
| VInt (z : Z)
| VFloat (f : pyfloat)
| VStr (s : string)
| VList (l : list value)
| VDict (d : list (value * value))
| VEnum (t : PacketType).
Set Elimination Schemes.

Definition dict : Type := list (value * value).

(** [v == PacketType.X]: no built-in type compares equal to a member of a
    plain [Enum]; a member is equal to itself only. *)
Definition eq_member (v : value) (t : PacketType) : bool :=
  match v with
  | VEnum t' => PacketType_eqb t' t
  | _ => false
  end.

Definition float_is_zero (f : pyfloat) : bool :=
  match f with
  | FDec _ m _ => (m =? 0)%N
  | _ => false
  end.

Definition signed (neg : bool) (m : N) : Z :=
  if neg then - Z.of_N m else Z.of_N m.

(** [m1 * 10^e1 = m2 * 10^e2] on signed mantissas. *)
Definition dec_eqb (m1 e1 m2 e2 : Z) : bool :=
  if e1 <=? e2
  then m1 =? m2 * 10 ^ (e2 - e1)
  else m1 * 10 ^ (e1 - e2) =? m2.

Definition float_eqb (f g : pyfloat) : bool :=
  match f, g with
  | FDec n1 m1 e1, FDec n2 m2 e2 => dec_eqb (signed n1 m1) e1 (signed n2 m2) e2
  | FInf a, FInf b => Bool.eqb a b
  | _, _ => false
  end.

(** Equality of hashable keys, as [dict] lookup uses it: [True == 1 == 1.0]. *)
Definition key_eqb (a b : value) : bool :=
  match a, b with
  | VNone, VNone => true
  | VStr s, VStr t => String.eqb s t
  | VEnum s, VEnum t => PacketType_eqb s t
  | VBool x, VBool y => Bool.eqb x y
  | VBool x, VInt z | VInt z, VBool x => (if x then 1 else 0) =? z
  | VInt x, VInt y => x =? y
  | VBool x, VFloat f | VFloat f, VBool x =>
      float_eqb (FDec false (if x then 1 else 0) 0) f
  | VInt z, VFloat f | VFloat f, VInt z =>
      float_eqb (FDec (z <? 0) (Z.abs_N z) 0) f
  | VFloat f, VFloat g => float_eqb f g
  | _, _ => false
  end.

Definition hashable (v : value) : bool :=
  match v with
  | VList _ | VDict _ => false
  | _ => true
  end.

(** Truth value of an object, as [if v:] tests it. *)
Definition truthy (v : value) : bool :=
  match v with
  | VNone => false
  | VBool b => b
  | VInt z => negb (z =? 0)
  | VFloat f => negb (float_is_zero f)
  | VStr s => negb (String.eqb s EmptyString)
  | VList l => match l with [] => false | _ => true end
  | VDict d => match d with [] => false | _ => true end
  | VEnum _ => true
  end.

(** ** Dictionaries *)

Module Dict.

Fixpoint get (k : value) (d : dict) : option value :=
  match d with
  | [] => None
  | (k', v) :: r => if key_eqb k' k then Some v else get k r
  end.

Definition mem (k : value) (d : dict) : bool :=
  match get k d with Some _ => true | None => false end.

(** [d[k] = v]: replaces in place, or appends a new key. *)
Fixpoint set (k v : value) (d : dict) : dict :=
  match d with
  | [] => [(k, v)]
  | (k', v') :: r =>
      if key_eqb k' k then (k', v) :: r else (k', v') :: set k v r
  end.

(** [del d[k]], when [k] is present. *)
Fixpoint remove (k : value) (d : dict) : dict :=
  match d with
  | [] => []
  | (k', v') :: r =>
      if key_eqb k' k then r else (k', v') :: remove k r
  end.

(** [d.update(u)] for a dict [u]. *)
Definition update (d u : dict) : dict :=
  fold_left (fun acc kv => set (fst kv) (snd kv) acc) u d.

Definition keys (d : dict) : list value := map fst d.

End Dict.

(** ** Text: UTF-8 and characters *)

Module Text.

Definition bytes_of (s : string) : list N :=
  map N_of_ascii (list_ascii_of_string s).

Definition of_bytes (l : list N) : string :=
  string_of_list_ascii (map ascii_of_N l).

Definition cont (b : N) : bool := ((128 <=? b) && (b <=? 191))%N.

(** A scalar value that [n] bytes may encode: shortest form only, at most
    U+10FFFF, and no surrogate when [strict]. *)
Definition scalar_ok (strict : bool) (n cp : N) : bool :=
  (match n with
   | 2 => 128 <=? cp
   | 3 => (2048 <=? cp) && negb (strict && (55296 <=? cp) && (cp <=? 57343))
   | _ => (65536 <=? cp) && (cp <=? 1114111)
   end)%N.

(** Code points of a UTF-8 byte sequence; [None] where the sequence is
    ill-formed.  [strict = true] is [bytes.decode()]; [strict = false] also
    reads the three-byte form of a lone surrogate, which a [str] may hold. *)
Fixpoint points (strict : bool) (bs : list N) : option (list N) :=
  let ret n cp r :=
    if scalar_ok strict n cp
    then option_map (cons cp) r else None in
  (match bs with
   | [] => Some []
   | b0 :: r0 =>
       if b0 <? 128 then option_map (cons b0) (points strict r0)
       else if b0 <? 194 then None
       else match r0 with
       | [] => None
       | b1 :: r1 =>
         if negb (cont b1) then None
         else if b0 <? 224
         then ret 2 ((b0 - 192) * 64 + (b1 - 128)) (points strict r1)
         else match r1 with
         | [] => None
         | b2 :: r2 =>
           if negb (cont b2) then None
           else if b0 <? 240
           then ret 3 ((b0 - 224) * 4096 + (b1 - 128) * 64 + (b2 - 128))
                      (points strict r2)
           else match r2 with
           | [] => None
           | b3 :: r3 =>
             if negb (cont b3) || (244 <? b0) then None
             else ret 4 ((b0 - 240) * 262144 + (b1 - 128) * 4096
                         + (b2 - 128) * 64 + (b3 - 128))
                        (points strict r3)
           end
         end
       end
   end)%N.

(** UTF-8 bytes of one code point (a lone surrogate gets three bytes). *)
Definition encode_point (cp : N) : list N :=
  (if cp <? 128 then [cp]
   else if cp <? 2048 then [192 + cp / 64; 128 + cp mod 64]
   else if cp <? 65536
   then [224 + cp / 4096; 128 + (cp / 64) mod 64; 128 + cp mod 64]
   else [240 + cp / 262144; 128 + (cp / 4096) mod 64;
         128 + (cp / 64) mod 64; 128 + cp mod 64])%N.

(** [data.decode()] *)
Definition decode (data : string) : result string :=
  match points true (bytes_of data) with
  | Some _ => Return data
  | None => Raise UnicodeDecodeError
  end.

(** A Unicode scalar value: a code point that is no surrogate. *)
Definition scalar (cp : N) : Prop :=
  (cp < 55296 \/ (57344 <= cp /\ cp <= 1114111))%N.

(** Well-formed UTF-8: the encodings of scalar values, one after the
    other. *)
Definition utf8 (data : string) : Prop :=
  exists cps, Forall scalar cps /\ bytes_of data = flat_map encode_point cps.

Definition hex_digit (n : N) : ascii :=
  (if n <? 10 then ascii_of_N (48 + n) else ascii_of_N (87 + n))%N.

(** ['{0:04x}'.format(n)] for [n < 65536] *)
Definition hex4 (n : N) : string :=
  (string_of_list_ascii
     [hex_digit (n / 4096); hex_digit ((n / 256) mod 16);
      hex_digit ((n / 16) mod 16); hex_digit (n mod 16)])%N.

Definition string_of_N (n : N) : string :=
  NilZero.string_of_uint (N.to_uint n).

Definition string_of_Z (z : Z) : string :=
  NilZero.string_of_int (Z.to_int z).

Definition zeros (n : nat) : string :=
  string_of_list_ascii (repeat "0"%char n).

End Text.

(** ** Floats: decimal text to binary64 and back *)

Module Float64.

(** The integer nearest to [num / den], ties to even. *)
Definition round_half_even (num den : Z) : Z :=
  let q := num / den in
  let r := 2 * (num mod den) in
  if r <? den then q
  else if den <? r then q + 1
  else if Z.even q then q else q + 1.

(** [10^x <= num / den] *)
Definition le_pow (b x num den : Z) : bool :=
  if 0 <=? x then den * b ^ x <=? num else den <=? num * b ^ (- x).

(** The largest [x] with [2^x <= num / den]. *)
Definition log2_floor (num den : Z) : Z :=
  let l := Z.log2 num - Z.log2 den in
  if le_pow 2 l num den then l else l - 1.

(** The largest [x] with [10^x <= num / den]. *)
Definition log10_floor (num den : Z) : Z :=
  let x := log2_floor num den * 30103 / 100000 in
  if le_pow 10 (x + 1) num den then x + 1
  else if le_pow 10 x num den then x else x - 1.

(** The binary64 number nearest to [num / den], ties to even: [Some (q, k)]
    stands for [q * 2^k], with [q < 2^53] and [-1074 <= k <= 971]; [None]
    stands for a result beyond the largest finite number. *)
Definition nearest (num den : Z) : option (Z * Z) :=
  let k := Z.max (log2_floor num den - 52) (-1074) in
  let q := if 0 <=? k then round_half_even num (den * 2 ^ k)
           else round_half_even (num * 2 ^ (- k)) den in
  let (q, k) := if q =? 2 ^ 53 then (2 ^ 52, k + 1) else (q, k) in
  if 971 <? k then None else Some (q, k).

(** [m * 10^e] as a fraction. *)
Definition fraction (b m e : Z) : Z * Z :=
  if 0 <=? e then (m * b ^ e, 1) else (m, b ^ (- e)).

Definition nearest_decimal (m e : Z) : option (Z * Z) :=
  let (num, den) := fraction 10 m e in nearest num den.

(** The decimal of [n] digits nearest to [q * 2^k] among those that are
    read back as [q * 2^k]. *)
Definition candidate (q k n : Z) : option (Z * Z) :=
  let (num, den) := fraction 2 q k in
  let x := log10_floor num den - (n - 1) in
  let (a, b) := if 0 <=? x then (num, den * 10 ^ x)
                else (num * 10 ^ (- x), den) in
  let lo := a / b in
  let r := 2 * (a mod b) in
  let ok d := match nearest_decimal d x with
              | Some (q', k') => (q' =? q) && (k' =? k)
              | None => false
              end in
  match ok lo, ok (lo + 1) with
  | true, true =>
      if r <? b then Some (lo, x)
      else if b <? r then Some (lo + 1, x)
      else Some (if Z.even lo then lo else lo + 1, x)
  | true, false => Some (lo, x)
  | false, true => Some (lo + 1, x)
  | false, false => None
  end.

(** The shortest decimal that is read back as [q * 2^k]: the digits of
    [float.__repr__]. *)
Fixpoint shortest (fuel : nat) (n : Z) (q k : Z) : Z * Z :=
  match fuel with
  | O => (q, k)
  | S fuel =>
      match candidate q k n with
      | Some d => d
      | None => shortest fuel (n + 1) q k
      end
  end.

(** [float(text)] for the decimal [(-1)^neg * m * 10^e]. *)
Definition of_decimal (neg : bool) (m : N) (e : Z) : pyfloat :=
  if (m =? 0)%N then FDec neg 0 0
  else
    match nearest_decimal (Z.of_N m) e with
    | None => FInf neg
    | Some (q, k) =>
        if q =? 0 then FDec neg 0 0
        else let (d, x) := shortest 17 1 q k in FDec neg (Z.to_N d) x
    end.

End Float64.

(** ** The [json] library: [json.dumps] *)

Module Json.

Import Text.

(** Trailing zeros of a digit list, removed and counted. *)
Definition strip_zeros (ds : list ascii) : list ascii * nat :=
  (fix drop (l : list ascii) (k : nat) :=
     match l with
     | "0"%char :: t => drop t (S k)
     | _ => (rev l, k)
     end) (rev ds) O.

(** [float.__repr__] on a finite decimal: the digits without trailing
    zeros, in positional notation when the decimal point falls within
    the sixteen leading places, in exponent notation otherwise. *)
Definition repr_finite (neg : bool) (m : N) (e : Z) : string :=
  let sign := if neg then "-" else EmptyString in
  if (m =? 0)%N then sign ++ "0.0"
  else
    let (ds, k) := strip_zeros (list_ascii_of_string (string_of_N m)) in
    let n := Z.of_nat (List.length ds) in
    let decpt := n + Z.of_nat k + e in
    let digits := string_of_list_ascii ds in
    if (decpt <=? -4) || (16 <? decpt) then
      let ex := decpt - 1 in
      let mant := match ds with
                  | [] => EmptyString
                  | [d] => String d EmptyString
                  | d :: r => String d ("." ++ string_of_list_ascii r)
                  end in
      let exs := string_of_N (Z.abs_N ex) in
      sign ++ mant ++ "e" ++ (if ex <? 0 then "-" else "+")
           ++ (if Z.abs ex <? 10 then "0" ++ exs else exs)
    else if decpt <=? 0 then
      sign ++ "0." ++ zeros (Z.to_nat (- decpt)) ++ digits
    else if n <=? decpt then
      sign ++ digits ++ zeros (Z.to_nat (decpt - n)) ++ ".0"
    else
      sign ++ string_of_list_ascii (firstn (Z.to_nat decpt) ds) ++ "."
           ++ string_of_list_ascii (skipn (Z.to_nat decpt) ds).

(** [floatstr] of [json.encoder], with [allow_nan] at its default. *)
Definition floatstr (f : pyfloat) : string :=
  match f with
  | FNaN => "NaN"
  | FInf false => "Infinity"
  | FInf true => "-Infinity"
  | FDec neg m e => repr_finite neg m e
  end.

(** One character of a string under [ensure_ascii]. *)
Definition escape_point (cp : N) : string :=
  (if cp =? 34 then "\" ++ String (ascii_of_N 34) EmptyString
   else if cp =? 92 then "\\"
   else if cp =? 10 then "\n"
   else if cp =? 13 then "\r"
   else if cp =? 9 then "\t"
   else if cp =? 8 then "\b"
   else if cp =? 12 then "\f"
   else if (32 <=? cp) && (cp <=? 126) then String (ascii_of_N cp) EmptyString
   else if cp <? 65536 then "\u" ++ hex4 cp
   else "\u" ++ hex4 (55296 + ((cp - 65536) / 1024) mod 1024)
        ++ "\u" ++ hex4 (56320 + (cp - 65536) mod 1024))%N%string.

(** [encode_basestring_ascii] *)
Definition encode_str (s : string) : string :=
  let quote := String (ascii_of_N 34) EmptyString in
  match points false (bytes_of s) with
  | Some cps => quote ++ concat EmptyString (map escape_point cps) ++ quote
  | None => quote ++ s ++ quote
  end.

(** A dictionary key as [_iterencode_dict] coerces it. *)
Definition key_str (k : value) : result string :=
  match k with
  | VStr s => Return s
  | VFloat f => Return (floatstr f)
  | VBool true => Return "true"
  | VBool false => Return "false"
  | VNone => Return "null"
  | VInt z => Return (string_of_Z z)
  | _ => Raise TypeError
  end.

(** [json.dumps(v)] with the default options.  An object that is none of
    [str], [None], [bool], [int], [float], [list], [dict] reaches
    [JSONEncoder.default], which raises [TypeError]. *)
Fixpoint dumps (v : value) : result string :=
  match v with
  | VNone => Return "null"
  | VBool true => Return "true"
  | VBool false => Return "false"
  | VInt z => Return (string_of_Z z)
  | VFloat f => Return (floatstr f)
  | VStr s => Return (encode_str s)
  | VList l =>
      body <- (fix items (l : list value) : result string :=
                 match l with
                 | [] => Return EmptyString
                 | x :: r =>
                     a <- dumps x ;;
                     match r with
                     | [] => Return a
                     | _ => b <- items r ;; Return (a ++ ", " ++ b)
                     end
                 end) l ;;
      Return ("[" ++ body ++ "]")
  | VDict d =>
      body <- (fix items (d : list (value * value)) : result string :=
                 match d with
                 | [] => Return EmptyString
                 | (k, x) :: r =>
                     ks <- key_str k ;;
                     a <- dumps x ;;
                     let item := encode_str ks ++ ": " ++ a in
                     match r with
                     | [] => Return item
                     | _ => b <- items r ;; Return (item ++ ", " ++ b)
                     end
                 end) d ;;
      Return ("{" ++ body ++ "}")
  | VEnum _ => Raise TypeError
  end.

(** *** [json.loads] *)

(** What [json.loads] builds: no other Python object comes out of it, and
    the keys of an object are strings. *)
Unset Elimination Schemes.
Inductive json : Type :=
| JNull
| JBool (b : bool)
| JInt (z : Z)
| JFloat (f : pyfloat)
| JStr (s : string)
| JList (l : list json)
| JDict (d : list (string * json)).
Set Elimination Schemes.

Fixpoint of_json (j : json) : value :=
  match j with
  | JNull => VNone
  | JBool b => VBool b
  | JInt z => VInt z
  | JFloat f => VFloat f
  | JStr s => VStr s
  | JList l => VList (map of_json l)
  | JDict d => VDict (map (fun kv => (VStr (fst kv), of_json (snd kv))) d)
  end.

Definition is_ws (c : ascii) : bool :=
  let n := N_of_ascii c in ((n =? 32) || (n =? 9) || (n =? 10) || (n =? 13))%N.

Fixpoint skip_ws (s : list ascii) : list ascii :=
  match s with
  | c :: r => if is_ws c then skip_ws r else s
  | [] => []
  end.

Definition is_digit (c : ascii) : bool :=
  let n := N_of_ascii c in ((48 <=? n) && (n <=? 57))%N.

Fixpoint take_digits (s : list ascii) : list ascii * list ascii :=
  match s with
  | c :: r =>
      if is_digit c
      then let (ds, rest) := take_digits r in (c :: ds, rest)
      else ([], s)
  | [] => ([], [])
  end.

Definition digits_value (ds : list ascii) : N :=
  fold_left (fun acc c => acc * 10 + (N_of_ascii c - 48))%N ds 0%N.

Definition hex_value (c : ascii) : option N :=
  let n := N_of_ascii c in
  (if (48 <=? n) && (n <=? 57) then Some (n - 48)
   else if (97 <=? n) && (n <=? 102) then Some (n - 87)
   else if (65 <=? n) && (n <=? 70) then Some (n - 55)
   else None)%N.

(** Four hexadecimal digits after [\u]. *)
Definition hex4_value (s : list ascii) : option (N * list ascii) :=
  match s with
  | a :: b :: c :: d :: r =>
      match hex_value a, hex_value b, hex_value c, hex_value d with
      | Some x, Some y, Some z, Some w =>
          Some ((x * 4096 + y * 256 + z * 16 + w)%N, r)
      | _, _, _, _ => None
      end
  | _ => None
  end.

Definition prefix (p : string) (s : list ascii) : option (list ascii) :=
  let l := list_ascii_of_string p in
  if list_eq_dec ascii_dec (firstn (List.length l) s) l
  then Some (skipn (List.length l) s) else None.

(** [scanstring] in strict mode, from the character after the opening
    quote; [acc] holds the bytes of the characters read so far. *)
Fixpoint scanstring (fuel : nat) (s : list ascii) (acc : list N)
  : option (string * list ascii) :=
  match fuel with
  | O => None
  | S fuel =>
      match s with
      | [] => None
      | c :: r =>
          let n := N_of_ascii c in
          if (n =? 34)%N then Some (of_bytes acc, r)
          else if (n =? 92)%N then
            match r with
            | [] => None
            | e :: r1 =>
                let k := N_of_ascii e in
                let simple b := scanstring fuel r1 (acc ++ [b]) in
                (if k =? 34 then simple 34
                 else if k =? 92 then simple 92
                 else if k =? 47 then simple 47
                 else if k =? 98 then simple 8
                 else if k =? 102 then simple 12
                 else if k =? 110 then simple 10
                 else if k =? 114 then simple 13
                 else if k =? 116 then simple 9
                 else if k =? 117 then
                   match hex4_value r1 with
                   | None => None
                   | Some (hi, r2) =>
                       if (55296 <=? hi) && (hi <=? 56319) then
                         match prefix "\u" r2 with
                         | None => scanstring fuel r2 (acc ++ encode_point hi)
                         | Some r3 =>
                             match hex4_value r3 with
                             | None => None
                             | Some (lo, r4) =>
                                 if (56320 <=? lo) && (lo <=? 57343)
                                 then scanstring fuel r4
                                        (acc ++ encode_point
                                           (65536 + (hi - 55296) * 1024
                                            + (lo - 56320)))
                                 else scanstring fuel r2
                                        (acc ++ encode_point hi)
                             end
                         end
                       else scanstring fuel r2 (acc ++ encode_point hi)
                   end
                 else None)%N
            end
          else if (n <? 32)%N then None
          else scanstring fuel r (acc ++ [n])
      end
  end.

(** [sys.int_info.default_max_str_digits]: [int] reads no more digits. *)
Definition max_str_digits : Z := 4300.

(** The number at the head of [s], as [NUMBER_RE] matches it: an optional
    minus sign, then a single zero or a digit string without leading zero,
    then optionally a point with one digit or more, then optionally an
    exponent mark, a sign and one digit or more.  The text is read by [int]
    when it has neither fraction nor exponent, which fails beyond
    [max_str_digits] digits, and by [float] otherwise. *)
Definition match_number (s : list ascii) : option (json * list ascii) :=
  let (neg, s1) := match s with
                   | "-"%char :: r => (true, r)
                   | _ => (false, s)
                   end in
  let int_part :=
    match s1 with
    | "0"%char :: r => Some (["0"%char], r)
    | c :: _ => if is_digit c then Some (take_digits s1) else None
    | [] => None
    end in
  match int_part with
  | None => None
  | Some (ip, s2) =>
      let (frac, s3) :=
        match s2 with
        | "."%char :: r =>
            match take_digits r with
            | ([], _) => ([], s2)
            | (fs, r') => (fs, r')
            end
        | _ => ([], s2)
        end in
      let exp :=
        match s3 with
        | c :: r =>
            if Ascii.eqb c "e" || Ascii.eqb c "E" then
              let (eneg, r1) := match r with
                                | "-"%char :: r' => (true, r')
                                | "+"%char :: r' => (false, r')
                                | _ => (false, r)
                                end in
              match take_digits r1 with
              | ([], _) => None
              | (es, r2) => Some (signed eneg (digits_value es), r2)
              end
            else None
        | [] => None
        end in
      match frac, exp with
      | [], None =>
          if Z.of_nat (List.length ip) <=? max_str_digits
          then Some (JInt (signed neg (digits_value ip)), s3)
          else None
      | _, None =>
          Some (JFloat (Float64.of_decimal neg (digits_value (ip ++ frac))
                          (- Z.of_nat (List.length frac))), s3)
      | _, Some (e, s4) =>
          Some (JFloat (Float64.of_decimal neg (digits_value (ip ++ frac))
                          (e - Z.of_nat (List.length frac))), s4)
      end
  end.

(** [dict(pairs)]: a repeated key keeps its first place and its last
    value. *)
Fixpoint set_member (k : string) (v : json) (d : list (string * json))
  : list (string * json) :=
  match d with
  | [] => [(k, v)]
  | (k', v') :: r =>
      if String.eqb k' k then (k', v) :: r else (k', v') :: set_member k v r
  end.

Definition dict_of_pairs (pairs : list (string * json))
  : list (string * json) :=
  fold_left (fun acc kv => set_member (fst kv) (snd kv) acc) pairs [].

Definition literal (s : list ascii) : option (json * list ascii) :=
  let word w j := option_map (pair j) (prefix w s) in
  match word "null" JNull with Some x => Some x | None =>
  match word "true" (JBool true) with Some x => Some x | None =>
  match word "false" (JBool false) with Some x => Some x | None =>
  match match_number s with Some x => Some x | None =>
  match word "NaN" (JFloat FNaN) with Some x => Some x | None =>
  match word "Infinity" (JFloat (FInf false)) with Some x => Some x | None =>
  word "-Infinity" (JFloat (FInf true))
  end end end end end end.

(** [scan_once], with [JSONObject] and [JSONArray] after their opening
    bracket; [None] stands for the failure of the scan. *)
Fixpoint scan_once (fuel : nat) (s : list ascii)
  : option (json * list ascii) :=
  match fuel with
  | O => None
  | S fuel =>
      match s with
      | [] => None
      | c :: r =>
          let n := N_of_ascii c in
          if (n =? 34)%N then
            match scanstring (S (List.length r)) r [] with
            | Some (str, r') => Some (JStr str, r')
            | None => None
            end
          else if Ascii.eqb c "{" then
            match skip_ws r with
            | "}"%char :: r' => Some (JDict [], r')
            | r' => members fuel r' []
            end
          else if Ascii.eqb c "[" then
            match skip_ws r with
            | "]"%char :: r' => Some (JList [], r')
            | r' => elements fuel r' []
            end
          else literal s
      end
  end
with members (fuel : nat) (s : list ascii) (acc : list (string * json))
  : option (json * list ascii) :=
  match fuel with
  | O => None
  | S fuel =>
      match s with
      | c :: r =>
          if negb (N_of_ascii c =? 34)%N then None else
          match scanstring (S (List.length r)) r [] with
          | None => None
          | Some (key, r1) =>
              match skip_ws r1 with
              | ":"%char :: r2 =>
                  match scan_once fuel (skip_ws r2) with
                  | None => None
                  | Some (v, r3) =>
                      let acc' := (acc ++ [(key, v)])%list in
                      match skip_ws r3 with
                      | "}"%char :: r4 => Some (JDict (dict_of_pairs acc'), r4)
                      | ","%char :: r4 => members fuel (skip_ws r4) acc'
                      | _ => None
                      end
                  end
              | _ => None
              end
          end
      | [] => None
      end
  end
with elements (fuel : nat) (s : list ascii) (acc : list json)
  : option (json * list ascii) :=
  match fuel with
  | O => None
  | S fuel =>
      match scan_once fuel s with
      | None => None
      | Some (v, r) =>
          match skip_ws r with
          | "]"%char :: r' => Some (JList (acc ++ [v]), r')
          | ","%char :: r' => elements fuel (skip_ws r') (acc ++ [v])
          | _ => None
          end
      end
  end.

(** [json.loads(s)] on a [str]: one value between optional white space,
    and nothing after it. *)
Definition loads (s : string) : result json :=
  let l := list_ascii_of_string s in
  match scan_once (S (List.length l)) (skip_ws l) with
  | Some (j, r) =>
      match skip_ws r with
      | [] => Return j
      | _ => Raise JSONDecodeError
      end
  | None => Raise JSONDecodeError
  end.

(** *** The parts of [match_number], by name *)

Definition sign_part (s : list ascii) : bool * list ascii :=
  match s with
  | "-"%char :: r => (true, r)
  | _ => (false, s)
  end.

Definition int_part (s1 : list ascii) : option (list ascii * list ascii) :=
  match s1 with
  | "0"%char :: r => Some (["0"%char], r)
  | c :: _ => if is_digit c then Some (take_digits s1) else None
  | [] => None
  end.

Definition frac_part (s2 : list ascii) : list ascii * list ascii :=
  match s2 with
  | "."%char :: r =>
      match take_digits r with
      | ([], _) => ([], s2)
      | (fs, r') => (fs, r')
      end
  | _ => ([], s2)
  end.

Definition exp_part (s3 : list ascii) : option (Z * list ascii) :=
  match s3 with
  | c :: r =>
      if Ascii.eqb c "e" || Ascii.eqb c "E" then
        let (eneg, r1) := match r with
                          | "-"%char :: r' => (true, r')
                          | "+"%char :: r' => (false, r')
                          | _ => (false, r)
                          end in
        match take_digits r1 with
        | ([], _) => None
        | (es, r2) => Some (signed eneg (digits_value es), r2)
        end
      else None
  | [] => None
  end.

(** *** JSON text

    The grammar of RFC 8259 on the bytes of a text, with the words [NaN],
    [Infinity] and [-Infinity] that [json.loads] reads as well. *)

(** The quotation mark. *)
Definition quote : ascii := ascii_of_N 34.

(** White space: spaces, tabs, line feeds and carriage returns. *)
Definition ws (w : list ascii) : Prop := Forall (fun c => is_ws c = true) w.

(** One digit or more. *)
Definition digits (l : list ascii) : Prop :=
  l <> [] /\ Forall (fun c => is_digit c = true) l.

(** A single zero, or digits that do not start with a zero. *)
Inductive int_text : list ascii -> Prop :=
| int_zero : int_text ["0"%char]
| int_digits c ds :
    is_digit c = true -> c <> "0"%char ->
    Forall (fun c => is_digit c = true) ds -> int_text (c :: ds).

(** A point and digits; an exponent mark, an optional sign and digits. *)
Definition frac_text (l : list ascii) : Prop :=
  exists ds, l = "."%char :: ds /\ digits ds.

Definition exp_text (l : list ascii) : Prop :=
  exists e sgn ds,
    l = (e :: sgn ++ ds)%list
    /\ (e = "e"%char \/ e = "E"%char)
    /\ (sgn = [] \/ sgn = ["-"%char] \/ sgn = ["+"%char])
    /\ digits ds.

(** A number: an optional minus sign, the integer part, and optionally a
    fraction and an exponent. *)
Definition number (l : list ascii) : Prop :=
  exists m i f e,
    l = (m ++ i ++ f ++ e)%list
    /\ (m = [] \/ m = ["-"%char])
    /\ int_text i
    /\ (f = [] \/ frac_text f)
    /\ (e = [] \/ exp_text e).

Definition hex (c : ascii) : Prop := hex_value c <> None.

(** The characters between the quotation marks of a string: any byte from
    32 on other than the quotation mark and the backslash, or a backslash
    with one of the eight escape letters, or a backslash, [u] and four
    hexadecimal digits. *)
Inductive string_chars : list ascii -> Prop :=
| chars_nil : string_chars []
| chars_plain c r :
    (32 <= N_of_ascii c)%N -> c <> quote -> c <> "\"%char ->
    string_chars r -> string_chars (c :: r)
| chars_escape e r :
    In e [quote; "\"%char; "/"%char; "b"%char; "f"%char; "n"%char;
          "r"%char; "t"%char] ->
    string_chars r -> string_chars ("\"%char :: e :: r)
| chars_unicode a b c d r :
    hex a -> hex b -> hex c -> hex d ->
    string_chars r ->
    string_chars ("\"%char :: "u"%char :: a :: b :: c :: d :: r).

(** The literal names. *)
Definition word (l : list ascii) : Prop :=
  In l (map list_ascii_of_string
          ["null"; "true"; "false"; "NaN"; "Infinity"; "-Infinity"]).

(** A value; the members of an object after its first white space, up to
    the closing brace; the elements of an array after its first white
    space, up to the closing bracket. *)
Inductive jvalue : list ascii -> Prop :=
| jv_string b : string_chars b -> jvalue (quote :: b ++ [quote])
| jv_number n : number n -> jvalue n
| jv_word w : word w -> jvalue w
| jv_object_empty w : ws w -> jvalue ("{"%char :: w ++ ["}"%char])
| jv_object w m : ws w -> jmembers m -> jvalue ("{"%char :: w ++ m)
| jv_array_empty w : ws w -> jvalue ("["%char :: w ++ ["]"%char])
| jv_array w e : ws w -> jelements e -> jvalue ("["%char :: w ++ e)
with jmembers : list ascii -> Prop :=
| jm_last b w1 w2 v w3 :
    string_chars b -> ws w1 -> ws w2 -> jvalue v -> ws w3 ->
    jmembers (quote :: b ++ quote :: w1 ++ ":"%char :: w2 ++ v ++ w3
              ++ ["}"%char])
| jm_more b w1 w2 v w3 w4 m :
    string_chars b -> ws w1 -> ws w2 -> jvalue v -> ws w3 -> ws w4 ->
    jmembers m ->
    jmembers (quote :: b ++ quote :: w1 ++ ":"%char :: w2 ++ v ++ w3
              ++ ","%char :: w4 ++ m)
with jelements : list ascii -> Prop :=
| je_last v w : jvalue v -> ws w -> jelements (v ++ w ++ ["]"%char])
| je_more v w1 w2 e :
    jvalue v -> ws w1 -> ws w2 -> jelements e ->
    jelements (v ++ w1 ++ ","%char :: w2 ++ e).

(** A JSON text: one value between optional white space. *)
Definition document (s : string) : Prop :=
  exists w1 t w2,
    list_ascii_of_string s = (w1 ++ t ++ w2)%list
    /\ ws w1 /\ jvalue t /\ ws w2.

End Json.

(** ** Operations on objects *)

(** [obj[key]] for a string [key]. *)
Definition getitem (obj : value) (key : string) : result value :=
  match obj with
  | VDict d =>
      match Dict.get (VStr key) d with
      | Some v => Return v
      | None => Raise KeyError
      end
  | _ => Raise TypeError
  end.

(** [obj.get(key)] for a string [key]. *)
Definition get_method (obj : value) (key : string) : result value :=
  match obj with
  | VDict d =>
      match Dict.get (VStr key) d with
      | Some v => Return v
      | None => Return VNone
      end
  | _ => Raise AttributeError
  end.

(** [obj.items()] *)
Definition items_method (obj : value) : result (list (value * value)) :=
  match obj with
  | VDict d => Return d
  | _ => Raise AttributeError
  end.

(** The characters of a [str], each as a [str]. *)
Definition chars (s : string) : list value :=
  match Text.points false (Text.bytes_of s) with
  | Some cps => map (fun cp => VStr (Text.of_bytes (Text.encode_point cp))) cps
  | None => map (fun c => VStr (String c EmptyString)) (list_ascii_of_string s)
  end.

(** One element of the sequence given to [dict.update], as a key and a
    value: the element has to be iterable and of length two. *)
Definition pair_of (elem : value) : result (value * value) :=
  let two (l : list value) :=
    match l with
    | [k; v] => if hashable k then Return (k, v) else Raise TypeError
    | _ => Raise ValueError
    end in
  match elem with
  | VList l => two l
  | VStr s => two (chars s)
  | VDict d => two (Dict.keys d)
  | _ => Raise TypeError
  end.

(** [d.update(arg)]: the dictionary as the call leaves it, and the
    exception when the call raises; the entries set before the raise stay. *)
Fixpoint update_pairs (d : dict) (l : list value) : dict * result unit :=
  match l with
  | [] => (d, Return tt)
  | x :: r =>
      match pair_of x with
      | Return (k, v) => update_pairs (Dict.set k v d) r
      | Raise e => (d, Raise e)
      end
  end.

Definition update_method (d : dict) (arg : value) : dict * result unit :=
  match arg with
  | VDict u => (Dict.update d u, Return tt)
  | VList l => update_pairs d l
  | VStr s => update_pairs d (chars s)
  | _ => (d, Raise TypeError)
  end.

(** ** Addresses and the client map *)

Definition address : Type := (string * Z)%type.

Definition address_eqb (a b : address) : bool :=
  String.eqb (fst a) (fst b) && (snd a =? snd b).

Module Clients.

Definition t : Type := list (address * string).

Fixpoint get (a : address) (c : t) : option string :=
  match c with
  | [] => None
  | (a', id) :: r => if address_eqb a' a then Some id else get a r
  end.

Definition mem (a : address) (c : t) : bool :=
  match get a c with Some _ => true | None => false end.

Fixpoint set (a : address) (id : string) (c : t) : t :=
  match c with
  | [] => [(a, id)]
  | (a', id') :: r =>
      if address_eqb a' a then (a', id) :: r else (a', id') :: set a id r
  end.

Fixpoint remove (a : address) (c : t) : t :=
  match c with
  | [] => []
  | (a', id') :: r =>
      if address_eqb a' a then r else (a', id') :: remove a r
  end.

End Clients.

(** ** The network manager (src/1-live.py, 258-370) *)

Definition datagram : Type := (string * address)%type.

(** The fields of [NetworkManager] other than the socket and the threads. *)
Record NetworkManager : Type := {
  is_server : bool;
  is_client : bool;
  clients : Clients.t;
  message_queue : list value;
  players : dict;
  server_addr : option address
}.

(** [NetworkManager.__init__] *)
Definition init : NetworkManager :=
  {| is_server := false; is_client := false; clients := [];
     message_queue := []; players := []; server_addr := None |}.

Definition with_clients (c : Clients.t) (self : NetworkManager) :=
  {| is_server := is_server self; is_client := is_client self; clients := c;
     message_queue := message_queue self; players := players self;
     server_addr := server_addr self |}.

Definition with_players (p : dict) (self : NetworkManager) :=
  {| is_server := is_server self; is_client := is_client self;
     clients := clients self; message_queue := message_queue self;
     players := p; server_addr := server_addr self |}.

Definition with_queue (q : list value) (self : NetworkManager) :=
  {| is_server := is_server self; is_client := is_client self;
     clients := clients self; message_queue := q;
     players := players self; server_addr := server_addr self |}.

(** Statements of a method: they read and write the manager, send
    datagrams, and return or raise.  The manager and the datagrams sent are
    kept when a statement raises. *)
Record outcome (A : Type) : Type := {
  res : result A;
  self_after : NetworkManager;
  sent : list datagram
}.
Arguments res {A} o.
Arguments self_after {A} o.
Arguments sent {A} o.

Definition M (A : Type) : Type := NetworkManager -> outcome A.

Definition ret {A : Type} (a : A) : M A :=
  fun self => {| res := Return a; self_after := self; sent := [] |}.

Definition lift {A : Type} (r : result A) : M A :=
  fun self => {| res := r; self_after := self; sent := [] |}.

Definition bindM {A B : Type} (m : M A) (k : A -> M B) : M B :=
  fun self =>
    let o := m self in
    match res o with
    | Return a =>
        let o' := k a (self_after o) in
        {| res := res o'; self_after := self_after o';
           sent := (sent o ++ sent o')%list |}
    | Raise e =>
        {| res := Raise e; self_after := self_after o; sent := sent o |}
    end.

Notation "x <~ m ;; k" := (bindM m (fun x => k))
  (at level 61, m at next level, right associativity).
Notation "m ;;; k" := (bindM m (fun _ => k))
  (at level 61, right associativity).

Definition get_self : M NetworkManager :=
  fun self => {| res := Return self; self_after := self; sent := [] |}.

Definition modify (f : NetworkManager -> NetworkManager) : M unit :=
  fun self => {| res := Return tt; self_after := f self; sent := [] |}.

(** [self.socket.sendto(data, dest)] *)
Definition sendto (data : string) (dest : address) : M unit :=
  fun self => {| res := Return tt; self_after := self; sent := [(data, dest)] |}.

Fixpoint for_each {X : Type} (l : list X) (body : X -> M unit) : M unit :=
  match l with
  | [] => ret tt
  | x :: r => body x ;;; for_each r body
  end.

(** [_create_packet] (346-353); [now] is the value of [time.time()].  The
    text [json.dumps] returns is ASCII, so [.encode()] leaves it as it is. *)
Definition _create_packet (now : pyfloat) (packet_type : PacketType)
    (data : value) : result string :=
  let packet := VDict [(VStr "type", VEnum packet_type);
                       (VStr "timestamp", VFloat now);
                       (VStr "data", data)] in
  Json.dumps packet.

(** [_create_packet] for any object as [packet_type]: the method does not
    restrict its first argument.  The three calls of the program pass a
    member of [PacketType]; on the wire a type is the number of the
    member. *)
Definition _create_packet_any (now : pyfloat) (packet_type data : value)
  : result string :=
  let packet := VDict [(VStr "type", packet_type);
                       (VStr "timestamp", VFloat now);
                       (VStr "data", data)] in
  Json.dumps packet.

(** [_parse_packet] (355-357) *)
Definition _parse_packet (data : string) : result value :=
  s <- Text.decode data ;;
  j <- Json.loads s ;;
  Return (Json.of_json j).

(** [self.players[player_id].update(arg)], the argument being evaluated
    after the receiver. *)
Definition update_player (player_id : value) (arg : result value) : M unit :=
  self <~ get_self ;;
  match Dict.get player_id (players self) with
  | None => lift (Raise KeyError)
  | Some (VDict snapshot) =>
      a <~ lift arg ;;
      let (snapshot', r) := update_method snapshot a in
      modify (with_players (Dict.set player_id (VDict snapshot') (players self))) ;;;
      lift r
  | Some _ => lift (Raise AttributeError)
  end.

(** What [self.socket.recvfrom(PACKET_SIZE)] gives the loop: the first
    [PACKET_SIZE] bytes of a datagram with the address of its sender, or
    [socket.timeout]. *)
Inductive recv : Type :=
| Received (data : string) (addr : address)
| TimedOut.

Section Host.

(** [hashlib.md5(f"{addr}".encode()).hexdigest()[:8]] *)
Variable md5_id : address -> string.

(** The CONNECT branch (302-309). *)
Definition on_connect (now : pyfloat) (addr : address) (packet : value)
  : M unit :=
  let player_id := md5_id addr in
  modify (fun self =>
    with_clients (Clients.set addr player_id (clients self)) self) ;;;
  d <~ lift (getitem packet "data") ;;
  modify (fun self =>
    with_players (Dict.set (VStr player_id) d (players self)) self) ;;;
  self <~ get_self ;;
  world_packet <~ lift (_create_packet now WORLD_STATE (VDict (players self))) ;;
  sendto world_packet addr.

(** The loop over [self.clients.items()] (317-319). *)
Definition broadcast (data : string) (addr : address) : M unit :=
  self <~ get_self ;;
  for_each (clients self) (fun item =>
    let client_addr := fst item in
    if negb (address_eqb client_addr addr)
    then sendto data client_addr
    else ret tt).

(** The PLAYER_UPDATE branch (312-319). *)
Definition on_player_update (data : string) (addr : address) (packet : value)
  : M unit :=
  self <~ get_self ;;
  match Clients.get addr (clients self) with
  | Some player_id =>
      update_player (VStr player_id) (getitem packet "data") ;;;
      broadcast data addr
  | None => ret tt
  end.

(** The DISCONNECT branch (322-326). *)
Definition on_disconnect (addr : address) : M unit :=
  self <~ get_self ;;
  match Clients.get addr (clients self) with
  | Some player_id =>
      modify (with_clients (Clients.remove addr (clients self))) ;;;
      self <~ get_self ;;
      if Dict.mem (VStr player_id) (players self)
      then modify (with_players (Dict.remove (VStr player_id) (players self)))
      else lift (Raise KeyError)
  | None => ret tt
  end.

(** The statements under [try] in [_server_loop] (299-326), after the
    datagram has been received. *)
Definition server_body (now : pyfloat) (data : string) (addr : address)
  : M unit :=
  packet <~ lift (_parse_packet data) ;;
  ty <~ lift (getitem packet "type") ;;
  if eq_member ty CONNECT then on_connect now addr packet
  else if eq_member ty PLAYER_UPDATE then on_player_update data addr packet
  else if eq_member ty DISCONNECT then on_disconnect addr
  else ret tt.

(** One turn of the [while self.is_server] loop (296-331): the manager
    afterwards, the datagrams sent, and the exception reported by
    [except Exception], if any. *)
Definition server_turn (now : pyfloat) (ev : recv) (self : NetworkManager)
  : NetworkManager * list datagram * option exn :=
  match ev with
  | TimedOut => (self, [], None)
  | Received data addr =>
      let o := server_body now data addr self in
      (self_after o, sent o,
       match res o with Return _ => None | Raise e => Some e end)
  end.

(** [_server_loop]: the turns taken while [is_server] holds, one per
    receive event, each with its clock reading. *)
Fixpoint _server_loop (evs : list (pyfloat * recv)) (self : NetworkManager)
  : NetworkManager * list datagram :=
  match evs with
  | [] => (self, [])
  | (now, ev) :: r =>
      if is_server self then
        let '(self1, out1, _) := server_turn now ev self in
        let (self2, out2) := _server_loop r self1 in
        (self2, (out1 ++ out2)%list)
      else (self, [])
  end.

End Host.

(** One turn of [_client_loop] (336-344). *)
Definition client_turn (ev : recv) (self : NetworkManager)
  : NetworkManager * option exn :=
  match ev with
  | TimedOut => (self, None)
  | Received data _ =>
      match _parse_packet data with
      | Return packet =>
          (with_queue (message_queue self ++ [packet])%list self, None)
      | Raise e => (self, Some e)
      end
  end.

(** [_client_loop]: the turns taken while [is_client] holds. *)
Fixpoint _client_loop (evs : list recv) (self : NetworkManager)
  : NetworkManager :=
  match evs with
  | [] => self
  | ev :: r =>
      if is_client self
      then _client_loop r (fst (client_turn ev self))
      else self
  end.

(** [send_player_update] (359-363) *)
Definition send_player_update (now : pyfloat) (player_data : value) : M unit :=
  self <~ get_self ;;
  if is_client self then
    packet <~ lift (_create_packet now PLAYER_UPDATE player_data) ;;
    match server_addr self with
    | Some a => sendto packet a
    | None => lift (Raise AttributeError)
    end
  else ret tt.

(** [get_messages] (365-370) *)
Definition get_messages : M (list value) :=
  self <~ get_self ;;
  modify (with_queue []) ;;;
  ret (message_queue self).

(** ** The consumer (src/1-live.py, 456-460 and 1029-1044) *)

(** The body of the loop over [msg['data'].items()]. *)
Definition merge_world_entry (item : value * value) : M unit :=
  let (player_id, player_data) := item in
  self <~ get_self ;;
  if negb (Dict.mem player_id (players self))
  then modify (with_players (Dict.set player_id player_data (players self)))
  else update_player player_id (Return player_data).

(** [GameEngine._handle_network_message], on [self.network]. *)
Definition _handle_network_message (msg : value) : M unit :=
  ty <~ lift (getitem msg "type") ;;
  if eq_member ty WORLD_STATE then
    d <~ lift (getitem msg "data") ;;
    its <~ lift (items_method d) ;;
    for_each its merge_world_entry
  else if eq_member ty PLAYER_UPDATE then
    player_data <~ lift (getitem msg "data") ;;
    player_id <~ lift (get_method player_data "player_id") ;;
    if truthy player_id then
      if hashable player_id
      then modify (fun self =>
             with_players (Dict.set player_id player_data (players self)) self)
      else lift (Raise TypeError)
    else ret tt
  else ret tt.

(** The network part of [GameEngine.update] (456-460). *)
Definition process_messages : M unit :=
  self <~ get_self ;;
  if is_client self || is_server self then
    messages <~ get_messages ;;
    for_each messages _handle_network_message
  else ret tt.

(** [start_server] (269-278), the socket and the thread left out. *)
Definition start_server (self : NetworkManager) : NetworkManager :=
  {| is_server := true; is_client := is_client self; clients := clients self;
     message_queue := message_queue self; players := players self;
     server_addr := server_addr self |}.

(** [connect_client] (280-292), up to the start of the thread. *)
Definition connect_client (now : pyfloat) (host : string) (port : Z) : M unit :=
  modify (fun self =>
    {| is_server := is_server self; is_client := true;
       clients := clients self; message_queue := message_queue self;
       players := players self; server_addr := Some (host, port) |}) ;;;
  packet <~ lift (_create_packet now CONNECT
                    (VDict [(VStr "name", VStr "Player")])) ;;
  sendto packet (host, port).

(** ** Vocabulary of the properties *)

(** A value that some datagram decodes to. *)
Definition from_wire (v : value) : Prop :=
  exists data, _parse_packet data = Return v.

(** The shape of the dictionary that [_create_packet] builds: the keys
    ['type'], ['timestamp'] and ['data']. *)
Definition envelope_shaped (v : value) : bool :=
  negb (raises (getitem v "type"))
  && negb (raises (getitem v "timestamp"))
  && negb (raises (getitem v "data")).

(** The datagram decodes to a dictionary of that shape. *)
Definition well_formed_envelope (data : string) : bool :=
  match _parse_packet data with
  | Return v => envelope_shaped v
  | Raise _ => false
  end.

(** The datagram decodes to a dictionary whose ['type'] entry is the number
    of the member [t]. *)
Definition carries (t : PacketType) (data : string) : bool :=
  match _parse_packet data with
  | Return packet =>
      match getitem packet "type" with
      | Return (VInt z) => z =? PacketType_value t
      | _ => false
      end
  | Raise _ => false
  end.

(** A field map: a dictionary with string keys, each once. *)
Definition field_map (u : dict) : Prop :=
  NoDup (Dict.keys u) /\ Forall (fun k => exists s, k = VStr s) (Dict.keys u).

(** Size in bytes of a text. *)
Definition size (s : string) : Z := Z.of_nat (String.length s).

(** The identities of the client map are the keys of the player registry:
    each identity has a snapshot, and each snapshot belongs to an identity. *)
Definition ids_match (self : NetworkManager) : bool :=
  forallb (fun item => Dict.mem (VStr (snd item)) (players self))
          (clients self)
  && forallb (fun k => existsb (fun item => key_eqb k (VStr (snd item)))
                               (clients self))
             (Dict.keys (players self)).

(** Every address of the client map is stored with the identity derived
    from it. *)
Definition derived (md5_id : address -> string) (c : Clients.t) : bool :=
  forallb (fun item => String.eqb (snd item) (md5_id (fst item))) c.

(** The derivation of identities is injective at [addr]: it gives the
    identity of [addr] to no other address of the client map. *)
Definition injective_at (md5_id : address -> string) (addr : address)
    (c : Clients.t) : bool :=
  forallb (fun item =>
             implb (String.eqb (md5_id (fst item)) (md5_id addr))
                   (address_eqb (fst item) addr)) c.

(** The addresses of a client map are pairwise different, as the keys of a
    [dict] are. *)
Fixpoint distinct_addresses (c : Clients.t) : bool :=
  match c with
  | [] => true
  | (a, _) :: r => negb (Clients.mem a r) && distinct_addresses r
  end.

(** The keys of a dictionary are pairwise different. *)
Fixpoint distinct_keys (d : dict) : bool :=
  match d with
  | [] => true
  | (k, _) :: r => negb (Dict.mem k r) && distinct_keys r
  end.

(** The state of a host between two turns: the client map and the registry
    are dictionaries, every address has the identity derived from it, and
    the identities of the client map are the keys of the registry. *)
Definition host_inv (md5_id : address -> string) (self : NetworkManager)
  : bool :=
  ids_match self
  && distinct_addresses (clients self)
  && distinct_keys (players self)
  && derived md5_id (clients self).

(** The JSON text of an envelope, from the texts of its type, of its clock
    reading and of its payload. *)
Definition envelope_text (tag timestamp payload : string) : string :=
  "{" ++ Json.encode_str "type" ++ ": " ++ tag ++ ", "
      ++ Json.encode_str "timestamp" ++ ": " ++ timestamp ++ ", "
      ++ Json.encode_str "data" ++ ": " ++ payload ++ "}".

(** The test of the consumer for a message of type [t]. *)
Definition tagged (t : PacketType) (msg : value) : bool :=
  match getitem msg "type" with
  | Return ty => eq_member ty t
  | Raise _ => false
  end.

(** The message names the identity [me]: as a key of the registry that a
    WORLD_STATE message carries, or under ['player_id'] in the payload of
    a PLAYER_UPDATE message. *)
Definition names (me : string) (msg : value) : bool :=
  if tagged WORLD_STATE msg then
    match getitem msg "data" with
    | Return (VDict d) => Dict.mem (VStr me) d
    | _ => false
    end
  else if tagged PLAYER_UPDATE msg then
    match getitem msg "data" with
    | Return player_data =>
        match get_method player_data "player_id" with
        | Return player_id => key_eqb player_id (VStr me)
        | Raise _ => false
        end
    | Raise _ => false
    end
  else false.

(** ** Sample datagrams *)

(** JSON text written with single quotes for the double ones. *)
Definition dq (s : string) : string :=
  string_of_list_ascii
    (map (fun c => if Ascii.eqb c "'" then ascii_of_N 34 else c)
         (list_ascii_of_string s)).

Definition peer_A : address := ("10.0.0.1", 50001).
Definition peer_B : address := ("10.0.0.2", 50002).
Definition peer_C : address := ("10.0.0.3", 50003).

Definition x1y2 : dict := [(VStr "x", VInt 1); (VStr "y", VInt 2)].
Definition x5 : dict := [(VStr "x", VInt 5)].
Definition x10y20 : dict := [(VStr "x", VInt 10); (VStr "y", VInt 20)].

Definition connect_x1y2 : string :=
  dq "{'type': 1, 'timestamp': 12.5, 'data': {'x': 1, 'y': 2}}".
Definition connect_empty : string :=
  dq "{'type': 1, 'timestamp': 12.5, 'data': {}}".
Definition connect_player : string :=
  dq "{'type': 1, 'timestamp': 12.5, 'data': {'name': 'Player'}}".
Definition update_x5 : string :=
  dq "{'type': 3, 'timestamp': 13.5, 'data': {'x': 5}}".
Definition update_x10y20 : string :=
  dq "{'type': 3, 'timestamp': 13.5, 'data': {'x': 10, 'y': 20}}".
Definition disconnect : string :=
  dq "{'type': 2, 'timestamp': 14.5, 'data': {}}".

(** An update cut short. *)
Definition truncated_update : string :=
  dq "{'type': 3, 'timestamp': 13.5, 'da".

Definition world_state_me : string :=
  dq "{'type': 7, 'timestamp': 15.5, 'data': {'me': {'x': 0, 'y': 0}}}".
Definition update_me : string :=
  dq "{'type': 3, 'timestamp': 16.5, 'data': {'player_id': 'me', 'x': 0}}".

(** A client whose registry holds an entry for the local player [me]. *)
Definition client_me : NetworkManager :=
  {| is_server := false; is_client := true; clients := [];
     message_queue := [];
     players := [(VStr "me", VDict x1y2)];
     server_addr := Some peer_A |}.

(** A manager with the peers [l] registered, each under its identity and
    with the snapshot [snapshot]. *)
Definition registered (md5_id : address -> string) (l : list address)
    (snapshot : dict) : NetworkManager :=
  {| is_server := true; is_client := false;
     clients := map (fun a => (a, md5_id a)) l;
     message_queue := [];
     players := map (fun a => (VStr (md5_id a), VDict snapshot)) l;
     server_addr := None |}.

(** ** Vocabulary of the further properties *)

(** The values that the datagrams of [evs] decode to, in the order of
    arrival; a datagram that does not decode and a timeout give none. *)
Definition decoded (evs : list recv) : list value :=
  flat_map (fun ev =>
    match ev with
    | Received data _ =>
        match _parse_packet data with
        | Return v => [v]
        | Raise _ => []
        end
    | TimedOut => []
    end) evs.

(** A field map, decided: every key is a string and occurs once. *)
Fixpoint is_field_map (u : dict) : bool :=
  match u with
  | [] => true
  | (VStr k, _) :: r => negb (Dict.mem (VStr k) r) && is_field_map r
  | _ => false
  end.

(** A PLAYER_UPDATE message as the consumer tests for it: its ['type'] is
    the member itself. *)
Definition update_message (player_data : value) : value :=
  VDict [(VStr "type", VEnum PLAYER_UPDATE);
         (VStr "timestamp", VFloat (FDec false 165 (-1)));
         (VStr "data", player_data)].

Definition me_x0 : dict := [(VStr "player_id", VStr "me"); (VStr "x", VInt 0)].

(** A WORLD_STATE message as the consumer tests for it. *)
Definition world_message (registry : value) : value :=
  VDict [(VStr "type", VEnum WORLD_STATE);
         (VStr "timestamp", VFloat (FDec false 155 (-1)));
         (VStr "data", registry)].

Definition two_players : dict :=
  [(VStr "aa", VDict x1y2); (VStr "bb", VDict x10y20)].

(** * Characters and battles (src/live-8.9.25.-a.py, 100-157 and 249-426)

    The numbers of a character and of an enemy are Python integers.  An
    enemy is the dictionary that [start_battle] or the dojo builds, with the
    keys ['name'], ['hp'], ['power'], ['defense'], ['speed'], ['xp'] and
    ['coins']. *)

Module Game.

(** [Stats] (100-109) *)
Record Stats : Type := {
  hp : Z; sp : Z; max_hp : Z; max_sp : Z;
  power : Z; defense : Z; speed : Z; luck : Z
}.

Definition default_stats : Stats :=
  {| hp := 40; sp := 10; max_hp := 40; max_sp := 10;
     power := 8; defense := 4; speed := 8; luck := 2 |}.

(** [Character] (118-135) *)
Unset Elimination Schemes.
Inductive Character : Type := Build_Character {
  name : string; species : string; gender : string; color : string;
  age : string;
  level : Z; xp : Z; coins : Z;
  x : value; y : value;
  stats : Stats;
  items : list string;
  party : list Character;
  star_guardian : value;
  player_id : value;
  is_player : bool
}.
Set Elimination Schemes.

Definition default_character : Character :=
  {| name := "Player"; species := "Human"; gender := "Male"; color := "Red";
     age := "Teen"; level := 1; xp := 0; coins := 100;
     x := VInt 128; y := VInt 96; stats := default_stats;
     items := ["Mushroom"; "Maple Syrup"; "Lucky Clover"]; party := [];
     star_guardian := VNone; player_id := VNone; is_player := true |}.

Definition with_stats (st : Stats) (c : Character) : Character :=
  {| name := name c; species := species c; gender := gender c;
     color := color c; age := age c; level := level c; xp := xp c;
     coins := coins c; x := x c; y := y c; stats := st; items := items c;
     party := party c; star_guardian := star_guardian c;
     player_id := player_id c; is_player := is_player c |}.

Definition with_progress (lv xp' coins' : Z) (c : Character) : Character :=
  {| name := name c; species := species c; gender := gender c;
     color := color c; age := age c; level := lv; xp := xp';
     coins := coins'; x := x c; y := y c; stats := stats c;
     items := items c; party := party c; star_guardian := star_guardian c;
     player_id := player_id c; is_player := is_player c |}.

Definition with_items (l : list string) (c : Character) : Character :=
  {| name := name c; species := species c; gender := gender c;
     color := color c; age := age c; level := level c; xp := xp c;
     coins := coins c; x := x c; y := y c; stats := stats c; items := l;
     party := party c; star_guardian := star_guardian c;
     player_id := player_id c; is_player := is_player c |}.

(** [Character.level_up] (137-147) *)
Definition level_up (c : Character) : Character :=
  let st := stats c in
  with_stats
    {| hp := max_hp st + 5; sp := max_sp st + 2;
       max_hp := max_hp st + 5; max_sp := max_sp st + 2;
       power := power st + 2; defense := defense st + 1;
       speed := speed st + 1; luck := luck st + 1 |}
    (with_progress (level c + 1) (xp c) (coins c) c).

(** [Character.add_xp] (149-157): the character afterwards and the value
    returned. *)
Definition add_xp (amount : Z) (c : Character) : Character * bool :=
  let c1 := with_progress (level c) (xp c + amount) (coins c) c in
  let xp_needed := level c1 * 50 in
  if xp_needed <=? xp c1
  then (level_up (with_progress (level c1) (xp c1 - xp_needed) (coins c1) c1),
        true)
  else (c1, false).

(** An entry of [ITEMS] (249-259). *)
Record Item : Type := {
  price : Z; item_hp : Z; item_sp : Z; desc : string;
  item_luck : option Z; poison : bool; item_speed : option Z
}.

Definition plain_item (p h s : Z) (d : string) : Item :=
  {| price := p; item_hp := h; item_sp := s; desc := d;
     item_luck := None; poison := false; item_speed := None |}.

Definition ITEMS : list (string * Item) :=
  [("Mushroom", plain_item 50 30 0 "Restores 30 HP");
   ("Super Mushroom", plain_item 100 60 0 "Restores 60 HP");
   ("Ultra Mushroom", plain_item 200 120 0 "Restores 120 HP");
   ("Maple Syrup", plain_item 75 0 20 "Restores 20 SP");
   ("Super Syrup", plain_item 150 0 40 "Restores 40 SP");
   ("Lucky Clover",
    {| price := 100; item_hp := 0; item_sp := 0;
       desc := "+10 Luck for battle"; item_luck := Some 10;
       poison := false; item_speed := None |});
   ("1-Up Mushroom", plain_item 500 999 999 "Full restore");
   ("Poison Mushroom",
    {| price := 150; item_hp := 0; item_sp := 0; desc := "Poisons enemies";
       item_luck := None; poison := true; item_speed := None |});
   ("Golden Mushroom",
    {| price := 300; item_hp := 0; item_sp := 0; desc := "Max speed";
       item_luck := None; poison := false; item_speed := Some 999 |})].

Fixpoint lookup {A : Type} (k : string) (l : list (string * A)) : option A :=
  match l with
  | [] => None
  | (k', a) :: r => if String.eqb k' k then Some a else lookup k r
  end.

(** An enemy dictionary. *)
Record Enemy : Type := {
  enemy_name : string; enemy_hp : Z; enemy_power : Z; enemy_defense : Z;
  enemy_speed : Z; enemy_xp : Z; enemy_coins : Z
}.

(** An entry of [ENEMIES] (262-270): an enemy without its name. *)
Definition ENEMIES : list (string * (string -> Enemy)) :=
  let e h p d s xp' c := fun n =>
    {| enemy_name := n; enemy_hp := h; enemy_power := p; enemy_defense := d;
       enemy_speed := s; enemy_xp := xp'; enemy_coins := c |} in
  [("Goomba", e 20 5 2 5 10 5);
   ("Koopa Troopa", e 30 7 5 6 15 8);
   ("Shy Guy", e 25 6 3 7 12 6);
   ("Pokey", e 40 8 4 3 20 12);
   ("Dry Bones", e 35 9 6 4 18 10);
   ("Bowser", e 100 15 8 5 50 30);
   ("Tutankoopa", e 150 18 10 8 100 80)].

(** The list [enemies] that [GameEngine.start_battle] builds (1030-1035):
    one enemy for each name found in [ENEMIES], under that name. *)
Fixpoint battle_enemies (enemy_names : list string) : list Enemy :=
  match enemy_names with
  | [] => []
  | n :: r =>
      match lookup n ENEMIES with
      | Some e => e n :: battle_enemies r
      | None => battle_enemies r
      end
  end.

Definition Enemy_eqb (a b : Enemy) : bool :=
  String.eqb (enemy_name a) (enemy_name b)
  && (enemy_hp a =? enemy_hp b) && (enemy_power a =? enemy_power b)
  && (enemy_defense a =? enemy_defense b) && (enemy_speed a =? enemy_speed b)
  && (enemy_xp a =? enemy_xp b) && (enemy_coins a =? enemy_coins b).

Definition hit (damage : Z) (e : Enemy) : Enemy :=
  {| enemy_name := enemy_name e; enemy_hp := enemy_hp e - damage;
     enemy_power := enemy_power e; enemy_defense := enemy_defense e;
     enemy_speed := enemy_speed e; enemy_xp := enemy_xp e;
     enemy_coins := enemy_coins e |}.

(** [list.remove]: without the first element equal to [e]. *)
Fixpoint remove_first (e : Enemy) (l : list Enemy) : list Enemy :=
  match l with
  | [] => []
  | a :: r => if Enemy_eqb a e then r else a :: remove_first e r
  end.

Fixpoint remove_item (s : string) (l : list string) : list string :=
  match l with
  | [] => []
  | a :: r => if String.eqb a s then r else a :: remove_item s r
  end.

(** The two values that [action_power] takes: [1.0], set by [__init__],
    and [0.5], set by the action Defend. *)
Inductive ActionPower : Type := Full | Half.

(** The binary64 number nearest to a positive integer, ties to even; it
    is an integer again. *)
Definition round53 (z : Z) : Z :=
  let n := Z.log2 z + 1 in
  if n <=? 53 then z
  else
    let k := n - 53 in
    let q := z / 2 ^ k in
    let r := z mod 2 ^ k in
    let h := 2 ^ (k - 1) in
    (if (h <? r) || ((r =? h) && Z.odd q) then q + 1 else q) * 2 ^ k.

(** [int(damage * self.action_power)] for [damage >= 1]: the integer is
    converted to binary64, [None] standing for [OverflowError]; the
    product by [1.0] or [0.5] is exact, and [int] drops the fraction. *)
Definition scaled (damage : Z) (p : ActionPower) : option Z :=
  let f := round53 damage in
  if 2 ^ 1024 <=? f then None
  else Some (match p with Full => f | Half => f / 2 end).

Inductive battle_exn : Type := OverflowError | UnboundLocalError.

(** The fields of [BattleSystem] (314-326); [rewards] has the keys ['xp'],
    ['coins'] and ['items'], the last one always empty. *)
Record BattleSystem : Type := {
  player : Character;
  battle_party : list Character;
  enemies : list Enemy;
  turn : string;
  selected_action : option string;
  selected_target : Z;
  action_timer : pyfloat;
  action_power : ActionPower;
  battle_log : list string;
  victory : bool;
  defeat : bool;
  rewards_xp : Z;
  rewards_coins : Z
}.

(** [BattleSystem.__init__] *)
Definition new_battle (pl : Character) (es : list Enemy) : BattleSystem :=
  {| player := pl; battle_party := firstn 3 (party pl); enemies := es;
     turn := "player"; selected_action := None; selected_target := 0;
     action_timer := FDec false 0 0; action_power := Full;
     battle_log := []; victory := false; defeat := false;
     rewards_xp := 0; rewards_coins := 0 |}.

(** [deque(maxlen=5).append] *)
Definition log_append (s : string) (log : list string) : list string :=
  let l := (log ++ [s])%list in
  if (5 <? List.length l)%nat then tl l else l.

Definition say (s : string) (b : BattleSystem) : BattleSystem :=
  {| player := player b; battle_party := battle_party b;
     enemies := enemies b; turn := turn b;
     selected_action := selected_action b;
     selected_target := selected_target b; action_timer := action_timer b;
     action_power := action_power b;
     battle_log := log_append s (battle_log b);
     victory := victory b; defeat := defeat b;
     rewards_xp := rewards_xp b; rewards_coins := rewards_coins b |}.

Definition with_player (pl : Character) (b : BattleSystem) : BattleSystem :=
  {| player := pl; battle_party := battle_party b;
     enemies := enemies b; turn := turn b;
     selected_action := selected_action b;
     selected_target := selected_target b; action_timer := action_timer b;
     action_power := action_power b; battle_log := battle_log b;
     victory := victory b; defeat := defeat b;
     rewards_xp := rewards_xp b; rewards_coins := rewards_coins b |}.

Definition with_enemies (es : list Enemy) (b : BattleSystem) : BattleSystem :=
  {| player := player b; battle_party := battle_party b;
     enemies := es; turn := turn b;
     selected_action := selected_action b;
     selected_target := selected_target b; action_timer := action_timer b;
     action_power := action_power b; battle_log := battle_log b;
     victory := victory b; defeat := defeat b;
     rewards_xp := rewards_xp b; rewards_coins := rewards_coins b |}.

Definition with_flags (t : string) (p : ActionPower) (v d : bool)
    (b : BattleSystem) : BattleSystem :=
  {| player := player b; battle_party := battle_party b;
     enemies := enemies b; turn := t;
     selected_action := selected_action b;
     selected_target := selected_target b; action_timer := action_timer b;
     action_power := p; battle_log := battle_log b;
     victory := v; defeat := d;
     rewards_xp := rewards_xp b; rewards_coins := rewards_coins b |}.

Definition with_rewards (rx rc : Z) (b : BattleSystem) : BattleSystem :=
  {| player := player b; battle_party := battle_party b;
     enemies := enemies b; turn := turn b;
     selected_action := selected_action b;
     selected_target := selected_target b; action_timer := action_timer b;
     action_power := action_power b; battle_log := battle_log b;
     victory := victory b; defeat := defeat b;
     rewards_xp := rx; rewards_coins := rc |}.

(** [select_action] (335-338) *)
Definition select_action (action : string) (b : BattleSystem) : BattleSystem :=
  {| player := player b; battle_party := battle_party b;
     enemies := enemies b; turn := turn b;
     selected_action := Some action;
     selected_target := selected_target b;
     action_timer := FDec false 5 (-1);
     action_power := action_power b; battle_log := battle_log b;
     victory := victory b; defeat := defeat b;
     rewards_xp := rewards_xp b; rewards_coins := rewards_coins b |}.

Definition set_hp (h : Z) (c : Character) : Character :=
  let st := stats c in
  with_stats
    {| hp := h; sp := sp st; max_hp := max_hp st; max_sp := max_sp st;
       power := power st; defense := defense st; speed := speed st;
       luck := luck st |} c.

Definition set_sp (s : Z) (c : Character) : Character :=
  let st := stats c in
  with_stats
    {| hp := hp st; sp := s; max_hp := max_hp st; max_sp := max_sp st;
       power := power st; defense := defense st; speed := speed st;
       luck := luck st |} c.

(** [enemy_turn] (402-413) *)
Fixpoint enemy_attacks (es : list Enemy) (b : BattleSystem) : BattleSystem :=
  match es with
  | [] => b
  | enemy :: r =>
      let pl := player b in
      let damage := Z.max 1 (enemy_power enemy - defense (stats pl)) in
      let b1 := with_player (set_hp (hp (stats pl) - damage) pl) b in
      let b2 := say (enemy_name enemy ++ " deals "
                     ++ Text.string_of_Z damage ++ " damage!") b1 in
      let b3 :=
        if hp (stats (player b2)) <=? 0
        then say "Defeated..."
               (with_flags (turn b2) (action_power b2) (victory b2) true b2)
        else b2 in
      enemy_attacks r b3
  end.

Definition enemy_turn (b : BattleSystem) : BattleSystem :=
  let b' := enemy_attacks (enemies b) b in
  with_flags "player" (action_power b') (victory b') (defeat b') b'.

Fixpoint set_nth (i : nat) (e : Enemy) (l : list Enemy) : list Enemy :=
  match l, i with
  | [], _ => []
  | _ :: r, O => e :: r
  | a :: r, S i' => a :: set_nth i' e r
  end.

(** The action Attack (341-355). *)
Definition attack (b : BattleSystem) : BattleSystem * option battle_exn :=
  match enemies b with
  | [] => (b, None)
  | first :: _ =>
      let i := Z.to_nat (selected_target b
                         mod Z.of_nat (List.length (enemies b))) in
      let target := nth i (enemies b) first in
      let damage :=
        Z.max 1 (power (stats (player b)) - enemy_defense target) in
      match scaled damage (action_power b) with
      | None => (b, Some OverflowError)
      | Some damage =>
          let target' := hit damage target in
          let b1 := with_enemies (set_nth i target' (enemies b)) b in
          let b2 := say (name (player b) ++ " deals "
                         ++ Text.string_of_Z damage ++ " damage!") b1 in
          if enemy_hp target' <=? 0 then
            let b3 := say (enemy_name target' ++ " defeated!") b2 in
            let b4 := with_rewards (rewards_xp b3 + enemy_xp target')
                        (rewards_coins b3 + enemy_coins target') b3 in
            (with_enemies (remove_first target' (enemies b4)) b4, None)
          else (b2, None)
      end
  end.

(** The action Special (357-364); the message reads the damage of the
    last enemy of the loop. *)
Definition special (b : BattleSystem) : BattleSystem * option battle_exn :=
  let pl := player b in
  if 5 <=? sp (stats pl) then
    let b1 := with_player (set_sp (sp (stats pl) - 5) pl) b in
    let dmg (enemy : Enemy) :=
      Z.max 1 (power (stats pl) * 2 - enemy_defense enemy) in
    let b2 := with_enemies (map (fun e => hit (dmg e) e) (enemies b1)) b1 in
    match rev (enemies b) with
    | [] => (b2, Some UnboundLocalError)
    | last_enemy :: _ =>
        (say ("Special attack hits all for "
              ++ Text.string_of_Z (dmg last_enemy) ++ "!") b2, None)
    end
  else (b, None).

(** The action Item (366-377). *)
Definition use_item (b : BattleSystem) : BattleSystem :=
  let pl := player b in
  match items pl with
  | [] => b
  | item_name :: _ =>
      match lookup item_name ITEMS with
      | None => b
      | Some item =>
          let st := stats pl in
          let pl1 := set_hp (Z.min (max_hp st) (hp st + item_hp item)) pl in
          let st1 := stats pl1 in
          let pl2 := set_sp (Z.min (max_sp st1) (sp st1 + item_sp item)) pl1 in
          let pl3 := with_items (remove_item item_name (items pl2)) pl2 in
          say ("Used " ++ item_name ++ "!") (with_player pl3 b)
      end
  end.

(** The chain of tests on [selected_action] in [execute_action]
    (341-388); [escaped] is the outcome of the test
    [random.random() < 0.5] of the action Run. *)
Definition act (escaped : bool) (b : BattleSystem)
  : BattleSystem * option battle_exn :=
  match selected_action b with
  | None => (b, None)
  | Some a =>
      if String.eqb a "Attack" then attack b
      else if String.eqb a "Special" then special b
      else if String.eqb a "Item" then (use_item b, None)
      else if String.eqb a "Defend" then
        (say (name (player b) ++ " defends!")
             (with_flags (turn b) Half (victory b) (defeat b) b), None)
      else if String.eqb a "Run" then
        (if escaped
         then with_flags (turn b) (action_power b) true (defeat b)
                (say "Got away safely!" b)
         else say "Can't escape!" b, None)
      else (b, None)
  end.

(** The end of [execute_action] (390-400): the check for victory, then the
    turn of the enemies. *)
Definition conclude (b1 : BattleSystem) : BattleSystem :=
  let b2 :=
    match enemies b1 with
    | [] =>
        let b' := say "Victory!"
                    (with_flags (turn b1) (action_power b1) true
                                (defeat b1) b1) in
        let pl := fst (add_xp (rewards_xp b') (player b')) in
        with_player
          (with_progress (level pl) (xp pl) (coins pl + rewards_coins b') pl)
          b'
    | _ => b1
    end in
  if negb (victory b2) && String.eqb (turn b2) "player"
  then enemy_turn
         (with_flags "enemy" (action_power b2) (victory b2) (defeat b2) b2)
  else b2.

(** [execute_action] (340-400) *)
Definition execute_action (escaped : bool) (b : BattleSystem)
  : BattleSystem * option battle_exn :=
  match act escaped b with
  | (b1, Some e) => (b1, Some e)
  | (b1, None) => (conclude b1, None)
  end.

(** Vocabulary: the damage that the enemies [es] deal in one turn to a
    player of defense [d], each enemy dealing one point at least. *)
Definition turn_damage (d : Z) (es : list Enemy) : Z :=
  fold_right (fun e acc => Z.max 1 (enemy_power e - d) + acc) 0 es.

End Game.

(** * Shop, inventory and patches (src/live-8.9.25.-a.py, 272-292,
    573-614, 1058-1062, 1197-1217, 1231-1252 and 1299-1319)

    The branches of [GameEngine.handle_input] for the states SHOP, INVENTORY
    and PATCHES, on the fields of the engine that they read or write. *)

Module Engine.

(** [GameState] (557-570); the member [PATCHES] is written
    [PATCHES_STATE], the name [PATCHES] being that of the table. *)
Inductive GameState : Type :=
| TITLE | STORY | CHARACTER_CREATE | GUARDIAN_SELECT | OVERWORLD | BATTLE
| SHOP | DOJO | PATCHES_STATE | NETWORK | INVENTORY | DESERT | RUINS.

(** The key of a KEYDOWN event. *)
Inductive Key : Type :=
| K_UP | K_DOWN | K_LEFT | K_RIGHT | K_RETURN | K_z | K_ESCAPE | K_TAB
| K_l | K_other.

Inductive error : Type := AttributeError | IndexError.

(** An entry of [PATCHES] (272-292). *)
Record Patch : Type := {
  patch_name : string; patch_price : Z; patch_desc : string
}.

Definition PATCHES : list (string * Patch) :=
  let p n c d := {| patch_name := n; patch_price := c; patch_desc := d |} in
  [("MLSS", p "MLSS Patch" 0 "Adds Superstar Saga areas");
   ("MLPiT", p "MLPiT Patch" 0 "Adds Partners in Time areas");
   ("Beanish", p "Beanish Patch" 0 "Enables Beanish class");
   ("Ukiki", p "Ukiki Patch" 0 "Enables Ukiki class");
   ("PoisonShroom", p "Poison Mushroom Patch" 0 "Poison Mushroom item");
   ("MLBiS", p "MLBiS Patch" 750 "Bowser's Inside Story areas");
   ("ShroomyHelpers", p "'Shroomy Helpers" 1000 "Recruit Toads");
   ("GoldenShroom", p "Golden Mushroom" 500 "Max speed item");
   ("Apprentice", p "Apprentice Patch" 1000000 "Become apprentice");
   ("Stuffwell", p "Stuffwell Patch" 1000 "BACK TO ADVENTURE!!");
   ("StarGuardians", p "Star Guardians" 1000 "Recruit Geno & Mallow");
   ("SMRPG", p "SMRPG Patch" 0 "Super Mario RPG areas");
   ("SmithyGang", p "Smithy Gang" 1000 "Smithy Gang bosses");
   ("PaperPartners", p "Paper Partners" 2000 "Paper Mario partners");
   ("Cooligan", p "Cooligan Patch" 750 "Cooligan class");
   ("Dark", p "Dark Patch" 2000000 "Dark Star power");
   ("FountainYouth", p "Fountain of Youth" 1000000 "Stay baby forever");
   ("Toady", p "Toady Patch" 0 "Toady class");
   ("Rookie", p "Rookie Patch" 0 "Thief training")].

(** The fields of [GameEngine] that the three branches read or write;
    [patches_owned] is a set, kept as a list without repetition. *)
Record GameEngine : Type := {
  player : option Game.Character;
  patches_owned : list string;
  transition_alpha : Z;
  transition_target : option GameState;
  menu_index : Z;
  notification : string;
  notification_timer : pyfloat;
  shop_items : list string
}.

(** [GameEngine.__init__] (573-609) on these fields. *)
Definition new_engine : GameEngine :=
  {| player := None;
     patches_owned := ["MLSS"; "MLPiT"; "Beanish"; "Ukiki"; "PoisonShroom"];
     transition_alpha := 0; transition_target := None; menu_index := 0;
     notification := EmptyString; notification_timer := FDec false 0 0;
     shop_items := firstn 4 (map fst Game.ITEMS) |}.

Definition with_menu (i : Z) (g : GameEngine) : GameEngine :=
  {| player := player g; patches_owned := patches_owned g;
     transition_alpha := transition_alpha g;
     transition_target := transition_target g; menu_index := i;
     notification := notification g;
     notification_timer := notification_timer g;
     shop_items := shop_items g |}.

Definition with_player (c : Game.Character) (g : GameEngine) : GameEngine :=
  {| player := Some c; patches_owned := patches_owned g;
     transition_alpha := transition_alpha g;
     transition_target := transition_target g; menu_index := menu_index g;
     notification := notification g;
     notification_timer := notification_timer g;
     shop_items := shop_items g |}.

Definition with_patches (l : list string) (g : GameEngine) : GameEngine :=
  {| player := player g; patches_owned := l;
     transition_alpha := transition_alpha g;
     transition_target := transition_target g; menu_index := menu_index g;
     notification := notification g;
     notification_timer := notification_timer g;
     shop_items := shop_items g |}.

(** [show_notification] (611-614), with [duration] at its default [2.0]. *)
Definition show_notification (text : string) (g : GameEngine) : GameEngine :=
  {| player := player g; patches_owned := patches_owned g;
     transition_alpha := transition_alpha g;
     transition_target := transition_target g; menu_index := menu_index g;
     notification := text; notification_timer := FDec false 2 0;
     shop_items := shop_items g |}.

(** [transition_to] (1058-1062) *)
Definition transition_to (new_state : GameState) (g : GameEngine)
  : GameEngine :=
  {| player := player g; patches_owned := patches_owned g;
     transition_alpha := 0; transition_target := Some new_state;
     menu_index := 0; notification := notification g;
     notification_timer := notification_timer g;
     shop_items := shop_items g |}.

(** The position that the index [i] designates in a list of length [n]:
    a negative index counts from the end; [None] is [IndexError]. *)
Definition position (n : nat) (i : Z) : option nat :=
  let j := if i <? 0 then i + Z.of_nat n else i in
  if (0 <=? j) && (j <? Z.of_nat n) then Some (Z.to_nat j) else None.

(** [l[i]] *)
Definition item_at {A : Type} (l : list A) (i : Z) : option A :=
  match position (List.length l) i with
  | Some k => nth_error l k
  | None => None
  end.

(** [l.pop(i)], for an index in range. *)
Definition pop_at {A : Type} (l : list A) (i : Z) : list A :=
  match position (List.length l) i with
  | Some k => (firstn k l ++ skipn (S k) l)%list
  | None => l
  end.

Definition length_Z {A : Type} (l : list A) : Z := Z.of_nat (List.length l).

Definition with_coins_items (c' : Z) (l : list string) (c : Game.Character)
  : Game.Character :=
  Game.with_items l (Game.with_progress (Game.level c) (Game.xp c) c' c).

(** The branch of the state SHOP (1197-1217). *)
Definition shop_key (key : Key) (g : GameEngine)
  : GameEngine * option error :=
  match key with
  | K_ESCAPE => (transition_to OVERWORLD g, None)
  | K_UP => (with_menu (Z.max 0 (menu_index g - 1)) g, None)
  | K_DOWN =>
      (with_menu (Z.min (length_Z (shop_items g) - 1) (menu_index g + 1)) g,
       None)
  | K_RETURN | K_z =>
      if menu_index g <? length_Z (shop_items g) then
        match item_at (shop_items g) (menu_index g) with
        | None => (g, Some IndexError)
        | Some item_name =>
            match Game.lookup item_name Game.ITEMS with
            | None => (g, None)
            | Some item =>
                match player g with
                | None => (g, Some AttributeError)
                | Some c =>
                    if Game.price item <=? Game.coins c then
                      (show_notification ("Bought " ++ item_name ++ "!")
                         (with_player
                            (with_coins_items
                               (Game.coins c - Game.price item)
                               (Game.items c ++ [item_name]) c) g),
                       None)
                    else (show_notification "Not enough coins!" g, None)
                end
            end
        end
      else (g, None)
  | _ => (g, None)
  end.

Definition set_luck (l : Z) (c : Game.Character) : Game.Character :=
  let st := Game.stats c in
  Game.with_stats
    {| Game.hp := Game.hp st; Game.sp := Game.sp st;
       Game.max_hp := Game.max_hp st; Game.max_sp := Game.max_sp st;
       Game.power := Game.power st; Game.defense := Game.defense st;
       Game.speed := Game.speed st; Game.luck := l |} c.

(** The branch of the state INVENTORY (1231-1252). *)
Definition inventory_key (key : Key) (g : GameEngine)
  : GameEngine * option error :=
  match key with
  | K_ESCAPE => (transition_to OVERWORLD g, None)
  | K_UP => (with_menu (Z.max 0 (menu_index g - 1)) g, None)
  | K_DOWN =>
      match player g with
      | Some c =>
          match Game.items c with
          | [] => (g, None)
          | _ =>
              (with_menu (Z.min (length_Z (Game.items c) - 1)
                                (menu_index g + 1)) g, None)
          end
      | None => (g, None)
      end
  | K_RETURN | K_z =>
      match player g with
      | Some c =>
          if menu_index g <? length_Z (Game.items c) then
            match item_at (Game.items c) (menu_index g) with
            | None => (g, Some IndexError)
            | Some item_name =>
                match Game.lookup item_name Game.ITEMS with
                | None => (g, None)
                | Some item =>
                    let st := Game.stats c in
                    let c1 :=
                      Game.set_hp (Z.min (Game.max_hp st)
                                         (Game.hp st + Game.item_hp item)) c in
                    let st1 := Game.stats c1 in
                    let c2 :=
                      Game.set_sp (Z.min (Game.max_sp st1)
                                         (Game.sp st1 + Game.item_sp item)) c1 in
                    let c3 :=
                      match Game.item_luck item with
                      | Some l =>
                          if l =? 0 then c2
                          else set_luck (Game.luck (Game.stats c2) + l) c2
                      | None => c2
                      end in
                    let c4 :=
                      Game.with_items (pop_at (Game.items c3) (menu_index g))
                                      c3 in
                    (show_notification ("Used " ++ item_name ++ "!")
                       (with_player c4 g), None)
                end
            end
          else (g, None)
      | None => (g, None)
      end
  | _ => (g, None)
  end.

Definition owned (g : GameEngine) (patch_id : string) : bool :=
  existsb (String.eqb patch_id) (patches_owned g).

(** [[p for p in PATCHES.items() if p[0] not in self.patches_owned]] *)
Definition available (g : GameEngine) : list (string * Patch) :=
  filter (fun p => negb (owned g (fst p))) PATCHES.

(** [self.patches_owned.add(patch_id)] *)
Definition add_patch (patch_id : string) (g : GameEngine) : GameEngine :=
  if owned g patch_id then g
  else with_patches (patches_owned g ++ [patch_id]) g.

(** The branch of the state PATCHES (1299-1319). *)
Definition patches_key (key : Key) (g : GameEngine)
  : GameEngine * option error :=
  match key with
  | K_ESCAPE => (transition_to OVERWORLD g, None)
  | K_UP =>
      match available g with
      | [] => (g, None)
      | _ => (with_menu (Z.max 0 (menu_index g - 1)) g, None)
      end
  | K_DOWN =>
      match available g with
      | [] => (g, None)
      | _ =>
          (with_menu (Z.min (length_Z (available g) - 1) (menu_index g + 1)) g,
           None)
      end
  | K_RETURN | K_z =>
      if menu_index g <? length_Z (available g) then
        match player g with
        | Some c =>
            match item_at (available g) (menu_index g) with
            | None => (g, Some IndexError)
            | Some (patch_id, patch_data) =>
                if patch_price patch_data <=? Game.coins c then
                  (show_notification ("Bought " ++ patch_name patch_data ++ "!")
                     (add_patch patch_id
                        (with_player
                           (with_coins_items
                              (Game.coins c - patch_price patch_data)
                              (Game.items c) c) g)),
                   None)
                else (show_notification "Not enough coins!" g, None)
            end
        | None => (g, None)
        end
      else (g, None)
  | _ => (g, None)
  end.

End Engine.

(** * Properties *)

(** ** What comes out of the decoder *)

Lemma of_json_not_member (j : Json.json) (t : PacketType) :
  eq_member (Json.of_json j) t = false.
Proof. destruct j; reflexivity. Qed.

Lemma get_of_json (k : value) (d : list (string * Json.json)) (v : value) :
  Dict.get k (map (fun kv => (VStr (fst kv), Json.of_json (snd kv))) d) = Some v ->
  exists j, v = Json.of_json j.
Proof.
  induction d as [|[k' j'] d IH]; cbn [Dict.get map fst snd];
    [discriminate|].
  destruct (key_eqb (VStr k') k).
  - intros H; injection H as <-. now exists j'.
  - exact IH.
Qed.

Lemma getitem_of_json (j : Json.json) (k : string) (v : value) :
  getitem (Json.of_json j) k = Return v -> exists j', v = Json.of_json j'.
Proof.
  destruct j; simpl; try discriminate.
  destruct (Dict.get _ _) eqn:G; [|discriminate].
  intros H; injection H as <-. eapply get_of_json, G.
Qed.

Lemma parse_packet_json (data : string) (v : value) :
  _parse_packet data = Return v -> exists j, v = Json.of_json j.
Proof.
  unfold _parse_packet, bind.
  destruct (Text.decode data); [|discriminate].
  destruct (Json.loads a); [|discriminate].
  intros H; injection H as <-. now eexists.
Qed.

Lemma parse_packet_errors (data : string) (e : exn) :
  _parse_packet data = Raise e -> e = UnicodeDecodeError \/ e = JSONDecodeError.
Proof.
  unfold _parse_packet, bind, Text.decode, Json.loads.
  destruct (Text.points _ _); [|intros H; injection H as <-; now left].
  destruct (Json.scan_once _ _) as [[j r]|].
  - destruct (Json.skip_ws r); [discriminate|].
    intros H; injection H as <-; now right.
  - intros H; injection H as <-; now right.
Qed.

(** ** What the decoder accepts

    [bytes.decode] returns on well-formed UTF-8 only, and [json.loads] on
    JSON text only. *)

Module JsonFacts.

Import Text Json.

Ltac divlia := zify; Z.to_euclidean_division_equations; lia.

Lemma cont_bounds (b : N) : negb (cont b) = false -> (128 <= b <= 191)%N.
Proof.
  unfold cont. intros H. apply negb_false_iff, andb_true_iff in H as [A B].
  apply N.leb_le in A, B. lia.
Qed.

Lemma points_sound (n : nat) :
  forall (bs cps : list N),
    (List.length bs <= n)%nat ->
    points true bs = Some cps ->
    Forall scalar cps /\ bs = flat_map encode_point cps.
Proof.
  induction n as [|n IH]; intros bs cps L.
  { destruct bs; [|simpl in L; lia]. intros H; injection H as <-.
    split; [constructor | reflexivity]. }
  assert (K : forall r cp,
    (List.length r <= n)%nat -> scalar cp ->
    bs = (encode_point cp ++ r)%list ->
    option_map (cons cp) (points true r) = Some cps ->
    Forall scalar cps /\ bs = flat_map encode_point cps).
  { intros r cp Lr Sc -> H.
    destruct (points true r) as [cps'|] eqn:P; [|discriminate].
    injection H as <-. destruct (IH _ _ Lr P) as [F ->].
    split; [now constructor | reflexivity]. }
  destruct bs as [|b0 r0].
  { intros H; injection H as <-. split; [constructor | reflexivity]. }
  simpl in L. cbn [points].
  destruct (b0 <? 128)%N eqn:B0.
  { apply N.ltb_lt in B0. apply (K r0 b0); [lia | left; lia |].
    unfold encode_point. apply N.ltb_lt in B0. now rewrite B0. }
  destruct (b0 <? 194)%N eqn:B1; [discriminate|].
  apply N.ltb_ge in B0, B1.
  destruct r0 as [|b1 r1]; [discriminate|]. simpl in L.
  destruct (negb (cont b1)) eqn:C1; [discriminate|]. apply cont_bounds in C1.
  destruct (b0 <? 224)%N eqn:B2.
  { apply N.ltb_lt in B2. unfold scalar_ok.
    destruct (128 <=? _)%N eqn:S; [|discriminate]. apply N.leb_le in S.
    apply (K r1 _); [lia | left; divlia |].
    unfold encode_point.
    destruct (_ <? 128)%N eqn:X1; [apply N.ltb_lt in X1; divlia|].
    destruct (_ <? 2048)%N eqn:X2; [|apply N.ltb_ge in X2; divlia].
    cbn [app]. f_equal; [divlia|]. f_equal. divlia. }
  apply N.ltb_ge in B2.
  destruct r1 as [|b2 r2]; [discriminate|]. simpl in L.
  destruct (negb (cont b2)) eqn:C2; [discriminate|]. apply cont_bounds in C2.
  destruct (b0 <? 240)%N eqn:B3.
  { apply N.ltb_lt in B3. unfold scalar_ok.
    destruct (_ && _) eqn:S; [|discriminate].
    apply andb_true_iff in S as [S1 S2]. apply N.leb_le in S1.
    apply negb_true_iff in S2. cbn [andb] in S2.
    apply (K r2 _); [lia | |].
    - apply andb_false_iff in S2 as [S2|S2];
        [apply N.leb_gt in S2; left; exact S2|].
      apply N.leb_gt in S2. right. divlia.
    - unfold encode_point.
      destruct (_ <? 128)%N eqn:X1; [apply N.ltb_lt in X1; divlia|].
      destruct (_ <? 2048)%N eqn:X2; [apply N.ltb_lt in X2; divlia|].
      destruct (_ <? 65536)%N eqn:X3; [|apply N.ltb_ge in X3; divlia].
      cbn [app]. f_equal; [divlia|]. f_equal; [divlia|]. f_equal. divlia. }
  apply N.ltb_ge in B3.
  destruct r2 as [|b3 r3]; [discriminate|]. simpl in L.
  destruct (negb (cont b3) || (244 <? b0)%N) eqn:C3; [discriminate|].
  apply orb_false_iff in C3 as [C3 B4]. apply cont_bounds in C3.
  apply N.ltb_ge in B4. unfold scalar_ok.
  destruct (_ && _) eqn:S; [|discriminate].
  apply andb_true_iff in S as [S1 S2]. apply N.leb_le in S1, S2.
  apply (K r3 _); [lia | right; lia |].
  unfold encode_point.
  destruct (_ <? 128)%N eqn:X1; [apply N.ltb_lt in X1; divlia|].
  destruct (_ <? 2048)%N eqn:X2; [apply N.ltb_lt in X2; divlia|].
  destruct (_ <? 65536)%N eqn:X3; [apply N.ltb_lt in X3; divlia|].
  cbn [app]. f_equal; [divlia|]. f_equal; [divlia|]. f_equal; [divlia|].
  f_equal. divlia.
Qed.

Lemma decode_sound (data s : string) :
  decode data = Return s -> utf8 data.
Proof.
  unfold decode. destruct (points true (bytes_of data)) as [cps|] eqn:P;
    [|discriminate].
  intros _. exists cps. exact (points_sound _ _ _ (le_n _) P).
Qed.

Lemma skip_ws_split (s : list ascii) :
  exists w, s = (w ++ skip_ws s)%list /\ ws w.
Proof.
  induction s as [|c r [w [E W]]]; [exists []; split; [reflexivity|constructor]|].
  simpl. destruct (is_ws c) eqn:C.
  - exists (c :: w). split; [simpl; now f_equal | now constructor].
  - exists []. split; [reflexivity | constructor].
Qed.

Lemma take_digits_split (s ds r : list ascii) :
  take_digits s = (ds, r) ->
  s = (ds ++ r)%list /\ Forall (fun c => is_digit c = true) ds.
Proof.
  revert ds r; induction s as [|c s IH]; intros ds r; simpl.
  - intros H; injection H as <- <-. split; [reflexivity|constructor].
  - destruct (is_digit c) eqn:C.
    + destruct (take_digits s) as [ds' r'].
      intros H; injection H as <- <-.
      destruct (IH _ _ eq_refl) as [-> F]. split; [reflexivity|now constructor].
    + intros H; injection H as <- <-. split; [reflexivity|constructor].
Qed.

Lemma prefix_split (p : string) (s r : list ascii) :
  prefix p s = Some r -> s = (list_ascii_of_string p ++ r)%list.
Proof.
  unfold prefix. destruct (list_eq_dec _ _ _) as [E|]; [|discriminate].
  intros H; injection H as <-.
  rewrite <- (firstn_skipn (List.length (list_ascii_of_string p)) s) at 1.
  now rewrite E.
Qed.

Lemma hex4_value_split (s r : list ascii) (n : N) :
  hex4_value s = Some (n, r) ->
  exists a b c d, s = a :: b :: c :: d :: r /\ hex a /\ hex b /\ hex c /\ hex d.
Proof.
  destruct s as [|a [|b [|c [|d s]]]]; simpl; try discriminate.
  intros H. exists a, b, c, d. unfold hex.
  destruct (hex_value a), (hex_value b), (hex_value c), (hex_value d);
    try discriminate.
  injection H as _ <-. repeat split; try reflexivity; discriminate.
Qed.

Lemma N_of_ascii_eqb (c : ascii) (n : N) :
  (n < 256)%N -> (N_of_ascii c =? n)%N = true -> c = ascii_of_N n.
Proof.
  intros _ H. apply N.eqb_eq in H. rewrite <- H. now rewrite ascii_N_embedding.
Qed.

Lemma scanstring_sound (fuel : nat) :
  forall (s : list ascii) (acc : list N) (str : string) (r : list ascii),
    scanstring fuel s acc = Some (str, r) ->
    exists b, s = (b ++ quote :: r)%list /\ string_chars b.
Proof.
  induction fuel as [|fuel IH]; intros s acc str r; [discriminate|].
  cbn [scanstring]. destruct s as [|c s]; [discriminate|].
  destruct (N_of_ascii c =? 34)%N eqn:Q.
  { intros H; injection H as _ <-. exists []. split; [|constructor].
    simpl. f_equal. now apply N_of_ascii_eqb. }
  destruct (N_of_ascii c =? 92)%N eqn:B.
  - apply N_of_ascii_eqb in B; [|reflexivity]. change (ascii_of_N 92) with "\"%char in B.
    subst c. destruct s as [|e s]; [discriminate|].
    assert (simple : forall n b,
      (N_of_ascii e =? n)%N = true -> (n < 256)%N ->
      In (ascii_of_N n) [quote; "\"%char; "/"%char; "b"%char; "f"%char;
                         "n"%char; "r"%char; "t"%char] ->
      scanstring fuel s (acc ++ [b]) = Some (str, r) ->
      exists b0, ("\"%char :: e :: s = b0 ++ quote :: r)%list /\ string_chars b0).
    { intros n b E L I H. apply N_of_ascii_eqb in E; [|exact L]. subst e.
      destruct (IH _ _ _ _ H) as [b0 [-> C]].
      exists ("\"%char :: ascii_of_N n :: b0). split; [reflexivity|].
      now apply chars_escape. }
    destruct (N_of_ascii e =? 34)%N eqn:E1;
      [apply (simple 34%N 34%N E1); [reflexivity|simpl; tauto]|].
    destruct (N_of_ascii e =? 92)%N eqn:E2;
      [apply (simple 92%N 92%N E2); [reflexivity|simpl; tauto]|].
    destruct (N_of_ascii e =? 47)%N eqn:E3;
      [apply (simple 47%N 47%N E3); [reflexivity|simpl; tauto]|].
    destruct (N_of_ascii e =? 98)%N eqn:E4;
      [apply (simple 98%N 8%N E4); [reflexivity|simpl; tauto]|].
    destruct (N_of_ascii e =? 102)%N eqn:E5;
      [apply (simple 102%N 12%N E5); [reflexivity|simpl; tauto]|].
    destruct (N_of_ascii e =? 110)%N eqn:E6;
      [apply (simple 110%N 10%N E6); [reflexivity|simpl; tauto]|].
    destruct (N_of_ascii e =? 114)%N eqn:E7;
      [apply (simple 114%N 13%N E7); [reflexivity|simpl; tauto]|].
    destruct (N_of_ascii e =? 116)%N eqn:E8;
      [apply (simple 116%N 9%N E8); [reflexivity|simpl; tauto]|].
    destruct (N_of_ascii e =? 117)%N eqn:E9; [|discriminate].
    apply N_of_ascii_eqb in E9; [|reflexivity].
    change (ascii_of_N 117) with "u"%char in E9. subst e.
    destruct (hex4_value s) as [[hi r2]|] eqn:H1; [|discriminate].
    apply hex4_value_split in H1 as [a [b [c [d [-> [Ha [Hb [Hc Hd]]]]]]]].
    assert (lone : forall acc',
      scanstring fuel r2 acc' = Some (str, r) ->
      exists b0, ("\"%char :: "u"%char :: a :: b :: c :: d :: r2
                  = b0 ++ quote :: r)%list /\ string_chars b0).
    { intros acc' H. destruct (IH _ _ _ _ H) as [b0 [-> C]].
      exists ("\"%char :: "u"%char :: a :: b :: c :: d :: b0).
      split; [reflexivity | now apply chars_unicode]. }
    destruct ((55296 <=? hi) && (hi <=? 56319))%N; [|apply lone].
    destruct (prefix "\u" r2) as [r3|] eqn:P; [|apply lone].
    destruct (hex4_value r3) as [[lo r4]|] eqn:H2; [|discriminate].
    destruct ((56320 <=? lo) && (lo <=? 57343))%N; [|apply lone].
    apply prefix_split in P. subst r2.
    apply hex4_value_split in H2 as [a' [b' [c' [d' [-> [Ha' [Hb' [Hc' Hd']]]]]]]].
    intros H. destruct (IH _ _ _ _ H) as [b0 [-> C]].
    exists ("\"%char :: "u"%char :: a :: b :: c :: d
            :: "\"%char :: "u"%char :: a' :: b' :: c' :: d' :: b0).
    split; [reflexivity|].
    apply chars_unicode; auto. apply chars_unicode; auto.
  - destruct (N_of_ascii c <? 32)%N eqn:L; [discriminate|].
    intros H. destruct (IH _ _ _ _ H) as [b0 [-> C]].
    exists (c :: b0). split; [reflexivity|].
    apply chars_plain; auto.
    + apply N.ltb_ge in L. exact L.
    + intros ->. discriminate Q.
    + intros ->. discriminate B.
Qed.


Ltac ascii_cases c := destruct c as [[] [] [] [] [] [] [] []].

Lemma match_number_parts (s : list ascii) :
  match_number s
  = let (neg, s1) := sign_part s in
    match int_part s1 with
    | None => None
    | Some (ip, s2) =>
        let (frac, s3) := frac_part s2 in
        match frac, exp_part s3 with
        | [], None =>
            if Z.of_nat (List.length ip) <=? max_str_digits
            then Some (JInt (signed neg (digits_value ip)), s3)
            else None
        | _, None =>
            Some (JFloat (Float64.of_decimal neg (digits_value (ip ++ frac))
                            (- Z.of_nat (List.length frac))), s3)
        | _, Some (e, s4) =>
            Some (JFloat (Float64.of_decimal neg (digits_value (ip ++ frac))
                            (e - Z.of_nat (List.length frac))), s4)
        end
    end.
Proof. reflexivity. Qed.

Lemma sign_part_split (s : list ascii) :
  exists m, s = (m ++ snd (sign_part s))%list /\ (m = [] \/ m = ["-"%char]).
Proof.
  destruct s as [|c r]; [exists []; split; auto|].
  ascii_cases c;
    first [ solve [exists ["-"%char]; split; auto]
          | solve [exists []; split; auto] ].
Qed.

Lemma int_part_split (s1 ip s2 : list ascii) :
  int_part s1 = Some (ip, s2) -> s1 = (ip ++ s2)%list /\ int_text ip.
Proof.
  destruct s1 as [|c r]; [discriminate|].
  destruct (ascii_dec c "0") as [->|N].
  - intros H; injection H as <- <-. split; [reflexivity|constructor].
  - assert (E : int_part (c :: r)
                = if is_digit c then Some (take_digits (c :: r)) else None).
    { ascii_cases c; try reflexivity. now contradiction N. }
    rewrite E. destruct (is_digit c) eqn:D; [|discriminate].
    intros H. assert (T : take_digits (c :: r) = (ip, s2)) by congruence.
    destruct (take_digits_split _ _ _ T) as [S F].
    split; [exact S|].
    simpl in T. rewrite D in T. destruct (take_digits r) as [ds r'].
    injection T as <- <-. inversion F; subst. now constructor.
Qed.

Lemma frac_part_split (s2 : list ascii) :
  exists f, s2 = (f ++ snd (frac_part s2))%list /\ (f = [] \/ frac_text f).
Proof.
  destruct s2 as [|c r]; [exists []; split; auto|].
  destruct (ascii_dec c ".") as [->|N].
  - cbn [frac_part]. destruct (take_digits r) as [fs r'] eqn:T.
    destruct (take_digits_split _ _ _ T) as [-> F].
    destruct fs as [|d fs]; [exists []; split; auto|].
    exists ("."%char :: d :: fs). split; [reflexivity|]. right.
    exists (d :: fs). split; [reflexivity|]. split; [discriminate|exact F].
  - exists []. split; [|now left].
    ascii_cases c; try reflexivity. now contradiction N.
Qed.

Lemma exp_part_split (s3 s4 : list ascii) (e : Z) :
  exp_part s3 = Some (e, s4) -> exists x, s3 = (x ++ s4)%list /\ exp_text x.
Proof.
  destruct s3 as [|c r]; [discriminate|]. cbn [exp_part].
  destruct (Ascii.eqb c "e" || Ascii.eqb c "E") eqn:C; [|discriminate].
  assert (Hc : c = "e"%char \/ c = "E"%char).
  { apply orb_true_iff in C as [C|C]; apply Ascii.eqb_eq in C; auto. }
  assert (S : exists sgn r1 b,
            r = (sgn ++ r1)%list
            /\ (sgn = [] \/ sgn = ["-"%char] \/ sgn = ["+"%char])
            /\ match r with
               | "-"%char :: r' => (true, r')
               | "+"%char :: r' => (false, r')
               | _ => (false, r)
               end = (b, r1)).
  { destruct r as [|d r]; [exists [], [], false; repeat split; auto|].
    ascii_cases d;
      first [ solve [exists ["-"%char], r, true; repeat split; auto]
            | solve [exists ["+"%char], r, false; repeat split; auto]
            | solve [eexists [], _, false; repeat split; auto] ]. }
  destruct S as [sgn [r1 [b [-> [Hs ->]]]]].
  destruct (take_digits r1) as [es r2] eqn:T.
  destruct (take_digits_split _ _ _ T) as [-> F].
  destruct es as [|d es]; [discriminate|].
  intros H; injection H as _ <-.
  exists (c :: sgn ++ d :: es)%list. split.
  - simpl. now rewrite <- app_assoc.
  - exists c, sgn, (d :: es). repeat split; auto. discriminate.
Qed.

Lemma match_number_sound (s r : list ascii) (j : json) :
  match_number s = Some (j, r) -> exists t, s = (t ++ r)%list /\ number t.
Proof.
  rewrite match_number_parts.
  destruct (sign_part_split s) as [m [Es Hm]].
  destruct (sign_part s) as [neg s1]. cbn [snd] in Es.
  destruct (int_part s1) as [[ip s2]|] eqn:I; [|discriminate].
  apply int_part_split in I as [-> Hi].
  destruct (frac_part_split s2) as [f [Ef Hf]].
  destruct (frac_part s2) as [frac s3]. cbn [snd] in Ef.
  destruct (exp_part s3) as [[e s4]|] eqn:X.
  - apply exp_part_split in X as [x [-> Hx]].
    intros H. assert (r = s4) by (destruct frac; now injection H). subst s4.
    exists (m ++ ip ++ f ++ x)%list. split.
    + rewrite Es, Ef. now rewrite <- !app_assoc.
    + exists m, ip, f, x. repeat split; auto.
  - intros H. assert (r = s3).
    { destruct frac; [destruct (_ <=? _); [|discriminate H]|];
        now injection H. }
    subst s3.
    exists (m ++ ip ++ f ++ [])%list. split.
    + rewrite Es, Ef. now rewrite <- !app_assoc.
    + exists m, ip, f, []. repeat split; auto.
Qed.

Lemma literal_sound (s r : list ascii) (j : json) :
  literal s = Some (j, r) ->
  exists t, s = (t ++ r)%list /\ (number t \/ word t).
Proof.
  unfold literal.
  assert (W : forall w j0,
    In (list_ascii_of_string w)
       (map list_ascii_of_string
          ["null"; "true"; "false"; "NaN"; "Infinity"; "-Infinity"]) ->
    option_map (pair j0) (prefix w s) = Some (j, r) ->
    exists t, s = (t ++ r)%list /\ (number t \/ word t)).
  { intros w j0 I H. destruct (prefix w s) as [r'|] eqn:P; [|discriminate].
    injection H as _ <-. apply prefix_split in P.
    exists (list_ascii_of_string w). split; [exact P | right; exact I]. }
  destruct (option_map (pair JNull) (prefix "null" s)) eqn:E1.
  { intros H; rewrite H in E1. eapply W, E1. simpl; tauto. }
  destruct (option_map (pair (JBool true)) (prefix "true" s)) eqn:E2.
  { intros H; rewrite H in E2. eapply W, E2. simpl; tauto. }
  destruct (option_map (pair (JBool false)) (prefix "false" s)) eqn:E3.
  { intros H; rewrite H in E3. eapply W, E3. simpl; tauto. }
  destruct (match_number s) as [[j' r']|] eqn:E4.
  { intros H; injection H as <- <-.
    destruct (match_number_sound _ _ _ E4) as [t [-> N]].
    exists t. split; [reflexivity | now left]. }
  destruct (option_map (pair (JFloat FNaN)) (prefix "NaN" s)) eqn:E5.
  { intros H; rewrite H in E5. eapply W, E5. simpl; tauto. }
  destruct (option_map (pair (JFloat (FInf false))) (prefix "Infinity" s)) eqn:E6.
  { intros H; rewrite H in E6. eapply W, E6. simpl; tauto. }
  intros H. eapply W, H. simpl; tauto.
Qed.


Lemma object_cases (fuel : nat) (r : list ascii) (x : option (json * list ascii)) :
  match skip_ws r with
  | "}"%char :: r' => Some (JDict [], r')
  | r' => members fuel r' []
  end = x ->
  (exists r', skip_ws r = "}"%char :: r' /\ x = Some (JDict [], r'))
  \/ x = members fuel (skip_ws r) [].
Proof.
  destruct (skip_ws r) as [|c r']; [now right|].
  ascii_cases c; intros <-;
    first [ now right | left; eexists; split; reflexivity ].
Qed.

Lemma array_cases (fuel : nat) (r : list ascii) (x : option (json * list ascii)) :
  match skip_ws r with
  | "]"%char :: r' => Some (JList [], r')
  | r' => elements fuel r' []
  end = x ->
  (exists r', skip_ws r = "]"%char :: r' /\ x = Some (JList [], r'))
  \/ x = elements fuel (skip_ws r) [].
Proof.
  destruct (skip_ws r) as [|c r']; [now right|].
  ascii_cases c; intros <-;
    first [ now right | left; eexists; split; reflexivity ].
Qed.

(** What the scanner accepts is a value of the grammar, and what is left
    is the rest of the text. *)
Lemma scan_sound (fuel : nat) :
  (forall s j r, scan_once fuel s = Some (j, r) ->
                 exists t, s = (t ++ r)%list /\ jvalue t)
  /\ (forall s acc j r, members fuel s acc = Some (j, r) ->
                        exists t, s = (t ++ r)%list /\ jmembers t)
  /\ (forall s acc j r, elements fuel s acc = Some (j, r) ->
                        exists t, s = (t ++ r)%list /\ jelements t).
Proof.
  induction fuel as [|fuel [V [IHm IHe]]];
    [repeat split; intros; discriminate|].
  repeat split.
  - (* scan_once *)
    intros s j r. cbn [scan_once]. destruct s as [|c s]; [discriminate|].
    destruct (N_of_ascii c =? 34)%N eqn:Q.
    { apply N_of_ascii_eqb in Q; [|reflexivity]. subst c.
      destruct (scanstring _ s []) as [[str r']|] eqn:S; [|discriminate].
      intros H; injection H as _ <-.
      apply scanstring_sound in S as [b [-> C]].
      exists (quote :: b ++ [quote]). split.
      - simpl. now rewrite <- app_assoc.
      - now constructor. }
    destruct (Ascii.eqb c "{") eqn:O.
    { apply Ascii.eqb_eq in O; subst c. intros H.
      destruct (skip_ws_split s) as [w [Es W]].
      apply object_cases in H as [[r' [E H]]|H].
      - injection H as _ <-. exists ("{"%char :: w ++ ["}"%char]). split.
        + rewrite Es at 1. rewrite E. simpl. now rewrite <- app_assoc.
        + now apply jv_object_empty.
      - symmetry in H. apply IHm in H as [t [E M]].
        exists ("{"%char :: w ++ t). split.
        + rewrite Es at 1. rewrite E. simpl. now rewrite <- app_assoc.
        + now apply jv_object. }
    destruct (Ascii.eqb c "[") eqn:A.
    { apply Ascii.eqb_eq in A; subst c. intros H.
      destruct (skip_ws_split s) as [w [Es W]].
      apply array_cases in H as [[r' [E H]]|H].
      - injection H as _ <-. exists ("["%char :: w ++ ["]"%char]). split.
        + rewrite Es at 1. rewrite E. simpl. now rewrite <- app_assoc.
        + now apply jv_array_empty.
      - symmetry in H. apply IHe in H as [t [E M]].
        exists ("["%char :: w ++ t). split.
        + rewrite Es at 1. rewrite E. simpl. now rewrite <- app_assoc.
        + now apply jv_array. }
    intros H. apply literal_sound in H as [t [E [N|W]]]; exists t;
      (split; [exact E|]); [now apply jv_number | now apply jv_word].
  - (* members *)
    intros s acc j r. cbn [members]. destruct s as [|c s]; [discriminate|].
    destruct (N_of_ascii c =? 34)%N eqn:Q; [|discriminate]. cbn [negb].
    apply N_of_ascii_eqb in Q; [|reflexivity]. subst c.
    destruct (scanstring _ s []) as [[key r1]|] eqn:S; [|discriminate].
    apply scanstring_sound in S as [b [-> C]].
    destruct (skip_ws_split r1) as [w1 [E1 W1]].
    destruct (skip_ws r1) as [|c1 r2]; [discriminate|].
    ascii_cases c1; try discriminate.
    destruct (skip_ws_split r2) as [w2 [E2 W2]].
    destruct (scan_once fuel (skip_ws r2)) as [[v r3]|] eqn:Sv; [|discriminate].
    apply V in Sv as [tv [Ev Jv]].
    destruct (skip_ws_split r3) as [w3 [E3 W3]].
    destruct (skip_ws r3) as [|c3 r4]; [discriminate|].
    ascii_cases c3; try discriminate.
    + (* closing brace *)
      intros H; injection H as _ <-.
      exists (quote :: b ++ quote :: w1 ++ ":"%char :: w2 ++ tv ++ w3
              ++ ["}"%char])%list. split.
      * rewrite E1, E2, Ev, E3. simpl.
        repeat (rewrite <- ?app_assoc; simpl). reflexivity.
      * now apply jm_last.
    + (* comma *)
      intros H. destruct (skip_ws_split r4) as [w4 [E4 W4]].
      apply IHm in H as [tm [Em M]].
      exists (quote :: b ++ quote :: w1 ++ ":"%char :: w2 ++ tv ++ w3
              ++ ","%char :: w4 ++ tm)%list. split.
      * rewrite E1, E2, Ev, E3, E4, Em. simpl.
        repeat (rewrite <- ?app_assoc; simpl). reflexivity.
      * now apply jm_more.
  - (* elements *)
    intros s acc j r. cbn [elements].
    destruct (scan_once fuel s) as [[v r1]|] eqn:Sv; [|discriminate].
    apply V in Sv as [tv [-> Jv]].
    destruct (skip_ws_split r1) as [w1 [E1 W1]].
    destruct (skip_ws r1) as [|c1 r2]; [discriminate|].
    ascii_cases c1; try discriminate.
    + (* closing bracket *)
      intros H; injection H as _ <-.
      exists (tv ++ w1 ++ ["]"%char])%list. split.
      * rewrite E1. repeat (rewrite <- ?app_assoc; simpl). reflexivity.
      * now apply je_last.
    + (* comma *)
      intros H. destruct (skip_ws_split r2) as [w2 [E2 W2]].
      apply IHe in H as [te [Ee E]].
      exists (tv ++ w1 ++ ","%char :: w2 ++ te)%list. split.
      * rewrite E1, E2, Ee. repeat (rewrite <- ?app_assoc; simpl). reflexivity.
      * now apply je_more.
Qed.

Lemma loads_sound (s : string) (j : json) :
  loads s = Return j -> document s.
Proof.
  unfold loads, document.
  destruct (skip_ws_split (list_ascii_of_string s)) as [w1 [E1 W1]].
  destruct (scan_once _ _) as [[j' r]|] eqn:S; [|discriminate].
  destruct (scan_sound (Datatypes.S (List.length (list_ascii_of_string s))))
    as [V _].
  apply V in S as [t [Et J]].
  destruct (skip_ws_split r) as [w2 [E2 W2]].
  destruct (skip_ws r); [|discriminate]. intros _.
  exists w1, t, w2. rewrite app_nil_r in E2. subst r.
  split; [|now repeat split]. now rewrite E1 at 1; rewrite Et.
Qed.

End JsonFacts.

(** ** The encoder *)

Lemma create_packet_TypeError (now : pyfloat) (t : PacketType) (data : value) :
  _create_packet now t data = Raise TypeError.
Proof. reflexivity. Qed.

Lemma size_append (a b : string) : size (a ++ b) = size a + size b.
Proof.
  unfold size. induction a as [|c a IH]; [reflexivity|].
  cbn [String.append String.length]. lia.
Qed.

Lemma append_assoc (a b c : string) : (a ++ b) ++ c = a ++ b ++ c.
Proof.
  induction a as [|x a IH]; [reflexivity|].
  cbn [String.append]. now rewrite IH.
Qed.

Lemma size_nonneg (a : string) : 0 <= size a.
Proof. unfold size. lia. Qed.

(** The text that the encoder returns, and the exception it raises. *)
Lemma create_packet_any_text (now : pyfloat) (packet_type data : value) :
  _create_packet_any now packet_type data
  = match Json.dumps packet_type, Json.dumps data with
    | Return tag, Return payload =>
        Return (envelope_text tag (Json.floatstr now) payload)
    | Raise e, _ => Raise e
    | Return _, Raise e => Raise e
    end.
Proof.
  unfold _create_packet_any, envelope_text. cbn [Json.dumps Json.key_str bind].
  destruct (Json.dumps packet_type) as [tag|e]; cbn [bind]; [|reflexivity].
  destruct (Json.dumps data) as [payload|e]; cbn [bind]; [|reflexivity].
  f_equal. cbn [String.append].
  f_equal. repeat (rewrite ?append_assoc; cbn [String.append]).
  reflexivity.
Qed.

(** ** The host never leaves its state *)

Section HostFacts.

Variable md5_id : address -> string.

Lemma server_body_inert (now : pyfloat) (data : string) (addr : address)
    (self : NetworkManager) :
  self_after (server_body md5_id now data addr self) = self
  /\ sent (server_body md5_id now data addr self) = [].
Proof.
  unfold server_body, bindM, lift; simpl.
  destruct (_parse_packet data) as [packet|e] eqn:E; simpl; [|now split].
  apply parse_packet_json in E as [j ->].
  destruct (getitem (Json.of_json j) "type") as [ty|e] eqn:G; simpl;
    [|now split].
  apply getitem_of_json in G as [j' ->].
  rewrite !of_json_not_member. now split.
Qed.

Lemma server_turn_inert (now : pyfloat) (ev : recv) (self : NetworkManager) :
  fst (server_turn md5_id now ev self) = (self, []).
Proof.
  destruct ev as [data addr|]; simpl; [|reflexivity].
  now destruct (server_body_inert now data addr self) as [-> ->].
Qed.

Lemma server_loop_inert (evs : list (pyfloat * recv)) (self : NetworkManager) :
  _server_loop md5_id evs self = (self, []).
Proof.
  revert self; induction evs as [|[now ev] evs IH]; intros self; simpl;
    [reflexivity|].
  destruct (is_server self); [|reflexivity].
  pose proof (server_turn_inert now ev self) as H.
  destruct (server_turn md5_id now ev self) as [[s1 o1] x]; simpl in H.
  injection H as -> ->. now rewrite IH.
Qed.

End HostFacts.

(** ** The consumer never leaves its registry *)

Lemma handle_network_message_inert (j : Json.json) (self : NetworkManager) :
  self_after (_handle_network_message (Json.of_json j) self) = self.
Proof.
  unfold _handle_network_message, bindM, lift; simpl.
  destruct (getitem (Json.of_json j) "type") as [ty|e] eqn:G; simpl;
    [|reflexivity].
  apply getitem_of_json in G as [j' ->].
  now rewrite !of_json_not_member.
Qed.

Lemma for_each_handle_inert (msgs : list value) (self : NetworkManager) :
  Forall from_wire msgs ->
  self_after (for_each msgs _handle_network_message self) = self.
Proof.
  induction 1 as [|v msgs [data Hv] _ IH]; [reflexivity|].
  apply parse_packet_json in Hv as [j ->].
  cbn [for_each]. unfold bindM.
  rewrite (handle_network_message_inert j self).
  destruct (res _); [exact IH | reflexivity].
Qed.

Lemma client_turn_queue (ev : recv) (self : NetworkManager) :
  Forall from_wire (message_queue self) ->
  Forall from_wire (message_queue (fst (client_turn ev self))).
Proof.
  intros H. destruct ev as [data addr|]; simpl; [|exact H].
  destruct (_parse_packet data) as [packet|e] eqn:E; simpl; [|exact H].
  apply Forall_app; split; [exact H|].
  constructor; [now exists data | constructor].
Qed.

Lemma process_messages_players (self : NetworkManager) :
  Forall from_wire (message_queue self) ->
  players (self_after (process_messages self)) = players self.
Proof.
  intros H. unfold process_messages, get_messages, bindM, get_self, modify, ret.
  simpl. destruct (is_client self || is_server self); simpl; [|reflexivity].
  destruct (res (for_each (message_queue self) _handle_network_message
                    (with_queue [] self))) eqn:R;
    simpl; now rewrite (for_each_handle_inert _ _ H).
Qed.

(** ** The branches of the host, taken by themselves

    The dispatch of [server_body] never selects a branch; what follows is
    what the PLAYER_UPDATE branch does on a manager once it is entered. *)

Lemma key_eqb_str (k : value) (s : string) :
  key_eqb k (VStr s) = true -> k = VStr s.
Proof.
  destruct k; simpl; try discriminate.
  intros H. apply String.eqb_eq in H. now subst.
Qed.

Lemma get_set_str (d : dict) (k k' : string) (v : value) :
  Dict.get (VStr k) (Dict.set (VStr k') v d)
  = if String.eqb k' k then Some v else Dict.get (VStr k) d.
Proof.
  induction d as [|[a w] d IH]; cbn [Dict.set Dict.get].
  - reflexivity.
  - destruct (key_eqb a (VStr k')) eqn:E; cbn [Dict.get].
    + apply key_eqb_str in E; subst a. cbn [key_eqb].
      now destruct (String.eqb k' k).
    + destruct (key_eqb a (VStr k)) eqn:F; [|exact IH].
      apply key_eqb_str in F; subst a. cbn [key_eqb] in E.
      rewrite String.eqb_sym in E. now rewrite E.
Qed.

Lemma get_absent (d : dict) (k : string) :
  ~ In (VStr k) (Dict.keys d) -> Dict.get (VStr k) d = None.
Proof.
  induction d as [|[a w] d IH]; cbn [Dict.get Dict.keys map fst In];
    [reflexivity|].
  intros H. destruct (key_eqb a (VStr k)) eqn:E.
  - apply key_eqb_str in E. tauto.
  - apply IH. tauto.
Qed.

(** [d.update(u)] maps a field of [u] to its value in [u] and any other
    field to its value in [d]. *)
Lemma get_update_str (u d : dict) (k : string) :
  field_map u ->
  Dict.get (VStr k) (Dict.update d u)
  = match Dict.get (VStr k) u with
    | Some v => Some v
    | None => Dict.get (VStr k) d
    end.
Proof.
  unfold Dict.update. revert d.
  induction u as [|[a v] u IH]; intros d [ND ST]; [reflexivity|].
  cbn [Dict.keys map fst] in ND, ST.
  inversion ND as [|? ? Hnotin ND']; subst.
  inversion ST as [|? ? [k' ->] ST']; subst.
  cbn [fold_left fst snd].
  rewrite (IH (Dict.set (VStr k') v d) (conj ND' ST')), get_set_str.
  cbn [Dict.get key_eqb].
  destruct (String.eqb k' k) eqn:E; [|reflexivity].
  apply String.eqb_eq in E; subst k'.
  now rewrite (get_absent u k Hnotin).
Qed.

Example merge_x1y2_x5 :
  Dict.update x1y2 x5 = [(VStr "x", VInt 5); (VStr "y", VInt 2)].
Proof. reflexivity. Qed.

Example merge_x10y20_thrice :
  Dict.update (Dict.update (Dict.update [] x10y20) x10y20) x10y20 = x10y20.
Proof. reflexivity. Qed.

(** The update of a stored snapshot by the field map of the packet. *)
Lemma update_player_dict (player_id : value) (snapshot u : dict)
    (self : NetworkManager) :
  Dict.get player_id (players self) = Some (VDict snapshot) ->
  update_player player_id (Return (VDict u)) self
  = {| res := Return tt;
       self_after :=
         with_players
           (Dict.set player_id (VDict (Dict.update snapshot u)) (players self))
           self;
       sent := [] |}.
Proof.
  intros H. unfold update_player, bindM, get_self, lift, modify; simpl.
  now rewrite H.
Qed.

Lemma for_each_send (l : Clients.t) (data : string) (addr : address)
    (self : NetworkManager) :
  for_each l (fun item =>
    if negb (address_eqb (fst item) addr)
    then sendto data (fst item)
    else ret tt) self
  = {| res := Return tt;
       self_after := self;
       sent := map (fun item => (data, fst item))
                 (filter (fun item => negb (address_eqb (fst item) addr)) l) |}.
Proof.
  induction l as [|item l IH]; [reflexivity|].
  cbn [for_each filter]. unfold bindM.
  destruct (negb (address_eqb (fst item) addr)); simpl; now rewrite IH.
Qed.

(** The broadcast sends the datagram to the addresses of the client map
    other than the sender's, in the order of the map, and changes nothing. *)
Lemma broadcast_sent (data : string) (addr : address) (self : NetworkManager) :
  broadcast data addr self
  = {| res := Return tt;
       self_after := self;
       sent := map (fun item => (data, fst item))
                 (filter (fun item => negb (address_eqb (fst item) addr))
                         (clients self)) |}.
Proof.
  unfold broadcast, bindM, get_self; simpl.
  now rewrite for_each_send.
Qed.

Example broadcast_from_A (md5_id : address -> string) (data : string) :
  sent (broadcast data peer_A
          (registered md5_id [peer_A; peer_B; peer_C] x1y2))
  = [(data, peer_B); (data, peer_C)].
Proof. reflexivity. Qed.

(** The PLAYER_UPDATE branch on a registered sender whose snapshot and
    packet payload are dictionaries: the snapshot is merged and the
    datagram goes to the other clients. *)
Lemma on_player_update_registered (data : string) (addr : address)
    (packet : value) (player_id : string) (snapshot u : dict)
    (self : NetworkManager) :
  Clients.get addr (clients self) = Some player_id ->
  Dict.get (VStr player_id) (players self) = Some (VDict snapshot) ->
  getitem packet "data" = Return (VDict u) ->
  let o := on_player_update data addr packet self in
  res o = Return tt
  /\ players (self_after o)
     = Dict.set (VStr player_id) (VDict (Dict.update snapshot u)) (players self)
  /\ clients (self_after o) = clients self
  /\ sent o = map (fun item => (data, fst item))
                (filter (fun item => negb (address_eqb (fst item) addr))
                        (clients self)).
Proof.
  intros Hc Hp Hd. unfold on_player_update, bindM, get_self.
  cbn [res self_after sent]. rewrite Hc, Hd.
  rewrite (update_player_dict _ _ _ _ Hp). cbn [res self_after sent].
  rewrite broadcast_sent. cbn [res self_after sent with_players players clients app].
  repeat split; reflexivity.
Qed.

(** The PLAYER_UPDATE branch on a sender that is not registered. *)
Lemma on_player_update_unregistered (data : string) (addr : address)
    (packet : value) (self : NetworkManager) :
  Clients.get addr (clients self) = None ->
  on_player_update data addr packet self
  = {| res := Return tt; self_after := self; sent := [] |}.
Proof.
  intros H. unfold on_player_update, bindM, get_self; simpl. now rewrite H.
Qed.

(** The CONNECT branch registers the sender and then fails to build the
    WORLD_STATE reply: nothing is sent. *)
Lemma on_connect_no_reply (md5_id : address -> string) (now : pyfloat)
    (addr : address) (packet d : value) (self : NetworkManager) :
  getitem packet "data" = Return d ->
  let o := on_connect md5_id now addr packet self in
  res o = Raise TypeError
  /\ sent o = []
  /\ clients (self_after o) = Clients.set addr (md5_id addr) (clients self)
  /\ players (self_after o)
     = Dict.set (VStr (md5_id addr)) d (players self).
Proof.
  intros H. unfold on_connect, bindM, modify, lift, get_self; simpl.
  rewrite H; simpl. repeat split; reflexivity.
Qed.

(** ** Dictionaries and client maps *)

Lemma address_eqb_eq (a b : address) : address_eqb a b = true <-> a = b.
Proof.
  destruct a as [h p], b as [h' p']; unfold address_eqb; simpl.
  rewrite andb_true_iff, String.eqb_eq, Z.eqb_eq.
  split; [intros [-> ->]; reflexivity | intros H; injection H; auto].
Qed.

Lemma address_eqb_refl (a : address) : address_eqb a a = true.
Proof. now apply address_eqb_eq. Qed.

Lemma clients_mem_in (a : address) (c : Clients.t) :
  Clients.mem a c = true <-> In a (map fst c).
Proof.
  unfold Clients.mem. induction c as [|[a' id] c IH]; simpl.
  - split; [discriminate | intros []].
  - destruct (address_eqb a' a) eqn:E.
    + apply address_eqb_eq in E. split; auto.
    + rewrite IH. split; [auto | intros [H|H]; [|exact H]].
      apply address_eqb_eq in H. congruence.
Qed.

Lemma distinct_addresses_NoDup (c : Clients.t) :
  distinct_addresses c = true -> NoDup (map fst c).
Proof.
  induction c as [|[a id] c IH]; simpl; [constructor|].
  rewrite andb_true_iff, negb_true_iff. intros [H1 H2].
  constructor; [|auto].
  intros H. apply clients_mem_in in H. congruence.
Qed.

Lemma get_present (d : dict) (k : string) :
  In (VStr k) (Dict.keys d) -> Dict.mem (VStr k) d = true.
Proof.
  unfold Dict.mem.
  induction d as [|[a w] d IH]; cbn [Dict.get Dict.keys map fst In];
    [intros []|].
  intros [H|H].
  - subst a. cbn [key_eqb]. now rewrite String.eqb_refl.
  - destruct (key_eqb a (VStr k)); [reflexivity | exact (IH H)].
Qed.

Lemma get_set_same (d : dict) (k : string) (v : value) :
  Dict.get (VStr k) (Dict.set (VStr k) v d) = Some v.
Proof. now rewrite get_set_str, String.eqb_refl. Qed.

Lemma clients_get_set (a b : address) (id : string) (c : Clients.t) :
  Clients.get b (Clients.set a id c)
  = if address_eqb a b then Some id else Clients.get b c.
Proof.
  induction c as [|[a' id'] c IH]; simpl.
  - reflexivity.
  - destruct (address_eqb a' a) eqn:E; simpl.
    + apply address_eqb_eq in E; subst a'. now destruct (address_eqb a b).
    + destruct (address_eqb a' b) eqn:F; [|exact IH].
      apply address_eqb_eq in F; subst a'.
      destruct (address_eqb a b) eqn:G; [|reflexivity].
      apply address_eqb_eq in G; subst a. now rewrite address_eqb_refl in E.
Qed.

Lemma clients_get_remove (a b : address) (c : Clients.t) :
  distinct_addresses c = true ->
  Clients.get b (Clients.remove a c)
  = if address_eqb a b then None else Clients.get b c.
Proof.
  induction c as [|[a' id'] c IH]; simpl.
  - intros _. now destruct (address_eqb a b).
  - rewrite andb_true_iff, negb_true_iff. intros [M D].
    destruct (address_eqb a' a) eqn:E; simpl.
    + apply address_eqb_eq in E; subst a'.
      destruct (address_eqb a b) eqn:F; [|reflexivity].
      apply address_eqb_eq in F; subst b.
      unfold Clients.mem in M. now destruct (Clients.get a c).
    + rewrite (IH D). destruct (address_eqb a' b) eqn:F; [|reflexivity].
      apply address_eqb_eq in F; subst a'.
      destruct (address_eqb a b) eqn:G; [|reflexivity].
      apply address_eqb_eq in G; subst a. now rewrite address_eqb_refl in E.
Qed.

Lemma dict_get_remove (k k' : string) (d : dict) :
  distinct_keys d = true ->
  Dict.get (VStr k') (Dict.remove (VStr k) d)
  = if String.eqb k k' then None else Dict.get (VStr k') d.
Proof.
  induction d as [|[a w] d IH]; cbn [Dict.remove Dict.get distinct_keys].
  - intros _. now destruct (String.eqb k k').
  - rewrite andb_true_iff, negb_true_iff. intros [M D].
    destruct (key_eqb a (VStr k)) eqn:E.
    + apply key_eqb_str in E; subst a. cbn [key_eqb].
      destruct (String.eqb k k') eqn:F; [|reflexivity].
      apply String.eqb_eq in F; subst k'.
      unfold Dict.mem in M. now destruct (Dict.get (VStr k) d).
    + cbn [Dict.get]. rewrite (IH D).
      destruct (key_eqb a (VStr k')) eqn:F; [|reflexivity].
      apply key_eqb_str in F; subst a. cbn [key_eqb] in E.
      rewrite String.eqb_sym in E. now rewrite E.
Qed.

Lemma key_eqb_str_l (k : value) (s : string) :
  key_eqb (VStr s) k = true -> k = VStr s.
Proof.
  destruct k; simpl; try discriminate.
  intros H. apply String.eqb_eq in H. now subst.
Qed.

Lemma key_eqb_str_sym (k : value) (s : string) :
  key_eqb (VStr s) k = key_eqb k (VStr s).
Proof. destruct k; simpl; try reflexivity. apply String.eqb_sym. Qed.

(** An assignment under another key leaves the entry of a string key. *)
Lemma get_set_other (d : dict) (k v : value) (s : string) :
  key_eqb k (VStr s) = false ->
  Dict.get (VStr s) (Dict.set k v d) = Dict.get (VStr s) d.
Proof.
  intros H. induction d as [|[a w] d IH]; cbn [Dict.set Dict.get].
  - now rewrite H.
  - destruct (key_eqb a k) eqn:E; cbn [Dict.get]; [|now rewrite IH].
    destruct (key_eqb a (VStr s)) eqn:F; [|reflexivity].
    apply key_eqb_str in F; subst a.
    rewrite key_eqb_str_sym in E. congruence.
Qed.

Lemma mem_set_str (d : dict) (k k' : string) (v : value) :
  Dict.mem (VStr k) (Dict.set (VStr k') v d)
  = String.eqb k' k || Dict.mem (VStr k) d.
Proof.
  unfold Dict.mem. rewrite get_set_str. now destruct (String.eqb k' k).
Qed.

Lemma distinct_addresses_set (a : address) (id : string) (c : Clients.t) :
  distinct_addresses c = true ->
  distinct_addresses (Clients.set a id c) = true.
Proof.
  induction c as [|[a' id'] c IH]; [reflexivity|].
  cbn [distinct_addresses Clients.set].
  rewrite andb_true_iff, negb_true_iff. intros [M D].
  destruct (address_eqb a' a) eqn:E; cbn [distinct_addresses].
  - now rewrite M, D.
  - rewrite (IH D), andb_true_r. apply negb_true_iff.
    unfold Clients.mem in *. rewrite clients_get_set.
    destruct (address_eqb a a') eqn:F; [|exact M].
    apply address_eqb_eq in F; subst a'. now rewrite address_eqb_refl in E.
Qed.

Lemma get_set_none (a : value) (k : string) (v : value) (d : dict) :
  Dict.get a d = None -> key_eqb (VStr k) a = false ->
  Dict.get a (Dict.set (VStr k) v d) = None.
Proof.
  intros G E. induction d as [|[b u] d IH]; cbn [Dict.set Dict.get].
  - now rewrite E.
  - cbn [Dict.get] in G. destruct (key_eqb b a) eqn:F; [discriminate|].
    destruct (key_eqb b (VStr k)); cbn [Dict.get]; rewrite F; auto.
Qed.

Lemma distinct_keys_set (k : string) (v : value) (d : dict) :
  distinct_keys d = true -> distinct_keys (Dict.set (VStr k) v d) = true.
Proof.
  induction d as [|[a w] d IH]; [reflexivity|].
  cbn [distinct_keys Dict.set].
  rewrite andb_true_iff, negb_true_iff. intros [M D].
  destruct (key_eqb a (VStr k)) eqn:E; cbn [distinct_keys].
  - now rewrite M, D.
  - rewrite (IH D), andb_true_r. apply negb_true_iff.
    unfold Dict.mem in *. destruct (Dict.get a d) eqn:G; [discriminate|].
    rewrite get_set_none; [reflexivity | exact G |].
    now rewrite key_eqb_str_sym.
Qed.

Lemma distinct_addresses_remove (a : address) (c : Clients.t) :
  distinct_addresses c = true ->
  distinct_addresses (Clients.remove a c) = true.
Proof.
  induction c as [|[a' id'] c IH]; [reflexivity|].
  cbn [distinct_addresses Clients.remove].
  rewrite andb_true_iff, negb_true_iff. intros [M D].
  destruct (address_eqb a' a) eqn:E; [exact D|]. cbn [distinct_addresses].
  rewrite (IH D), andb_true_r. apply negb_true_iff.
  unfold Clients.mem in *. rewrite (clients_get_remove _ _ _ D).
  now destruct (address_eqb a a').
Qed.

Lemma get_remove_none (k : value) (d : dict) (a : value) :
  Dict.get a d = None -> Dict.get a (Dict.remove k d) = None.
Proof.
  induction d as [|[b u] d IH]; [reflexivity|]. cbn [Dict.get Dict.remove].
  destruct (key_eqb b a) eqn:F; [discriminate|]. intros G.
  destruct (key_eqb b k); [exact G|]. cbn [Dict.get]. rewrite F. auto.
Qed.

Lemma distinct_keys_remove (k : value) (d : dict) :
  distinct_keys d = true -> distinct_keys (Dict.remove k d) = true.
Proof.
  induction d as [|[a w] d IH]; [reflexivity|].
  cbn [distinct_keys Dict.remove].
  rewrite andb_true_iff, negb_true_iff. intros [M D].
  destruct (key_eqb a k) eqn:E; [exact D|]. cbn [distinct_keys].
  rewrite (IH D), andb_true_r. apply negb_true_iff.
  unfold Dict.mem in *.
  destruct (Dict.get a d) eqn:G; [discriminate|].
  now rewrite (get_remove_none _ _ _ G).
Qed.

(** What the CONNECT branch leaves, whether the packet has a payload or
    not. *)
Lemma on_connect_state (md5_id : address -> string) (now : pyfloat)
    (addr : address) (packet : value) (self : NetworkManager) :
  let o := on_connect md5_id now addr packet self in
  sent o = []
  /\ clients (self_after o) = Clients.set addr (md5_id addr) (clients self)
  /\ players (self_after o)
     = match getitem packet "data" with
       | Return d => Dict.set (VStr (md5_id addr)) d (players self)
       | Raise _ => players self
       end.
Proof.
  unfold on_connect, bindM, modify, lift, get_self; simpl.
  destruct (getitem packet "data"); simpl; repeat split; reflexivity.
Qed.

(** What the DISCONNECT branch leaves for a registered sender. *)
Lemma on_disconnect_state (addr : address) (player_id : string)
    (self : NetworkManager) :
  Clients.get addr (clients self) = Some player_id ->
  let o := on_disconnect addr self in
  sent o = []
  /\ clients (self_after o) = Clients.remove addr (clients self)
  /\ players (self_after o)
     = (if Dict.mem (VStr player_id) (players self)
        then Dict.remove (VStr player_id) (players self)
        else players self)
  /\ res o = (if Dict.mem (VStr player_id) (players self)
              then Return tt else Raise KeyError).
Proof.
  intros H. unfold on_disconnect, bindM, modify, lift, get_self; simpl.
  rewrite H; simpl.
  destruct (Dict.mem (VStr player_id) (players self)); simpl;
    repeat split; reflexivity.
Qed.

(** ** The registry of the host under the branches *)

Lemma ids_match_iff (self : NetworkManager) :
  ids_match self = true <->
  (forall item, In item (clients self) ->
                Dict.mem (VStr (snd item)) (players self) = true)
  /\ (forall k, In k (Dict.keys (players self)) ->
                exists item, In item (clients self) /\ k = VStr (snd item)).
Proof.
  unfold ids_match. rewrite andb_true_iff, !forallb_forall.
  split; intros [A B]; (split; [exact A|]); intros k Hk.
  - specialize (B k Hk). apply existsb_exists in B as [item [I E]].
    exists item. split; [exact I | now apply key_eqb_str].
  - destruct (B k Hk) as [item [I ->]]. apply existsb_exists.
    exists item. split; [exact I|]. cbn [key_eqb]. apply String.eqb_refl.
Qed.

Lemma mem_keys (k : string) (d : dict) :
  Dict.mem (VStr k) d = true -> In (VStr k) (Dict.keys d).
Proof.
  unfold Dict.mem.
  induction d as [|[a w] d IH]; cbn [Dict.get Dict.keys map fst In];
    [discriminate|].
  destruct (key_eqb a (VStr k)) eqn:E; [|auto].
  apply key_eqb_str in E. now left.
Qed.

Lemma in_clients_set (a : address) (id : string) (c : Clients.t)
    (item : address * string) :
  In item (Clients.set a id c) -> item = (a, id) \/ In item c.
Proof.
  induction c as [|[a' id'] c IH]; cbn [Clients.set In].
  - intros [<-|[]]. now left.
  - destruct (address_eqb a' a) eqn:E; cbn [In].
    + apply address_eqb_eq in E; subst a'. intros [<-|H]; auto.
    + intros [<-|H]; auto. destruct (IH H); auto.
Qed.

Lemma clients_set_in (a : address) (id : string) (c : Clients.t) :
  In (a, id) (Clients.set a id c).
Proof.
  induction c as [|[a' id'] c IH]; cbn [Clients.set In]; [now left|].
  destruct (address_eqb a' a) eqn:E; cbn [In]; [|now right].
  apply address_eqb_eq in E; subst a'. now left.
Qed.

Lemma clients_set_keeps (a : address) (id : string) (c : Clients.t)
    (item : address * string) :
  In item c -> address_eqb (fst item) a = false ->
  In item (Clients.set a id c).
Proof.
  induction c as [|[a' id'] c IH]; cbn [Clients.set In]; [intros []|].
  intros [<-|H] E.
  - cbn [fst] in E. rewrite E. now left.
  - destruct (address_eqb a' a); right; auto.
Qed.

Lemma in_clients_remove (a : address) (c : Clients.t)
    (item : address * string) :
  distinct_addresses c = true ->
  In item (Clients.remove a c) ->
  In item c /\ address_eqb (fst item) a = false.
Proof.
  induction c as [|[a' id'] c IH]; cbn [Clients.remove In distinct_addresses];
    [intros _ []|].
  rewrite andb_true_iff, negb_true_iff. intros [M D].
  destruct (address_eqb a' a) eqn:E; cbn [In].
  - apply address_eqb_eq in E; subst a'. intros H. split; [now right|].
    destruct (address_eqb (fst item) a) eqn:F; [|reflexivity].
    apply address_eqb_eq in F; subst a.
    assert (Clients.mem (fst item) c = true)
      by (apply clients_mem_in, in_map, H).
    congruence.
  - intros [<-|H]; [split; [now left | exact E]|].
    destruct (IH D H). split; [now right | assumption].
Qed.

Lemma clients_remove_keeps (a : address) (c : Clients.t)
    (item : address * string) :
  In item c -> address_eqb (fst item) a = false ->
  In item (Clients.remove a c).
Proof.
  induction c as [|[a' id'] c IH]; cbn [Clients.remove In]; [intros []|].
  intros [<-|H] E.
  - cbn [fst] in E. rewrite E. now left.
  - destruct (address_eqb a' a); [exact H | right; auto].
Qed.

Lemma clients_get_in (a : address) (id : string) (c : Clients.t) :
  distinct_addresses c = true ->
  In (a, id) c -> Clients.get a c = Some id.
Proof.
  induction c as [|[a' id'] c IH]; cbn [Clients.get In distinct_addresses];
    [intros _ []|].
  rewrite andb_true_iff, negb_true_iff. intros [M D] [H|H].
  - injection H as -> ->. now rewrite address_eqb_refl.
  - destruct (address_eqb a' a) eqn:E; [|auto].
    apply address_eqb_eq in E; subst a'.
    assert (Clients.mem a c = true)
      by (apply clients_mem_in; exact (in_map fst _ _ H)).
    congruence.
Qed.

Lemma in_keys_set (k0 k v : value) (d : dict) :
  In k (Dict.keys (Dict.set k0 v d)) -> In k (Dict.keys d) \/ k = k0.
Proof.
  unfold Dict.keys.
  induction d as [|[a w] d IH]; cbn [Dict.set map fst In].
  - intros [<-|[]]. now right.
  - destruct (key_eqb a k0); cbn [map fst In]; [tauto|].
    intros [H|H]; [tauto|]. destruct (IH H); tauto.
Qed.

Lemma in_keys_remove (k : string) (a : value) (d : dict) :
  distinct_keys d = true ->
  In a (Dict.keys (Dict.remove (VStr k) d)) ->
  In a (Dict.keys d) /\ a <> VStr k.
Proof.
  unfold Dict.keys.
  induction d as [|[b w] d IH]; cbn [Dict.remove map fst In distinct_keys];
    [intros _ []|].
  rewrite andb_true_iff, negb_true_iff. intros [M D].
  destruct (key_eqb b (VStr k)) eqn:E; cbn [map fst In].
  - apply key_eqb_str in E; subst b. intros H. split; [now right|].
    intros ->. apply get_present in H. congruence.
  - intros [<-|H].
    + split; [now left|]. intros ->. cbn [key_eqb] in E.
      now rewrite String.eqb_refl in E.
    + destruct (IH D H). split; [now right | assumption].
Qed.

Lemma derived_set (md5_id : address -> string) (a : address) (c : Clients.t) :
  derived md5_id c = true -> derived md5_id (Clients.set a (md5_id a) c) = true.
Proof.
  unfold derived. rewrite !forallb_forall. intros H item I.
  apply in_clients_set in I as [->|I]; [apply String.eqb_refl | auto].
Qed.

Lemma derived_remove (md5_id : address -> string) (a : address)
    (c : Clients.t) :
  derived md5_id c = true -> derived md5_id (Clients.remove a c) = true.
Proof.
  unfold derived. rewrite !forallb_forall. intros H item I. apply H.
  revert I. clear. induction c as [|[a' id'] c IH]; cbn [Clients.remove In];
    [auto|].
  destruct (address_eqb a' a); cbn [In]; tauto.
Qed.

Lemma self_after_bind {A B : Type} (m : M A) (k : A -> M B)
    (self : NetworkManager) :
  self_after (bindM m k self)
  = match res (m self) with
    | Return a => self_after (k a (self_after (m self)))
    | Raise _ => self_after (m self)
    end.
Proof. unfold bindM. now destruct (res (m self)). Qed.

(** The PLAYER_UPDATE branch leaves the client map, and the registry with
    the keys it had. *)
Lemma on_player_update_keys (data : string) (addr : address) (packet : value)
    (self : NetworkManager) :
  let o := on_player_update data addr packet self in
  clients (self_after o) = clients self
  /\ (players (self_after o) = players self
      \/ exists (player_id : string) (v : value),
           Dict.mem (VStr player_id) (players self) = true
           /\ players (self_after o)
              = Dict.set (VStr player_id) v (players self)).
Proof.
  intros o.
  assert (E : self_after o
              = match Clients.get addr (clients self) with
                | Some player_id =>
                    self_after
                      ((update_player (VStr player_id) (getitem packet "data") ;;;
                        broadcast data addr) self)
                | None => self
                end).
  { subst o. unfold on_player_update. unfold bindM at 1. unfold get_self.
    cbn [res self_after sent].
    now destruct (Clients.get addr (clients self)). }
  rewrite E. clear E o.
  destruct (Clients.get addr (clients self)) as [player_id|];
    [|split; [reflexivity | now left]].
  rewrite self_after_bind.
  assert (U : clients (self_after (update_player (VStr player_id)
                                     (getitem packet "data") self))
              = clients self
              /\ (players (self_after (update_player (VStr player_id)
                                         (getitem packet "data") self))
                  = players self
                  \/ exists v,
                       Dict.mem (VStr player_id) (players self) = true
                       /\ players (self_after (update_player (VStr player_id)
                                                 (getitem packet "data") self))
                          = Dict.set (VStr player_id) v (players self))).
  { unfold update_player, bindM, get_self, lift, modify, Dict.mem.
    cbn [res self_after sent].
    destruct (Dict.get (VStr player_id) (players self)) as [[]|];
      cbn [res self_after sent]; try (split; [reflexivity | now left]).
    destruct (getitem packet "data") as [a|e]; cbn [res self_after sent];
      [|split; [reflexivity | now left]].
    destruct (update_method d a) as [snapshot' r]. cbn [res self_after sent].
    destruct r; cbn [res self_after sent with_players clients players];
      (split; [reflexivity | right; eexists; split; reflexivity]). }
  destruct U as [Uc Up].
  destruct (res (update_player _ _ self)).
  - rewrite broadcast_sent. cbn [self_after]. split; [exact Uc|].
    destruct Up as [Up|[v [M Up]]]; [now left | right; now exists player_id, v].
  - split; [exact Uc|].
    destruct Up as [Up|[v [M Up]]]; [now left | right; now exists player_id, v].
Qed.

Lemma keys_set_present (k : string) (v : value) (d : dict) :
  Dict.mem (VStr k) d = true ->
  Dict.keys (Dict.set (VStr k) v d) = Dict.keys d.
Proof.
  unfold Dict.mem, Dict.keys.
  induction d as [|[a w] d IH]; cbn [Dict.get Dict.set map fst];
    [discriminate|].
  destruct (key_eqb a (VStr k)); cbn [map fst]; [reflexivity|].
  intros H. now rewrite (IH H).
Qed.


Lemma clients_get_some_in (a : address) (id : string) (c : Clients.t) :
  Clients.get a c = Some id -> In (a, id) c.
Proof.
  induction c as [|[a' id'] c IH]; cbn [Clients.get In]; [discriminate|].
  destruct (address_eqb a' a) eqn:E; [|auto].
  apply address_eqb_eq in E; subst a'. intros H; injection H as ->. now left.
Qed.

Lemma host_inv_iff (md5_id : address -> string) (self : NetworkManager) :
  host_inv md5_id self = true <->
  ids_match self = true
  /\ distinct_addresses (clients self) = true
  /\ distinct_keys (players self) = true
  /\ derived md5_id (clients self) = true.
Proof. unfold host_inv. rewrite !andb_true_iff. tauto. Qed.

Lemma derived_in (md5_id : address -> string) (c : Clients.t)
    (item : address * string) :
  derived md5_id c = true -> In item c -> snd item = md5_id (fst item).
Proof.
  unfold derived. rewrite forallb_forall. intros H I.
  now apply String.eqb_eq, H.
Qed.

Lemma on_connect_inv (md5_id : address -> string) (now : pyfloat)
    (addr : address) (packet d : value) (self : NetworkManager) :
  host_inv md5_id self = true ->
  getitem packet "data" = Return d ->
  host_inv md5_id (self_after (on_connect md5_id now addr packet self)) = true.
Proof.
  rewrite !host_inv_iff. intros [I [Dc [Dk Dv]]] Hd.
  destruct (on_connect_state md5_id now addr packet self) as [_ [Ec Ep]].
  rewrite Hd in Ep. rewrite Ec, Ep.
  split; [|split; [now apply distinct_addresses_set
                  |split; [now apply distinct_keys_set
                          |now apply derived_set]]].
  apply ids_match_iff in I as [A B]. apply ids_match_iff. rewrite Ec, Ep.
  split.
  - intros item H. rewrite mem_set_str.
    apply in_clients_set in H as [->|H]; cbn [snd].
    + now rewrite String.eqb_refl.
    + rewrite (A item H). apply orb_true_r.
  - intros k H. apply in_keys_set in H as [H| ->].
    + destruct (B k H) as [item [Hi ->]].
      destruct (address_eqb (fst item) addr) eqn:E.
      * apply address_eqb_eq in E. exists (addr, md5_id addr).
        split; [apply clients_set_in|]. cbn [snd].
        now rewrite (derived_in _ _ _ Dv Hi), E.
      * exists item. split; [now apply clients_set_keeps | reflexivity].
    + exists (addr, md5_id addr). split; [apply clients_set_in | reflexivity].
Qed.

Lemma on_player_update_inv (md5_id : address -> string) (data : string)
    (addr : address) (packet : value) (self : NetworkManager) :
  host_inv md5_id self = true ->
  host_inv md5_id (self_after (on_player_update data addr packet self)) = true.
Proof.
  rewrite !host_inv_iff. intros [I [Dc [Dk Dv]]].
  destruct (on_player_update_keys data addr packet self) as [Ec Ep].
  rewrite Ec.
  destruct Ep as [Ep|[player_id [v [M Ep]]]].
  - rewrite Ep. repeat split; try assumption.
    apply ids_match_iff in I. apply ids_match_iff. now rewrite Ec, Ep.
  - rewrite Ep.
    split; [|split; [exact Dc | split; [now apply distinct_keys_set
                                       | exact Dv]]].
    apply ids_match_iff in I as [A B]. apply ids_match_iff. rewrite Ec, Ep.
    split.
    + intros item H. rewrite mem_set_str, (A item H). apply orb_true_r.
    + rewrite (keys_set_present _ _ _ M). exact B.
Qed.

Lemma on_disconnect_inv (md5_id : address -> string) (addr : address)
    (self : NetworkManager) :
  host_inv md5_id self = true ->
  injective_at md5_id addr (clients self) = true ->
  host_inv md5_id (self_after (on_disconnect addr self)) = true
  /\ res (on_disconnect addr self) = Return tt.
Proof.
  intros Hinv Hinj.
  destruct (Clients.get addr (clients self)) as [player_id|] eqn:G.
  2:{ unfold on_disconnect, bindM, get_self; simpl. rewrite G. now split. }
  destruct (on_disconnect_state addr player_id self G) as [_ [Ec [Ep Er]]].
  apply host_inv_iff in Hinv as [I [Dc [Dk Dv]]].
  apply ids_match_iff in I as [A B].
  pose proof (clients_get_some_in _ _ _ G) as Gin.
  pose proof (A _ Gin) as M. cbn [snd] in M. rewrite M in Ep, Er.
  split; [|exact Er].
  apply host_inv_iff. rewrite Ec, Ep.
  split; [|split; [now apply distinct_addresses_remove
                  |split; [now apply distinct_keys_remove
                          |now apply derived_remove]]].
  apply ids_match_iff. rewrite Ec, Ep.
  pose proof (derived_in _ _ _ Dv Gin) as Ep0. cbn [fst snd] in Ep0.
  unfold injective_at in Hinj. rewrite forallb_forall in Hinj.
  split.
  - intros item H. apply (in_clients_remove _ _ _ Dc) in H as [H E].
    unfold Dict.mem. rewrite (dict_get_remove _ _ _ Dk).
    destruct (String.eqb player_id (snd item)) eqn:F; [|exact (A item H)].
    apply String.eqb_eq in F. specialize (Hinj item H).
    rewrite E in Hinj.
    rewrite <- (derived_in _ _ _ Dv H), <- F, Ep0, String.eqb_refl in Hinj.
    discriminate Hinj.
  - intros k H. apply (in_keys_remove _ _ _ Dk) in H as [H N].
    destruct (B k H) as [item [Hi ->]]. exists item.
    split; [|reflexivity]. apply clients_remove_keeps; [exact Hi|].
    destruct (address_eqb (fst item) addr) eqn:E; [|reflexivity].
    apply address_eqb_eq in E. exfalso. apply N. f_equal.
    destruct item as [a id]; cbn [fst snd] in *. subst a.
    pose proof (clients_get_in _ _ _ Dc Hi). congruence.
Qed.

(** ** The registry of the consumer under a message *)

Lemma update_player_other (k : value) (arg : result value) (me : string)
    (self : NetworkManager) :
  key_eqb k (VStr me) = false ->
  Dict.get (VStr me) (players (self_after (update_player k arg self)))
  = Dict.get (VStr me) (players self).
Proof.
  intros H. unfold update_player, bindM, get_self, lift, modify; simpl.
  destruct (Dict.get k (players self)) as [[]|]; simpl; try reflexivity.
  destruct arg as [a|e]; simpl; [|reflexivity].
  destruct (update_method d a) as [snapshot' r]; simpl.
  destruct r; simpl; now rewrite get_set_other.
Qed.

Lemma merge_world_entry_other (item : value * value) (me : string)
    (self : NetworkManager) :
  key_eqb (fst item) (VStr me) = false ->
  Dict.get (VStr me) (players (self_after (merge_world_entry item self)))
  = Dict.get (VStr me) (players self).
Proof.
  destruct item as [k v]; cbn [fst]. intros H.
  unfold merge_world_entry. unfold bindM at 1. unfold get_self.
  cbn [res self_after sent].
  destruct (negb (Dict.mem k (players self))).
  - unfold modify; cbn [self_after with_players players].
    now apply get_set_other.
  - destruct (res (update_player k (Return v) self)) eqn:R;
      cbn [self_after]; now apply update_player_other.
Qed.

Lemma for_each_merge_other (its : dict) (me : string) (self : NetworkManager) :
  Dict.mem (VStr me) its = false ->
  Dict.get (VStr me)
    (players (self_after (for_each its merge_world_entry self)))
  = Dict.get (VStr me) (players self).
Proof.
  unfold Dict.mem. revert self.
  induction its as [|[k v] its IH]; intros self H; [reflexivity|].
  cbn [Dict.get] in H. destruct (key_eqb k (VStr me)) eqn:E; [discriminate|].
  cbn [for_each]. unfold bindM.
  destruct (res (merge_world_entry (k, v) self)); cbn [self_after].
  - rewrite (IH _ H). now apply merge_world_entry_other.
  - now apply merge_world_entry_other.
Qed.

(** ** Codec *)

Example parse_update_x5 :
  _parse_packet update_x5
  = Return (VDict [(VStr "type", VInt 3);
                   (VStr "timestamp", VFloat (FDec false 135 (-1)));
                   (VStr "data", VDict x5)]).
Proof. vm_compute. reflexivity. Qed.

Example parse_not_utf8 :
  _parse_packet (String (ascii_of_N 255) "{}") = Raise UnicodeDecodeError.
Proof. vm_compute. reflexivity. Qed.

Example parse_truncated :
  _parse_packet truncated_update = Raise JSONDecodeError.
Proof. vm_compute. reflexivity. Qed.

(** Numbers are read as [float] reads them: rounded to the nearest
    binary64 number, to infinity beyond the largest and to zero below the
    smallest. *)
Example parse_float_rounded :
  _parse_packet "0.10000000000000000001" = Return (VFloat (FDec false 1 (-1)))
  /\ _parse_packet "9007199254740993.0"
     = Return (VFloat (FDec false 9007199254740992 0))
  /\ _parse_packet "1e400" = Return (VFloat (FInf false))
  /\ _parse_packet "-1e-400" = Return (VFloat (FDec true 0 0))
  /\ truthy (VFloat (FDec true 0 0)) = false.
Proof. repeat split; vm_compute; reflexivity. Qed.

(** An integer of 4300 digits is read, one of 4301 digits is not. *)
Example parse_int_limit :
  raises (_parse_packet (String "1" (Text.zeros 4299))) = false
  /\ raises (_parse_packet (String "1" (Text.zeros 4300))) = true.
Proof. split; vm_compute; reflexivity. Qed.

Example parse_unknown_tag :
  _parse_packet (dq "{'type': 99, 'timestamp': 1, 'data': null}")
  = Return (VDict [(VStr "type", VInt 99); (VStr "timestamp", VInt 1);
                   (VStr "data", VNone)]).
Proof. vm_compute. reflexivity. Qed.

(** The serializer by itself has no bound on the size of its result. *)
Example dumps_beyond_packet_size :
  exists text,
    Json.dumps (VDict [(VStr "type", VInt 3);
                       (VStr "timestamp", VFloat (FDec false 135 (-1)));
                       (VStr "data", VStr (Text.zeros 1100))]) = Return text
    /\ PACKET_SIZE < size text.
Proof. eexists. split; vm_compute; reflexivity. Qed.

(** C1: the round trip decode(encode(E)) = E does not hold of the code,
    because encoding never succeeds: for every type tag, clock reading and
    payload, [_create_packet] raises [TypeError] on the enumeration member
    it puts under ['type'], so that nothing is left to decode; the first
    packet of [connect_client] is such a case. *)
Theorem C1_create_packet_raises :
  forall (now : pyfloat) (t : PacketType) (data : value),
    _create_packet now t data = Raise TypeError
    /\ (bytes <- _create_packet now t data ;; _parse_packet bytes)
       = Raise TypeError
    /\ (forall (host : string) (port : Z),
          res (connect_client now host port init) = Raise TypeError
          /\ sent (connect_client now host port init) = []).
Proof.
  intros now t data. rewrite create_packet_TypeError.
  repeat split; reflexivity.
Qed.




(** C3, as stated: every envelope whose serialized payload is larger than
    [PACKET_SIZE] makes the encoder fail.  The envelope of type 3 with a
    payload of 1100 zeros refutes it: it is encoded, in full. *)
Lemma C3_counterexample :
  ~ (forall (now : pyfloat) (packet_type data : value) (payload : string),
       Json.dumps data = Return payload ->
       PACKET_SIZE < size payload ->
       raises (_create_packet_any now packet_type data) = true).
Proof.
  intros H.
  specialize (H (FDec false 135 (-1)) (VInt 3) (VStr (Text.zeros 1100))
                (Json.encode_str (Text.zeros 1100))).
  assert (E : raises (_create_packet_any (FDec false 135 (-1)) (VInt 3)
                        (VStr (Text.zeros 1100))) = false)
    by (vm_compute; reflexivity).
  rewrite H in E; [discriminate E | vm_compute; reflexivity
                   | vm_compute; reflexivity].
Qed.

(** C3, amended: the encoder has no bound on size.  For an envelope whose
    payload is serialized to more than [PACKET_SIZE] bytes,
    [_create_packet] returns the whole JSON text of the envelope, which is
    larger than [PACKET_SIZE] as well, when [json.dumps] has an encoding
    for the type, and raises what [json.dumps] raises when it has none;
    whether it raises does not depend on the payload, whatever its size,
    as long as the payload can be serialized. *)
Theorem C3_no_size_bound :
  forall (now : pyfloat) (packet_type data : value) (payload : string),
    Json.dumps data = Return payload ->
    PACKET_SIZE < size payload ->
    match Json.dumps packet_type with
    | Return tag =>
        _create_packet_any now packet_type data
        = Return (envelope_text tag (Json.floatstr now) payload)
        /\ PACKET_SIZE < size (envelope_text tag (Json.floatstr now) payload)
    | Raise e => _create_packet_any now packet_type data = Raise e
    end
    /\ (forall (data' : value) (payload' : string),
          Json.dumps data' = Return payload' ->
          raises (_create_packet_any now packet_type data')
          = raises (_create_packet_any now packet_type data))
    /\ (forall t : PacketType,
          _create_packet now t data
          = _create_packet_any now (VEnum t) data).
Proof.
  intros now packet_type data payload Hd Hs.
  rewrite create_packet_any_text, Hd. split; [|split].
  - destruct (Json.dumps packet_type) as [tag|e]; [|reflexivity].
    split; [reflexivity|]. unfold envelope_text.
    repeat rewrite size_append.
    pose proof (size_nonneg tag). pose proof (size_nonneg (Json.floatstr now)).
    pose proof (size_nonneg (Json.encode_str "type")).
    pose proof (size_nonneg (Json.encode_str "timestamp")).
    pose proof (size_nonneg (Json.encode_str "data")).
    pose proof (size_nonneg "{"). pose proof (size_nonneg ": ").
    pose proof (size_nonneg ", "). pose proof (size_nonneg "}"). lia.
  - intros data' payload' Hd'. rewrite create_packet_any_text, Hd'.
    now destruct (Json.dumps packet_type).
  - reflexivity.
Qed.

Lemma C3_no_size_bound_witness :
  PACKET_SIZE < size (Json.encode_str (Text.zeros 1100))
  /\ _create_packet_any (FDec false 135 (-1)) (VInt 3) (VStr (Text.zeros 1100))
     = Return (envelope_text "3" "13.5" (Json.encode_str (Text.zeros 1100))).
Proof.
  split; [vm_compute; reflexivity|].
  refine (proj1 (proj1 (C3_no_size_bound (FDec false 135 (-1)) (VInt 3)
           (VStr (Text.zeros 1100)) (Json.encode_str (Text.zeros 1100)) _ _))).
  - vm_compute. reflexivity.
  - vm_compute. reflexivity.
Defined.

(** ** Relay host *)

Section HostClaims.

Variable md5_id : address -> string.

(** A datagram that carries a type number is handled without any
    exception, and without any effect. *)
Lemma server_turn_carries (t : PacketType) (now : pyfloat) (data : string)
    (addr : address) (self : NetworkManager) :
  carries t data = true ->
  server_turn md5_id now (Received data addr) self = (self, [], None).
Proof.
  unfold carries, server_turn, server_body, bindM, lift; simpl.
  destruct (_parse_packet data) as [packet|e]; [|discriminate]; simpl.
  destruct (getitem packet "type") as [[]|e]; try discriminate; simpl.
  reflexivity.
Qed.

End HostClaims.

(** C4: the merge of a PLAYER_UPDATE into the stored snapshot does not
    happen.  With peer A registered under the snapshot [{x:1, y:2}], no
    datagram from A changes the manager, and the update [{x:5}] from A
    leaves the snapshot [{x:1, y:2}]; from a new host, the CONNECT of A
    with [{x:1, y:2}] followed by that update leaves the host with no
    snapshot at all. *)
Theorem C4_update_not_merged :
  forall (md5_id : address -> string) (now : pyfloat),
    carries PLAYER_UPDATE update_x5 = true
    /\ (forall data : string,
          fst (server_turn md5_id now (Received data peer_A)
                 (registered md5_id [peer_A] x1y2))
          = (registered md5_id [peer_A] x1y2, []))
    /\ Dict.get (VStr (md5_id peer_A))
         (players (fst (fst (server_turn md5_id now
                               (Received update_x5 peer_A)
                               (registered md5_id [peer_A] x1y2)))))
       = Some (VDict x1y2)
    /\ _server_loop md5_id
         [(now, Received connect_x1y2 peer_A);
          (now, Received update_x5 peer_A)] (start_server init)
       = (start_server init, []).
Proof.
  intros md5_id now. split; [vm_compute; reflexivity|].
  split; [intros data; apply server_turn_inert|]. split.
  - rewrite (server_turn_carries md5_id PLAYER_UPDATE) by (vm_compute; reflexivity).
    cbn [fst registered players map Dict.get].
    unfold key_eqb. now rewrite String.eqb_refl.
  - apply server_loop_inert.
Qed.

(** C5: an update from A is forwarded to nobody.  With A, B and C
    registered, the host sends nothing on any datagram from A; and from a
    new host, the CONNECT of A, B and C followed by an update from A
    produces no datagram at all. *)
Theorem C5_update_not_forwarded :
  forall (md5_id : address -> string) (now : pyfloat),
    (forall data : string,
       snd (fst (server_turn md5_id now (Received data peer_A)
                   (registered md5_id [peer_A; peer_B; peer_C] x1y2))) = [])
    /\ carries PLAYER_UPDATE update_x5 = true
    /\ snd (_server_loop md5_id
              [(now, Received connect_player peer_A);
               (now, Received connect_player peer_B);
               (now, Received connect_player peer_C);
               (now, Received update_x5 peer_A)] (start_server init)) = [].
Proof.
  intros md5_id now. split; [|split].
  - intros data. now rewrite server_turn_inert.
  - vm_compute. reflexivity.
  - now rewrite server_loop_inert.
Qed.

(** C6: a PLAYER_UPDATE from an address with no registered identity is
    dropped: the manager, hence the player registry and the client map, is
    unchanged, nothing is sent, and no exception is reported. *)
Theorem C6_unregistered_update_dropped :
  forall (md5_id : address -> string) (now : pyfloat) (data : string)
         (addr : address) (self : NetworkManager),
    Clients.get addr (clients self) = None ->
    carries PLAYER_UPDATE data = true ->
    server_turn md5_id now (Received data addr) self = (self, [], None).
Proof.
  intros md5_id now data addr self _ H.
  exact (server_turn_carries md5_id PLAYER_UPDATE now data addr self H).
Qed.

Lemma C6_unregistered_update_dropped_witness :
  server_turn fst (FDec false 135 (-1)) (Received update_x5 peer_A)
    (start_server init)
  = (start_server init, [], None).
Proof.
  apply (C6_unregistered_update_dropped fst (FDec false 135 (-1)) update_x5
           peer_A (start_server init)).
  - reflexivity.
  - vm_compute. reflexivity.
Defined.

(** C7: on every manager, the CONNECT branch run for an address and then
    the DISCONNECT branch run for the same address leave that address out
    of the client map and its identity out of the player registry, the other
    addresses and identities being as they were before the two; a
    DISCONNECT from an address that is not registered leaves the manager
    as it was, with nothing sent and no exception, in the branch and in the
    turn of the loop; and in every run of the loop of a new host, after a
    CONNECT datagram and a DISCONNECT datagram from one address, the
    address and its identity are absent. *)
Theorem C7_connect_then_disconnect :
  forall (md5_id : address -> string) (self : NetworkManager)
         (addr : address),
    distinct_addresses (clients self) = true ->
    distinct_keys (players self) = true ->
    (forall (now : pyfloat) (packet : value),
       let s1 := self_after (on_connect md5_id now addr packet self) in
       let o := on_disconnect addr s1 in
       Clients.get addr (clients s1) = Some (md5_id addr)
       /\ Clients.get addr (clients (self_after o)) = None
       /\ Dict.get (VStr (md5_id addr)) (players (self_after o)) = None
       /\ (forall other : address,
             address_eqb addr other = false ->
             Clients.get other (clients (self_after o))
             = Clients.get other (clients self))
       /\ (forall other : string,
             String.eqb (md5_id addr) other = false ->
             Dict.get (VStr other) (players (self_after o))
             = Dict.get (VStr other) (players self))
       /\ sent o = [])
    /\ (Clients.get addr (clients self) = None ->
        on_disconnect addr self
        = {| res := Return tt; self_after := self; sent := [] |})
    /\ (forall (now : pyfloat) (d : string),
          carries DISCONNECT d = true ->
          Clients.get addr (clients self) = None ->
          server_turn md5_id now (Received d addr) self = (self, [], None))
    /\ (forall (evs : list (pyfloat * recv)) (now1 now2 : pyfloat)
               (c d : string),
          carries CONNECT c = true ->
          carries DISCONNECT d = true ->
          let s0 := fst (_server_loop md5_id evs (start_server init)) in
          let s1 := fst (fst (server_turn md5_id now1 (Received c addr) s0)) in
          let s2 := fst (fst (server_turn md5_id now2 (Received d addr) s1)) in
          Clients.get addr (clients s2) = None
          /\ Dict.get (VStr (md5_id addr)) (players s2) = None).
Proof.
  intros md5_id self addr Dc Dk. split; [|split; [|split]].
  - intros now packet s1 o.
    destruct (on_connect_state md5_id now addr packet self) as [_ [Ec Ep]].
    fold s1 in Ec, Ep.
    assert (G : Clients.get addr (clients s1) = Some (md5_id addr))
      by (now rewrite Ec, clients_get_set, address_eqb_refl).
    destruct (on_disconnect_state addr _ s1 G) as [Es [Fc [Fp _]]].
    fold o in Es, Fc, Fp.
    assert (Dc1 : distinct_addresses (clients s1) = true)
      by (rewrite Ec; now apply distinct_addresses_set).
    assert (Dk1 : distinct_keys (players s1) = true)
      by (rewrite Ep; destruct (getitem packet "data");
          [now apply distinct_keys_set | exact Dk]).
    split; [exact G|]. split; [|split; [|split; [|split]]].
    + now rewrite Fc, (clients_get_remove _ _ _ Dc1), address_eqb_refl.
    + rewrite Fp. unfold Dict.mem.
      destruct (Dict.get (VStr (md5_id addr)) (players s1)) eqn:M;
        [|exact M].
      now rewrite (dict_get_remove _ _ _ Dk1), String.eqb_refl.
    + intros other H.
      now rewrite Fc, (clients_get_remove _ _ _ Dc1), H, Ec, clients_get_set, H.
    + intros other H.
      assert (P1 : Dict.get (VStr other) (players s1)
                   = Dict.get (VStr other) (players self)).
      { rewrite Ep. destruct (getitem packet "data"); [|reflexivity].
        now rewrite get_set_str, H. }
      rewrite Fp. destruct (Dict.mem _ _); [|exact P1].
      now rewrite (dict_get_remove _ _ _ Dk1), H.
    + exact Es.
  - intros H. unfold on_disconnect, bindM, get_self; simpl. now rewrite H.
  - intros now d Hd _. 
    exact (server_turn_carries md5_id DISCONNECT now d addr self Hd).
  - intros evs now1 now2 c d Hc Hd. cbv zeta.
    rewrite server_loop_inert.
    rewrite (server_turn_carries md5_id CONNECT _ _ _ _ Hc).
    rewrite (server_turn_carries md5_id DISCONNECT _ _ _ _ Hd).
    now split.
Qed.

Lemma C7_connect_then_disconnect_witness :
  let s1 := self_after (on_connect fst (FDec false 125 (-1)) peer_A
                          (VDict [(VStr "type", VInt 1);
                                  (VStr "data", VDict x5)])
                          (registered fst [peer_A; peer_B] x1y2)) in
  Clients.get peer_A (clients s1) = Some "10.0.0.1"
  /\ Clients.get peer_A (clients (self_after (on_disconnect peer_A s1))) = None.
Proof.
  intros s1.
  pose proof (proj1 (C7_connect_then_disconnect fst
                (registered fst [peer_A; peer_B] x1y2) peer_A
                eq_refl eq_refl)
                (FDec false 125 (-1))
                (VDict [(VStr "type", VInt 1); (VStr "data", VDict x5)]))
    as H.
  split; [exact (proj1 H) | exact (proj1 (proj2 H))].
Defined.

(** C8: three PLAYER_UPDATE messages [{x:10, y:20}] in a row from a
    connected peer do not leave the snapshot [{x:10, y:20}]: after the
    CONNECT of A and the three updates the host holds no snapshot for A,
    and a snapshot already stored for A is left as it was. *)
Theorem C8_three_updates_no_snapshot :
  forall (md5_id : address -> string) (now : pyfloat),
    let upd := (now, Received update_x10y20 peer_A) in
    carries PLAYER_UPDATE update_x10y20 = true
    /\ Dict.get (VStr (md5_id peer_A))
         (players (fst (_server_loop md5_id
                          [(now, Received connect_empty peer_A); upd; upd; upd]
                          (start_server init)))) = None
    /\ Dict.get (VStr (md5_id peer_A))
         (players (fst (_server_loop md5_id [upd; upd; upd]
                          (registered md5_id [peer_A] x1y2))))
       = Some (VDict x1y2).
Proof.
  intros md5_id now upd. split; [vm_compute; reflexivity|].
  rewrite !server_loop_inert. split; [reflexivity|].
  cbn [fst registered players map Dict.get].
  unfold key_eqb. now rewrite String.eqb_refl.
Qed.




(** ** Consumer *)

Lemma client_turn_players (ev : recv) (self : NetworkManager) :
  players (fst (client_turn ev self)) = players self.
Proof.
  destruct ev as [data addr|]; simpl; [|reflexivity].
  now destruct (_parse_packet data).
Qed.

Lemma client_loop_inv (evs : list recv) (self : NetworkManager) :
  Forall from_wire (message_queue self) ->
  Forall from_wire (message_queue (_client_loop evs self))
  /\ players (_client_loop evs self) = players self.
Proof.
  revert self; induction evs as [|ev evs IH]; intros self H; simpl;
    [now split|].
  destruct (is_client self); [|now split].
  destruct (IH _ (client_turn_queue ev self H)) as [Q P].
  split; [exact Q|]. now rewrite P, client_turn_players.
Qed.





(** * Further properties *)

(** ** Client loop and message queue *)

Lemma client_loop_queue (evs : list recv) (self : NetworkManager) :
  is_client self = true ->
  message_queue (_client_loop evs self)
  = (message_queue self ++ decoded evs)%list
  /\ is_client (_client_loop evs self) = true.
Proof.
  revert self; induction evs as [|ev evs IH]; intros self H; simpl.
  - now rewrite app_nil_r.
  - rewrite H.
    assert (is_client (fst (client_turn ev self)) = true) as H1.
    { destruct ev as [data addr|]; simpl; [|exact H].
      now destruct (_parse_packet data). }
    destruct (IH _ H1) as [Q C]. split; [|exact C].
    rewrite Q. destruct ev as [data addr|]; simpl; [|reflexivity].
    destruct (_parse_packet data); simpl; [|reflexivity].
    now rewrite <- app_assoc.
Qed.

(** X1: after the client loop has run on an empty queue, [get_messages]
    returns the decoded datagrams in their order of arrival, skipping those
    that did not decode, and leaves the queue empty; the loop itself
    touches neither the registry nor the client map. *)
Theorem client_loop_get_messages :
  forall (evs : list recv) (self : NetworkManager),
    is_client self = true ->
    message_queue self = [] ->
    let o := get_messages (_client_loop evs self) in
    res o = Return (decoded evs)
    /\ message_queue (self_after o) = []
    /\ res (get_messages (self_after o)) = Return []
    /\ players (self_after o) = players self
    /\ clients (_client_loop evs self) = clients self.
Proof.
  intros evs self Hc Hq.
  destruct (client_loop_queue evs self Hc) as [Q _].
  destruct (client_loop_inv evs self) as [_ P]; [rewrite Hq; constructor|].
  rewrite Hq in Q. unfold get_messages, bindM, get_self, modify, ret; simpl.
  rewrite Q, P. repeat split; try reflexivity.
  clear. revert self. induction evs as [|ev evs IH]; intros self; simpl;
    [reflexivity|].
  destruct (is_client self); [|reflexivity].
  rewrite IH. destruct ev as [data addr|]; simpl; [|reflexivity].
  now destruct (_parse_packet data).
Qed.

Lemma client_loop_get_messages_witness :
  res (get_messages
         (_client_loop [Received update_x5 peer_A; TimedOut;
                        Received "5" peer_A; Received "{" peer_A]
                       client_me))
  = Return (decoded [Received update_x5 peer_A; TimedOut;
                     Received "5" peer_A; Received "{" peer_A]).
Proof.
  apply (client_loop_get_messages
           [Received update_x5 peer_A; TimedOut;
            Received "5" peer_A; Received "{" peer_A] client_me);
    reflexivity.
Defined.

(** ** The branches of the host: update *)






Lemma is_field_map_sound (u : dict) : is_field_map u = true -> field_map u.
Proof.
  unfold field_map.
  induction u as [|[a w] u IH]; simpl; [intros _; split; constructor|].
  destruct a; try discriminate.
  rewrite andb_true_iff, negb_true_iff. intros [H1 H2].
  destruct (IH H2) as [ND ST]. split; constructor; auto.
  - intros H. apply get_present in H. congruence.
  - now eexists.
Qed.


(** X2: the PLAYER_UPDATE branch, entered for a registered sender whose
    snapshot is a dictionary, with a field map as payload, stores the
    snapshot merged field by field: a field of the payload gets the
    payload's value, any other field keeps its stored value; the snapshots
    of the other identities stay as they were. *)
Theorem player_update_branch_merges :
  forall (data : string) (addr : address) (packet : value)
         (player_id : string) (snapshot u : dict) (self : NetworkManager),
    Clients.get addr (clients self) = Some player_id ->
    Dict.get (VStr player_id) (players self) = Some (VDict snapshot) ->
    getitem packet "data" = Return (VDict u) ->
    is_field_map u = true ->
    let o := on_player_update data addr packet self in
    res o = Return tt
    /\ (exists merged,
          Dict.get (VStr player_id) (players (self_after o))
          = Some (VDict merged)
          /\ forall k : string,
               Dict.get (VStr k) merged
               = match Dict.get (VStr k) u with
                 | Some v => Some v
                 | None => Dict.get (VStr k) snapshot
                 end)
    /\ (forall other : string,
          String.eqb player_id other = false ->
          Dict.get (VStr other) (players (self_after o))
          = Dict.get (VStr other) (players self)).
Proof.
  intros data addr packet player_id snapshot u self Hc Hp Hd Hu.
  destruct (on_player_update_registered data addr packet player_id snapshot u
              self Hc Hp Hd) as (R & P & _ & _).
  cbv zeta. rewrite R, P. split; [reflexivity|]. split.
  - exists (Dict.update snapshot u). split; [apply get_set_same|].
    intros k. now apply get_update_str, is_field_map_sound.
  - intros other H. now rewrite get_set_str, H.
Qed.

Lemma player_update_branch_merges_witness :
  res (on_player_update update_x5 peer_A
         (VDict [(VStr "type", VInt 3); (VStr "data", VDict x5)])
         (registered fst [peer_A; peer_B] x1y2)) = Return tt.
Proof.
  apply (player_update_branch_merges update_x5 peer_A
           (VDict [(VStr "type", VInt 3); (VStr "data", VDict x5)])
           "10.0.0.1" x1y2 x5 (registered fst [peer_A; peer_B] x1y2));
    reflexivity.
Defined.

(** X3: the same branch sends the datagram, unchanged, to every address of
    the client map other than the sender's, once each, and to no one
    else. *)
Theorem player_update_branch_forwards :
  forall (data : string) (addr : address) (packet : value)
         (player_id : string) (snapshot u : dict) (self : NetworkManager),
    Clients.get addr (clients self) = Some player_id ->
    Dict.get (VStr player_id) (players self) = Some (VDict snapshot) ->
    getitem packet "data" = Return (VDict u) ->
    distinct_addresses (clients self) = true ->
    let o := on_player_update data addr packet self in
    NoDup (sent o)
    /\ (forall (d : string) (a : address),
          In (d, a) (sent o)
          <-> d = data /\ a <> addr /\ In a (map fst (clients self)))
    /\ clients (self_after o) = clients self.
Proof.
  intros data addr packet player_id snapshot u self Hc Hp Hd Hw.
  destruct (on_player_update_registered data addr packet player_id snapshot u
              self Hc Hp Hd) as (_ & _ & C & S).
  cbv zeta. rewrite S, C. split; [|split; [|reflexivity]].
  - apply distinct_addresses_NoDup in Hw. clear -Hw.
    induction (clients self) as [|[a id] c IH]; simpl; [constructor|].
    inversion Hw as [|? ? Hn Hc]; subst.
    destruct (negb (address_eqb a addr)); simpl; [|auto].
    constructor; [|auto].
    rewrite in_map_iff. intros ([a' id'] & E & I). simpl in E.
    injection E as ->. apply filter_In in I as [I _].
    apply Hn. apply in_map_iff. now exists (a, id').
  - intros d a. rewrite in_map_iff. split.
    + intros ([a' id] & E & I). injection E as <- <-.
      apply filter_In in I as [I F]. simpl in F.
      apply negb_true_iff in F. repeat split.
      * intros ->. now rewrite address_eqb_refl in F.
      * apply in_map_iff. now exists (a', id).
    + intros (-> & Hne & I). apply in_map_iff in I as ([a' id] & E & I).
      simpl in E; subst a'. exists (a, id). split; [reflexivity|].
      apply filter_In. split; [exact I|]. simpl.
      apply negb_true_iff. destruct (address_eqb a addr) eqn:F;
        [|reflexivity].
      apply address_eqb_eq in F. contradiction.
Qed.

Lemma player_update_branch_forwards_witness :
  NoDup (sent (on_player_update update_x5 peer_A
                 (VDict [(VStr "type", VInt 3); (VStr "data", VDict x5)])
                 (registered fst [peer_A; peer_B; peer_C] x1y2))).
Proof.
  apply (player_update_branch_forwards update_x5 peer_A
           (VDict [(VStr "type", VInt 3); (VStr "data", VDict x5)])
           "10.0.0.1" x1y2 x5 (registered fst [peer_A; peer_B; peer_C] x1y2));
    reflexivity.
Defined.

(** ** The branches of the host: connect and disconnect *)


(** X4: the CONNECT branch registers the sender, in the client map under
    its identity and in the registry under the payload of the packet, and
    then raises [TypeError] while it builds the WORLD_STATE reply: the
    reply is never sent. *)
Theorem connect_branch_registers_without_reply :
  forall (md5_id : address -> string) (now : pyfloat) (addr : address)
         (packet d : value) (self : NetworkManager),
    getitem packet "data" = Return d ->
    let o := on_connect md5_id now addr packet self in
    res o = Raise TypeError
    /\ sent o = []
    /\ Clients.get addr (clients (self_after o)) = Some (md5_id addr)
    /\ Dict.get (VStr (md5_id addr)) (players (self_after o)) = Some d.
Proof.
  intros md5_id now addr packet d self H.
  destruct (on_connect_no_reply md5_id now addr packet d self H)
    as (R & S & C & P).
  cbv zeta. rewrite R, S, C, P. repeat split.
  - now rewrite clients_get_set, address_eqb_refl.
  - apply get_set_same.
Qed.

Lemma connect_branch_registers_without_reply_witness :
  res (on_connect fst (FDec false 125 (-1)) peer_A
         (VDict [(VStr "type", VInt 1); (VStr "data", VDict x1y2)])
         (start_server init)) = Raise TypeError.
Proof.
  apply (connect_branch_registers_without_reply fst (FDec false 125 (-1))
           peer_A (VDict [(VStr "type", VInt 1); (VStr "data", VDict x1y2)])
           (VDict x1y2) (start_server init)).
  reflexivity.
Defined.

(** X5: on a packet without a ['data'] entry the CONNECT branch raises
    [KeyError] after it has put the sender in the client map: the sender
    is left with an identity and without a snapshot. *)
Theorem connect_branch_without_data :
  forall (md5_id : address -> string) (now : pyfloat) (addr : address)
         (packet : value) (self : NetworkManager),
    getitem packet "data" = Raise KeyError ->
    let o := on_connect md5_id now addr packet self in
    res o = Raise KeyError
    /\ sent o = []
    /\ Clients.get addr (clients (self_after o)) = Some (md5_id addr)
    /\ players (self_after o) = players self.
Proof.
  intros md5_id now addr packet self H.
  unfold on_connect, bindM, modify, lift; simpl. rewrite H; simpl.
  repeat split. now rewrite clients_get_set, address_eqb_refl.
Qed.

Lemma connect_branch_without_data_witness :
  ids_match (start_server init) = true
  /\ ids_match (self_after (on_connect fst (FDec false 125 (-1)) peer_A
                              (VDict [(VStr "type", VInt 1)])
                              (start_server init))) = false
  /\ res (on_connect fst (FDec false 125 (-1)) peer_A
            (VDict [(VStr "type", VInt 1)]) (start_server init))
     = Raise KeyError.
Proof.
  split; [reflexivity|]. split; [reflexivity|].
  apply (connect_branch_without_data fst (FDec false 125 (-1)) peer_A
           (VDict [(VStr "type", VInt 1)]) (start_server init)).
  reflexivity.
Defined.



(** X6: the DISCONNECT branch, entered for a registered sender that has a
    snapshot, removes the sender from the client map and its identity from
    the registry, sends nothing, and leaves every other address and every
    other identity as it was. *)
Theorem disconnect_branch_removes :
  forall (addr : address) (player_id : string) (self : NetworkManager),
    Clients.get addr (clients self) = Some player_id ->
    Dict.mem (VStr player_id) (players self) = true ->
    distinct_addresses (clients self) = true ->
    distinct_keys (players self) = true ->
    let o := on_disconnect addr self in
    res o = Return tt
    /\ sent o = []
    /\ Clients.get addr (clients (self_after o)) = None
    /\ Dict.get (VStr player_id) (players (self_after o)) = None
    /\ (forall other : address,
          address_eqb addr other = false ->
          Clients.get other (clients (self_after o))
          = Clients.get other (clients self))
    /\ (forall other : string,
          String.eqb player_id other = false ->
          Dict.get (VStr other) (players (self_after o))
          = Dict.get (VStr other) (players self)).
Proof.
  intros addr player_id self Hc Hp Wc Wp.
  unfold on_disconnect, bindM, get_self, modify, lift; simpl.
  rewrite Hc; simpl. rewrite Hp; simpl. repeat split.
  - now rewrite (clients_get_remove _ _ _ Wc), address_eqb_refl.
  - now rewrite (dict_get_remove _ _ _ Wp), String.eqb_refl.
  - intros other H. now rewrite (clients_get_remove _ _ _ Wc), H.
  - intros other H. now rewrite (dict_get_remove _ _ _ Wp), H.
Qed.

Lemma disconnect_branch_removes_witness :
  res (on_disconnect peer_B (registered fst [peer_A; peer_B; peer_C] x1y2))
  = Return tt.
Proof.
  apply (disconnect_branch_removes peer_B "10.0.0.2"
           (registered fst [peer_A; peer_B; peer_C] x1y2)); reflexivity.
Defined.

(** X7: the DISCONNECT branch, entered for a sender that has an identity
    and no snapshot, raises [KeyError] after it has removed the sender from
    the client map. *)
Theorem disconnect_branch_without_snapshot :
  forall (addr : address) (player_id : string) (self : NetworkManager),
    Clients.get addr (clients self) = Some player_id ->
    Dict.mem (VStr player_id) (players self) = false ->
    distinct_addresses (clients self) = true ->
    let o := on_disconnect addr self in
    res o = Raise KeyError
    /\ Clients.get addr (clients (self_after o)) = None
    /\ players (self_after o) = players self.
Proof.
  intros addr player_id self Hc Hp Wc.
  unfold on_disconnect, bindM, get_self, modify, lift; simpl.
  rewrite Hc; simpl. rewrite Hp; simpl. repeat split.
  now rewrite (clients_get_remove _ _ _ Wc), address_eqb_refl.
Qed.

Lemma disconnect_branch_without_snapshot_witness :
  res (on_disconnect peer_A
         (self_after (on_connect fst (FDec false 125 (-1)) peer_A
                        (VDict [(VStr "type", VInt 1)]) (start_server init))))
  = Raise KeyError.
Proof.
  apply (disconnect_branch_without_snapshot peer_A "10.0.0.1"
           (self_after (on_connect fst (FDec false 125 (-1)) peer_A
                          (VDict [(VStr "type", VInt 1)])
                          (start_server init)))); reflexivity.
Defined.

(** ** The consumer on messages tagged with the member itself *)

(** X8: on a message whose ['type'] is the member [PLAYER_UPDATE] and whose
    payload names a player under ['player_id'], the consumer stores the
    payload as that player's entry, in place of whatever was stored (no
    merge, and no test for the local player), and leaves the other entries
    as they were. *)
Theorem handle_update_replaces_entry :
  forall (msg : value) (player_data : dict) (player_id : string)
         (self : NetworkManager),
    getitem msg "type" = Return (VEnum PLAYER_UPDATE) ->
    getitem msg "data" = Return (VDict player_data) ->
    Dict.get (VStr "player_id") player_data = Some (VStr player_id) ->
    String.eqb player_id EmptyString = false ->
    let o := _handle_network_message msg self in
    res o = Return tt
    /\ sent o = []
    /\ Dict.get (VStr player_id) (players (self_after o))
       = Some (VDict player_data)
    /\ (forall other : string,
          String.eqb player_id other = false ->
          Dict.get (VStr other) (players (self_after o))
          = Dict.get (VStr other) (players self)).
Proof.
  intros msg player_data player_id self Ht Hd Hp Hn.
  unfold _handle_network_message, bindM, lift, modify; simpl.
  rewrite Ht; simpl. rewrite Hd; simpl. rewrite Hp; simpl. rewrite Hn; simpl.
  repeat split.
  - apply get_set_same.
  - intros other H. now rewrite get_set_str, H.
Qed.

Lemma handle_update_replaces_entry_witness :
  Dict.get (VStr "me")
    (players (self_after (_handle_network_message
                            (update_message (VDict me_x0)) client_me)))
  = Some (VDict me_x0).
Proof.
  apply (handle_update_replaces_entry (update_message (VDict me_x0)) me_x0
           "me" client_me); reflexivity.
Defined.

Lemma set_absent (k : string) (v : value) (d : dict) :
  Dict.mem (VStr k) d = false ->
  Dict.set (VStr k) v d = (d ++ [(VStr k, v)])%list.
Proof.
  unfold Dict.mem.
  induction d as [|[a w] d IH]; cbn [Dict.set Dict.get app]; [reflexivity|].
  destruct (key_eqb a (VStr k)); [discriminate|].
  intros H. now rewrite (IH H).
Qed.

Lemma mem_app_last (k k' : string) (v : value) (d : dict) :
  Dict.mem (VStr k') (d ++ [(VStr k, v)])%list
  = Dict.mem (VStr k') d || String.eqb k k'.
Proof.
  unfold Dict.mem.
  induction d as [|[a w] d IH]; cbn [Dict.get app key_eqb].
  - now destruct (String.eqb k k').
  - destruct (key_eqb a (VStr k')); [reflexivity | exact IH].
Qed.

Lemma for_each_merge_fresh (d : dict) (self : NetworkManager) :
  is_field_map d = true ->
  forallb (fun kv => negb (Dict.mem (fst kv) (players self))) d = true ->
  for_each d merge_world_entry self
  = {| res := Return tt;
       self_after := with_players (players self ++ d)%list self;
       sent := [] |}.
Proof.
  revert self. induction d as [|[a v] d IH]; intros self F M.
  - destruct self; cbn. now rewrite app_nil_r.
  - cbn [is_field_map] in F. destruct a; try discriminate.
    apply andb_true_iff in F as [F1 F2]. apply negb_true_iff in F1.
    cbn [forallb fst] in M. apply andb_true_iff in M as [M1 M2].
    cbn [for_each]. unfold bindM at 1.
    unfold merge_world_entry at 1, bindM, get_self, modify; simpl.
    rewrite M1; simpl.
    rewrite (set_absent _ _ _ (proj1 (negb_true_iff _) M1)).
    rewrite IH; [simpl; now rewrite <- app_assoc | exact F2 |].
    cbn [players with_players].
    clear IH M1. revert F1 F2 M2.
    induction d as [|[a w] d IHd]; [reflexivity|].
    cbn [is_field_map forallb fst]. destruct a; try discriminate.
    unfold Dict.mem at 1. cbn [Dict.get key_eqb].
    destruct (String.eqb s0 s) eqn:E; [discriminate|].
    intros F1 F2 M2. apply andb_true_iff in F2 as [_ F2].
    apply andb_true_iff in M2 as [M2 M3].
    rewrite mem_app_last, String.eqb_sym, E, orb_false_r, M2.
    apply IHd; assumption.
Qed.

(** X9: on a message whose ['type'] is the member [WORLD_STATE] and whose
    payload is a registry of identities none of which the consumer holds,
    the consumer adds every entry of the payload to its registry, in the
    order of the payload, and keeps its own entries. *)
Theorem handle_world_state_adds_entries :
  forall (msg : value) (registry : dict) (self : NetworkManager),
    getitem msg "type" = Return (VEnum WORLD_STATE) ->
    getitem msg "data" = Return (VDict registry) ->
    is_field_map registry = true ->
    forallb (fun kv => negb (Dict.mem (fst kv) (players self))) registry
    = true ->
    let o := _handle_network_message msg self in
    res o = Return tt
    /\ sent o = []
    /\ players (self_after o) = (players self ++ registry)%list.
Proof.
  intros msg registry self Ht Hd F M.
  unfold _handle_network_message, bindM, lift; simpl.
  rewrite Ht; simpl. rewrite Hd; simpl.
  rewrite (for_each_merge_fresh registry self F M). now repeat split.
Qed.

Lemma handle_world_state_adds_entries_witness :
  players (self_after (_handle_network_message
                         (world_message (VDict two_players)) client_me))
  = (players client_me ++ two_players)%list.
Proof.
  apply (handle_world_state_adds_entries (world_message (VDict two_players))
           two_players client_me); reflexivity.
Defined.

(** ** Connecting as a client *)

(** X25: [connect_client] marks the manager as a client and records the
    address of the server, then raises [TypeError] while it builds the
    CONNECT packet: nothing is sent and the registry, the client map and
    the queue are as before.  On the manager it leaves, every
    [send_player_update] raises [TypeError] in turn and sends nothing. *)
Theorem connect_client_fails :
  forall (now : pyfloat) (host : string) (port : Z) (self : NetworkManager),
    let o := connect_client now host port self in
    res o = Raise TypeError
    /\ sent o = []
    /\ is_client (self_after o) = true
    /\ server_addr (self_after o) = Some (host, port)
    /\ is_server (self_after o) = is_server self
    /\ players (self_after o) = players self
    /\ clients (self_after o) = clients self
    /\ message_queue (self_after o) = message_queue self
    /\ (forall (now' : pyfloat) (player_data : value),
          res (send_player_update now' player_data (self_after o))
          = Raise TypeError
          /\ sent (send_player_update now' player_data (self_after o)) = []).
Proof.
  intros now host port self. cbv zeta.
  unfold connect_client, send_player_update, bindM, modify, lift, get_self.
  cbn. now repeat split.
Qed.

(** * Characters and battles *)

Module GameFacts.

Import Game.

(** ** Experience and levels *)

(** X10: [add_xp] accounts for every point: it returns [True] exactly when
    the experience reaches fifty times the level, in which case the level
    rises by one, that threshold is taken off the experience, and hit
    points and skill points are set to their raised maxima; otherwise only
    the experience changes and it stays below the threshold.  The coins and
    the items are never touched. *)
Theorem add_xp_accounts :
  forall (amount : Z) (c : Character),
    let c' := fst (add_xp amount c) in
    let up := snd (add_xp amount c) in
    (up = true <-> level c * 50 <= xp c + amount)
    /\ level c' = level c + (if up then 1 else 0)
    /\ xp c' + (if up then level c * 50 else 0) = xp c + amount
    /\ (up = false -> xp c' < level c' * 50 /\ stats c' = stats c)
    /\ (up = true ->
          max_hp (stats c') = max_hp (stats c) + 5
          /\ max_sp (stats c') = max_sp (stats c) + 2
          /\ hp (stats c') = max_hp (stats c')
          /\ sp (stats c') = max_sp (stats c'))
    /\ coins c' = coins c /\ items c' = items c.
Proof.
  intros amount c. unfold add_xp. cbn [level xp coins with_progress].
  destruct (level c * 50 <=? xp c + amount) eqn:E; cbn.
  - apply Z.leb_le in E. repeat split; try lia; try discriminate; auto.
  - apply Z.leb_gt in E. repeat split; try lia; try discriminate; auto.
Qed.

(** X11: one call of [add_xp] raises the level once at most: when the
    amount covers the threshold of the next level too, the character, of
    positive level, comes out one level higher with experience at or above
    its new threshold. *)
Theorem add_xp_levels_once :
  forall (amount : Z) (c : Character),
    0 < level c ->
    level c * 50 + (level c + 1) * 50 <= xp c + amount ->
    let c' := fst (add_xp amount c) in
    level c' = level c + 1 /\ level c' * 50 <= xp c'.
Proof.
  intros amount c L H. unfold add_xp. cbn [level xp coins with_progress].
  destruct (level c * 50 <=? xp c + amount) eqn:E; cbn.
  - lia.
  - apply Z.leb_gt in E. lia.
Qed.

Lemma add_xp_levels_once_witness :
  level (fst (add_xp 1000 default_character)) = 2
  /\ 100 <= xp (fst (add_xp 1000 default_character)).
Proof.
  apply (add_xp_levels_once 1000 default_character).
  - reflexivity.
  - vm_compute. discriminate.
Defined.

(** ** The turn of the enemies *)

Lemma set_hp_set_hp (h1 h2 : Z) (c : Character) :
  set_hp h2 (set_hp h1 c) = set_hp h2 c.
Proof. reflexivity. Qed.

Lemma turn_damage_length (d : Z) (es : list Enemy) :
  Z.of_nat (List.length es) <= turn_damage d es.
Proof.
  induction es as [|e es IH]; simpl; [reflexivity|]. lia.
Qed.

Lemma hp_set_hp (h : Z) (c : Character) : hp (stats (set_hp h c)) = h.
Proof. reflexivity. Qed.

Lemma defense_set_hp (h : Z) (c : Character) :
  defense (stats (set_hp h c)) = defense (stats c).
Proof. reflexivity. Qed.

(** One enemy's attack, as the body of the loop performs it. *)
Lemma enemy_attacks_cons (e : Enemy) (es : list Enemy) (b : BattleSystem) :
  exists b3,
    enemy_attacks (e :: es) b = enemy_attacks es b3
    /\ player b3
       = set_hp (hp (stats (player b))
                 - Z.max 1 (enemy_power e - defense (stats (player b))))
                (player b)
    /\ enemies b3 = enemies b /\ victory b3 = victory b
    /\ action_power b3 = action_power b
    /\ rewards_xp b3 = rewards_xp b
    /\ rewards_coins b3 = rewards_coins b
    /\ defeat b3
       = defeat b
         || (hp (stats (player b))
             - Z.max 1 (enemy_power e - defense (stats (player b))) <=? 0).
Proof.
  cbn [enemy_attacks]. eexists. split; [reflexivity|]. cbn.
  destruct (hp (stats (player b))
            - Z.max 1 (enemy_power e - defense (stats (player b))) <=? 0);
    cbn; repeat split; auto using orb_true_r, orb_false_r.
Qed.

Lemma enemy_attacks_spec (es : list Enemy) (b : BattleSystem) :
  let b' := enemy_attacks es b in
  let h := hp (stats (player b))
           - turn_damage (defense (stats (player b))) es in
  (es <> [] -> player b' = set_hp h (player b))
  /\ (es = [] -> b' = b)
  /\ enemies b' = enemies b
  /\ victory b' = victory b
  /\ action_power b' = action_power b
  /\ rewards_xp b' = rewards_xp b
  /\ rewards_coins b' = rewards_coins b
  /\ defeat b' = defeat b || (negb (Nat.eqb (List.length es) 0) && (h <=? 0)).
Proof.
  revert b. induction es as [|e es IH]; intros b.
  - cbn. repeat split; auto; try contradiction. now rewrite orb_false_r.
  - destruct (enemy_attacks_cons e es b)
      as (b3 & -> & P & E & V & A & RX & RC & D).
    set (d := Z.max 1 (enemy_power e - defense (stats (player b)))) in *.
    destruct (IH b3) as (I1 & I2 & I3 & I4 & I5 & I6 & I7 & I8).
    cbv zeta in *. rewrite P, hp_set_hp, defense_set_hp in I1, I8.
    rewrite set_hp_set_hp in I1.
    set (t := turn_damage (defense (stats (player b))) es) in *.
    assert (turn_damage (defense (stats (player b))) (e :: es) = d + t) as T
      by reflexivity.
    rewrite T.
    replace (hp (stats (player b)) - (d + t))
      with (hp (stats (player b)) - d - t) by lia.
    pose proof (turn_damage_length (defense (stats (player b))) es) as Len.
    fold t in Len.
    assert (1 <= d) as Hd by (subst d; lia).
    repeat split; try congruence; try discriminate.
    + intros _. destruct es as [|e' es'].
      * rewrite (I2 eq_refl), P. subst t. cbn [turn_damage fold_right].
        now rewrite Z.sub_0_r.
      * apply I1. discriminate.
    + rewrite I8, D. cbn [List.length Nat.eqb negb andb].
      destruct es as [|e' es']; cbn [List.length Nat.eqb negb andb].
      * subst t. cbn [turn_damage fold_right].
        now rewrite Z.sub_0_r, orb_false_r.
      * rewrite <- orb_assoc. f_equal.
        destruct (hp (stats (player b)) - d <=? 0) eqn:E1; cbn [orb].
        -- apply Z.leb_le in E1. symmetry. apply Z.leb_le.
           cbn [List.length] in Len. lia.
        -- reflexivity.
Qed.

Lemma enemy_turn_spec :
  forall b : BattleSystem,
    let b' := enemy_turn b in
    let h := hp (stats (player b))
             - turn_damage (defense (stats (player b))) (enemies b) in
    hp (stats (player b')) = h
    /\ h <= hp (stats (player b)) - Z.of_nat (List.length (enemies b))
    /\ defeat b'
       = defeat b
         || (negb (Nat.eqb (List.length (enemies b)) 0) && (h <=? 0))
    /\ turn b' = "player"
    /\ enemies b' = enemies b
    /\ victory b' = victory b
    /\ rewards_xp b' = rewards_xp b /\ rewards_coins b' = rewards_coins b.
Proof.
  intros b. cbv zeta. unfold enemy_turn.
  destruct (enemy_attacks_spec (enemies b) b)
    as (I1 & I2 & I3 & I4 & I5 & I6 & I7 & I8).
  cbv zeta in *. cbn [player with_flags enemies victory defeat turn
                      rewards_xp rewards_coins].
  pose proof (turn_damage_length (defense (stats (player b))) (enemies b)).
  repeat split; auto; try lia.
  destruct (enemies b) as [|e es] eqn:E.
  - rewrite (I2 eq_refl). cbn. lia.
  - now rewrite I1 by discriminate.
Qed.


(** X12: in [enemy_turn] every enemy takes from the player's hit points
    the excess of its power over the player's defense, and one point at
    least, so that the player loses at least as many points as there are
    enemies; the player is marked defeated when the points end at zero or
    below; the turn goes back to the player, and the enemies, the victory
    flag and the rewards are left as they were. *)
Theorem enemy_turn_damage :
  forall b : BattleSystem,
    let b' := enemy_turn b in
    let h := hp (stats (player b))
             - turn_damage (defense (stats (player b))) (enemies b) in
    hp (stats (player b')) = h
    /\ h <= hp (stats (player b)) - Z.of_nat (List.length (enemies b))
    /\ defeat b'
       = defeat b
         || (negb (Nat.eqb (List.length (enemies b)) 0) && (h <=? 0))
    /\ turn b' = "player"
    /\ enemies b' = enemies b
    /\ victory b' = victory b
    /\ rewards_xp b' = rewards_xp b /\ rewards_coins b' = rewards_coins b.
Proof.
  intros b. cbv zeta. unfold enemy_turn.
  destruct (enemy_attacks_spec (enemies b) b)
    as (I1 & I2 & I3 & I4 & I5 & I6 & I7 & I8).
  cbv zeta in *. cbn [player with_flags enemies victory defeat turn
                      rewards_xp rewards_coins].
  pose proof (turn_damage_length (defense (stats (player b))) (enemies b)).
  repeat split; auto; try lia.
  destruct (enemies b) as [|e es] eqn:E.
  - rewrite (I2 eq_refl). cbn. lia.
  - now rewrite I1 by discriminate.
Qed.

(** ** Actions of the player *)

Lemma round53_small (z : Z) : 0 < z -> z < 2 ^ 53 -> round53 z = z.
Proof.
  intros H0 H. unfold round53.
  apply Z.log2_lt_pow2 in H; [|exact H0].
  destruct (Z.log2 z + 1 <=? 53) eqn:E; [reflexivity|].
  apply Z.leb_gt in E. lia.
Qed.

Lemma scaled_small (d : Z) (p : ActionPower) :
  0 < d -> d < 2 ^ 53 ->
  scaled d p = Some (match p with Full => d | Half => d / 2 end).
Proof.
  intros H0 H. unfold scaled. rewrite (round53_small d H0 H).
  destruct (2 ^ 1024 <=? d) eqn:E; [|reflexivity].
  apply Z.leb_le in E.
  assert (2 ^ 53 < 2 ^ 1024) by (apply Z.pow_lt_mono_r; lia). lia.
Qed.

Lemma attack_frame (b : BattleSystem) :
  turn (fst (attack b)) = turn b
  /\ action_power (fst (attack b)) = action_power b
  /\ victory (fst (attack b)) = victory b
  /\ defeat (fst (attack b)) = defeat b
  /\ player (fst (attack b)) = player b.
Proof.
  unfold attack. destruct (enemies b) as [|e es]; [now repeat split|].
  destruct (scaled _ _); [|now repeat split].
  match goal with |- context [if ?c then _ else _] => destruct c end;
    now repeat split.
Qed.

Lemma special_frame (b : BattleSystem) :
  turn (fst (special b)) = turn b
  /\ action_power (fst (special b)) = action_power b
  /\ victory (fst (special b)) = victory b
  /\ defeat (fst (special b)) = defeat b.
Proof.
  unfold special. destruct (5 <=? sp (stats (player b))); [|now repeat split].
  destruct (rev (enemies b)); now repeat split.
Qed.

Lemma use_item_frame (b : BattleSystem) :
  turn (use_item b) = turn b
  /\ action_power (use_item b) = action_power b
  /\ victory (use_item b) = victory b
  /\ defeat (use_item b) = defeat b
  /\ enemies (use_item b) = enemies b.
Proof.
  unfold use_item. destruct (items (player b)); [now repeat split|].
  destruct (lookup _ _); now repeat split.
Qed.

Lemma conclude_frame (b : BattleSystem) :
  action_power (conclude b) = action_power b
  /\ (turn b = "player" -> turn (conclude b) = "player")
  /\ enemies (conclude b) = enemies b.
Proof.
  unfold conclude.
  set (b2 := match enemies b with [] => _ | _ => _ end).
  assert (action_power b2 = action_power b /\ turn b2 = turn b
          /\ enemies b2 = enemies b) as (A & T & E).
  { subst b2. destruct (enemies b) eqn:E; now repeat split. }
  destruct (negb (victory b2) && (turn b2 =? "player")%string) eqn:C.
  - destruct (enemy_turn_spec
                (with_flags "enemy" (action_power b2) (victory b2)
                            (defeat b2) b2))
      as (_ & _ & _ & T' & E' & _).
    cbv zeta in *. rewrite T', E'. unfold enemy_turn.
    destruct (enemy_attacks_spec (enemies b2)
                (with_flags "enemy" (action_power b2) (victory b2)
                            (defeat b2) b2))
      as (_ & _ & _ & _ & A' & _).
    cbn in A'. cbn. rewrite A'. now repeat split.
  - rewrite A, T, E. now repeat split.
Qed.

Lemma act_power (escaped : bool) (b : BattleSystem) :
  action_power (fst (act escaped b))
  = match selected_action b with
    | Some a => if (a =? "Defend")%string then Half else action_power b
    | None => action_power b
    end
  /\ turn (fst (act escaped b)) = turn b.
Proof.
  unfold act. destruct (selected_action b) as [a|]; [|now split].
  destruct (attack_frame b) as (T1 & A1 & _).
  destruct (special_frame b) as (T2 & A2 & _).
  destruct (use_item_frame b) as (T3 & A3 & _).
  destruct (a =? "Attack")%string eqn:E1.
  { apply String.eqb_eq in E1; subst a. now split. }
  destruct (a =? "Special")%string eqn:E2.
  { apply String.eqb_eq in E2; subst a. now split. }
  destruct (a =? "Item")%string eqn:E3.
  { apply String.eqb_eq in E3; subst a. now split. }
  destruct (a =? "Defend")%string eqn:E4; [now split|].
  destruct (a =? "Run")%string; [|now split].
  now destruct escaped.
Qed.

(** X13: the action Defend halves the power of the player's actions for
    the rest of the battle: it sets [action_power] to [0.5], and no action
    sets it back; and whatever the action, a battle in which the turn is
    the player's comes out of [execute_action] with the turn the player's
    again. *)
Theorem defend_is_permanent :
  forall (escaped : bool) (b : BattleSystem),
    let b' := fst (execute_action escaped b) in
    (selected_action b = Some "Defend" -> action_power b' = Half)
    /\ (action_power b = Half -> action_power b' = Half)
    /\ (turn b = "player" -> turn b' = "player").
Proof.
  intros escaped b. cbv zeta. unfold execute_action.
  destruct (act_power escaped b) as [A T].
  destruct (act escaped b) as [b1 [e|]]; cbn [fst] in *.
  - rewrite A, T. repeat split; auto.
    + now intros ->.
    + intros H. rewrite H. now destruct (selected_action b) as [a|];
        [destruct (a =? "Defend")%string|].
  - destruct (conclude_frame b1) as (A' & T' & _).
    rewrite A', A. repeat split.
    + now intros ->.
    + intros H. rewrite H. now destruct (selected_action b) as [a|];
        [destruct (a =? "Defend")%string|].
    + intros H. apply T'. congruence.
Qed.

Lemma defend_is_permanent_witness :
  action_power
    (fst (execute_action false
            (select_action "Attack"
               (fst (execute_action false
                       (select_action "Defend"
                          (new_battle default_character
                                      (battle_enemies ["Goomba"]))))))))
  = Half.
Proof.
  apply (defend_is_permanent false
           (select_action "Attack"
              (fst (execute_action false
                      (select_action "Defend"
                         (new_battle default_character
                                     (battle_enemies ["Goomba"]))))))).
  reflexivity.
Defined.

Lemma attack_single_spec :
  forall (b : BattleSystem) (e : Enemy),
    enemies b = [e] ->
    power (stats (player b)) - enemy_defense e < 2 ^ 53 ->
    let d := Z.max 1 (power (stats (player b)) - enemy_defense e) in
    let dealt := match action_power b with Full => d | Half => d / 2 end in
    let b' := fst (attack b) in
    snd (attack b) = None
    /\ 0 <= dealt
    /\ (enemy_hp e - dealt <= 0 ->
          enemies b' = []
          /\ rewards_xp b' = rewards_xp b + enemy_xp e
          /\ rewards_coins b' = rewards_coins b + enemy_coins e)
    /\ (0 < enemy_hp e - dealt ->
          enemies b' = [hit dealt e]
          /\ rewards_xp b' = rewards_xp b
          /\ rewards_coins b' = rewards_coins b).
Proof.
  intros b e He Hb. cbv zeta. unfold attack. rewrite He.
  cbn [List.length nth]. rewrite Z.mod_1_r. cbn [Z.to_nat nth].
  set (d := Z.max 1 (power (stats (player b)) - enemy_defense e)).
  assert (0 < d /\ d < 2 ^ 53) as [D0 D1].
  { subst d. split; [lia|]. apply Z.max_lub_lt; [reflexivity | exact Hb]. }
  rewrite (scaled_small d (action_power b) D0 D1).
  set (dealt := match action_power b with Full => d | Half => d / 2 end).
  assert (0 <= dealt) as Hd.
  { subst dealt. destruct (action_power b); [lia|]. apply Z.div_pos; lia. }
  cbn [hit enemy_hp set_nth].
  destruct (enemy_hp e - dealt <=? 0) eqn:E.
  - apply Z.leb_le in E. cbn. repeat split; auto; try lia.
    unfold Enemy_eqb; cbn.
    now rewrite String.eqb_refl, !Z.eqb_refl.
  - apply Z.leb_gt in E. cbn. repeat split; auto; lia.
Qed.

(** X14: in a battle against one enemy, the action Attack takes from the
    enemy the excess of the player's power over the enemy's defense, one
    point at least, halved and rounded down once the player has defended
    (so that an attack worth one point takes nothing); an enemy brought to
    zero or below leaves the battle and its experience and coins are added
    to the rewards. *)
Theorem attack_single_enemy :
  forall (b : BattleSystem) (e : Enemy),
    enemies b = [e] ->
    power (stats (player b)) - enemy_defense e < 2 ^ 53 ->
    let d := Z.max 1 (power (stats (player b)) - enemy_defense e) in
    let dealt := match action_power b with Full => d | Half => d / 2 end in
    let b' := fst (attack b) in
    snd (attack b) = None
    /\ 0 <= dealt
    /\ (enemy_hp e - dealt <= 0 ->
          enemies b' = []
          /\ rewards_xp b' = rewards_xp b + enemy_xp e
          /\ rewards_coins b' = rewards_coins b + enemy_coins e)
    /\ (0 < enemy_hp e - dealt ->
          enemies b' = [hit dealt e]
          /\ rewards_xp b' = rewards_xp b
          /\ rewards_coins b' = rewards_coins b).
Proof.
  intros b e He Hb. cbv zeta. unfold attack. rewrite He.
  cbn [List.length nth]. rewrite Z.mod_1_r. cbn [Z.to_nat nth].
  set (d := Z.max 1 (power (stats (player b)) - enemy_defense e)).
  assert (0 < d /\ d < 2 ^ 53) as [D0 D1].
  { subst d. split; [lia|]. apply Z.max_lub_lt; [reflexivity | exact Hb]. }
  rewrite (scaled_small d (action_power b) D0 D1).
  set (dealt := match action_power b with Full => d | Half => d / 2 end).
  assert (0 <= dealt) as Hd.
  { subst dealt. destruct (action_power b); [lia|]. apply Z.div_pos; lia. }
  cbn [hit enemy_hp set_nth].
  destruct (enemy_hp e - dealt <=? 0) eqn:E.
  - apply Z.leb_le in E. cbn. repeat split; auto; try lia.
    unfold Enemy_eqb; cbn.
    now rewrite String.eqb_refl, !Z.eqb_refl.
  - apply Z.leb_gt in E. cbn. repeat split; auto; lia.
Qed.

Lemma attack_single_enemy_witness :
  enemies (fst (attack
                  (fst (execute_action false
                          (select_action "Defend"
                             (new_battle default_character
                                         (battle_enemies ["Bowser"])))))))
  = [hit 0 {| enemy_name := "Bowser"; enemy_hp := 100;
              enemy_power := 15; enemy_defense := 8;
              enemy_speed := 5; enemy_xp := 50; enemy_coins := 30 |}].
Proof.
  apply (attack_single_enemy
           (fst (execute_action false
                   (select_action "Defend"
                      (new_battle default_character
                                  (battle_enemies ["Bowser"])))))
           {| enemy_name := "Bowser"; enemy_hp := 100;
              enemy_power := 15; enemy_defense := 8;
              enemy_speed := 5; enemy_xp := 50; enemy_coins := 30 |}).
  - reflexivity.
  - vm_compute. reflexivity.
  - vm_compute. reflexivity.
Defined.

Lemma turn_damage_hit (d : Z) (f : Enemy -> Z) (es : list Enemy) :
  turn_damage d (map (fun e => hit (f e) e) es) = turn_damage d es.
Proof.
  unfold turn_damage.
  induction es as [|e es IH]; cbn [map fold_right]; [reflexivity|].
  now rewrite IH.
Qed.

Lemma set_hp_same (c : Character) : set_hp (hp (stats c)) c = c.
Proof. destruct c as [? ? ? ? ? ? ? ? ? ? [] ? ? ? ? ?]. reflexivity. Qed.

Lemma enemy_turn_player (b : BattleSystem) :
  player (enemy_turn b)
  = set_hp (hp (stats (player b))
            - turn_damage (defense (stats (player b))) (enemies b))
           (player b).
Proof.
  unfold enemy_turn. cbn [player with_flags].
  destruct (enemy_attacks_spec (enemies b) b) as (P & Q & _).
  cbv zeta in *. destruct (enemies b) as [|e es].
  - rewrite (Q eq_refl). cbn [turn_damage fold_right].
    now rewrite Z.sub_0_r, set_hp_same.
  - apply P. discriminate.
Qed.

Lemma conclude_fight (b1 : BattleSystem) :
  enemies b1 <> [] -> victory b1 = false -> turn b1 = "player" ->
  conclude b1
  = enemy_turn (with_flags "enemy" (action_power b1) false (defeat b1) b1).
Proof.
  intros He Hv Ht. unfold conclude.
  destruct (enemies b1) as [|e es]; [contradiction|].
  now rewrite Hv, Ht.
Qed.

Lemma conclude_won (b1 : BattleSystem) :
  enemies b1 <> [] -> victory b1 = true -> conclude b1 = b1.
Proof.
  intros He Hv. unfold conclude.
  destruct (enemies b1) as [|e es]; [contradiction|].
  now rewrite Hv.
Qed.

Lemma conclude_idle (b1 : BattleSystem) :
  enemies b1 <> [] -> String.eqb (turn b1) "player" = false ->
  conclude b1 = b1.
Proof.
  intros He Ht. unfold conclude.
  destruct (enemies b1) as [|e es]; [contradiction|].
  now rewrite Ht, andb_false_r.
Qed.

(** X15: the action Special, for a player with five skill points or more
    in a battle with enemies, costs five skill points and takes from every
    enemy the excess of twice the player's power over its defense, one
    point at least; it removes no enemy and declares no victory, even when
    every enemy is at zero or below, and the enemies then take their turn
    as if unharmed. *)
Theorem special_keeps_enemies :
  forall (escaped : bool) (b : BattleSystem),
    selected_action b = Some "Special" ->
    enemies b <> [] ->
    5 <= sp (stats (player b)) ->
    victory b = false ->
    turn b = "player" ->
    let r := execute_action escaped b in
    let dmg e := Z.max 1 (power (stats (player b)) * 2 - enemy_defense e) in
    snd r = None
    /\ enemies (fst r) = map (fun e => hit (dmg e) e) (enemies b)
    /\ victory (fst r) = false
    /\ sp (stats (player (fst r))) = sp (stats (player b)) - 5
    /\ hp (stats (player (fst r)))
       = hp (stats (player b))
         - turn_damage (defense (stats (player b))) (enemies b).
Proof.
  intros escaped b Ha He Hs Hv Ht. cbv zeta.
  unfold execute_action, act. rewrite Ha. cbn [String.eqb Ascii.eqb Bool.eqb].
  unfold special. apply Z.leb_le in Hs. rewrite Hs.
  destruct (rev (enemies b)) as [|l r] eqn:R.
  { apply (f_equal (@rev Enemy)) in R. rewrite rev_involutive in R.
    contradiction. }
  cbn [fst snd]. split; [reflexivity|].
  match goal with |- context [conclude ?x] => set (b1 := x) end.
  assert (enemies b1
          = map (fun e => hit (Z.max 1 (power (stats (player b)) * 2
                                         - enemy_defense e)) e) (enemies b))
    as E1 by reflexivity.
  assert (player b1 = set_sp (sp (stats (player b)) - 5) (player b))
    as P1 by reflexivity.
  rewrite conclude_fight; [| | exact Hv | exact Ht].
  2:{ rewrite E1. destruct (enemies b); [contradiction | discriminate]. }
  set (x := with_flags "enemy" (action_power b1) false (defeat b1) b1).
  assert (enemies x = enemies b1 /\ player x = player b1
          /\ victory x = false) as (Ex & Px & Vx) by now repeat split.
  destruct (enemy_turn_spec x) as (_ & _ & _ & _ & H5 & H6 & _).
  rewrite H5, H6, enemy_turn_player, Ex, Px, Vx, E1, P1, turn_damage_hit.
  now repeat split.
Qed.

Lemma special_keeps_enemies_witness :
  victory (fst (execute_action false
                  (select_action "Special"
                     (new_battle default_character
                                 (battle_enemies ["Goomba"; "Goomba"])))))
  = false.
Proof.
  apply (special_keeps_enemies false
           (select_action "Special"
              (new_battle default_character
                          (battle_enemies ["Goomba"; "Goomba"])))).
  - reflexivity.
  - discriminate.
  - vm_compute. discriminate.
  - reflexivity.
  - reflexivity.
Defined.

Lemma items_nonnegative (n : string) (item : Item) :
  lookup n ITEMS = Some item -> 0 <= item_hp item /\ 0 <= item_sp item.
Proof.
  unfold ITEMS. cbn [lookup].
  repeat match goal with
  | |- context [if ?c then _ else _] =>
      destruct c; [intros H; injection H as <-; cbn; lia|]
  end.
  discriminate.
Qed.

(** X16: the action Item uses the first item of the player: an item of
    the table restores hit points and skill points up to their maxima,
    never beyond them and never downwards for a player within them, and is
    taken off the list; an item that is not in the table, like an empty
    list, changes nothing. *)
Theorem use_item_restores :
  forall b : BattleSystem,
    hp (stats (player b)) <= max_hp (stats (player b)) ->
    sp (stats (player b)) <= max_sp (stats (player b)) ->
    let pl := player b in
    let pl' := player (use_item b) in
    hp (stats pl) <= hp (stats pl') <= max_hp (stats pl)
    /\ sp (stats pl) <= sp (stats pl') <= max_sp (stats pl)
    /\ max_hp (stats pl') = max_hp (stats pl)
    /\ max_sp (stats pl') = max_sp (stats pl)
    /\ enemies (use_item b) = enemies b
    /\ match items pl with
       | [] => use_item b = b
       | first :: rest =>
           match lookup first ITEMS with
           | Some item =>
               items pl' = rest
               /\ hp (stats pl')
                  = Z.min (max_hp (stats pl)) (hp (stats pl) + item_hp item)
               /\ sp (stats pl')
                  = Z.min (max_sp (stats pl)) (sp (stats pl) + item_sp item)
           | None => use_item b = b
           end
       end.
Proof.
  intros b Hh Hs. cbv zeta. unfold use_item.
  destruct (items (player b)) as [|first rest] eqn:I.
  - repeat split; lia.
  - destruct (lookup first ITEMS) as [item|] eqn:L.
    + destruct (items_nonnegative first item L) as [N1 N2].
      cbn. rewrite I. cbn [remove_item]. rewrite String.eqb_refl.
      repeat split; lia.
    + repeat split; lia.
Qed.

Lemma use_item_restores_witness :
  hp (stats (player (use_item
                       (new_battle (set_hp 25 default_character)
                                   (battle_enemies ["Goomba"])))))
  <= 40.
Proof.
  apply (use_item_restores
           (new_battle (set_hp 25 default_character)
                       (battle_enemies ["Goomba"]))).
  - vm_compute. discriminate.
  - vm_compute. discriminate.
Defined.

Lemma add_xp_coins (amount : Z) (c : Character) :
  coins (fst (add_xp amount c)) = coins c.
Proof. unfold add_xp. now destruct (_ <=? _). Qed.

Lemma conclude_cleared (b1 : BattleSystem) :
  enemies b1 = [] ->
  let pl := fst (add_xp (rewards_xp b1) (player b1)) in
  player (conclude b1)
  = with_progress (level pl) (xp pl) (coins pl + rewards_coins b1) pl
  /\ victory (conclude b1) = true
  /\ defeat (conclude b1) = defeat b1
  /\ turn (conclude b1) = turn b1
  /\ enemies (conclude b1) = [].
Proof.
  intros He. unfold conclude. rewrite He. cbn. now rewrite He.
Qed.

(** X17: when the action Attack brings the only enemy of the battle to
    zero hit points or below, [execute_action] declares victory, hands the
    player the experience through [add_xp] and the coins of the rewards,
    those of the enemy included, and the enemies get no turn. *)
Theorem attack_wins_battle :
  forall (escaped : bool) (b : BattleSystem) (e : Enemy),
    selected_action b = Some "Attack" ->
    enemies b = [e] ->
    power (stats (player b)) - enemy_defense e < 2 ^ 53 ->
    let d := Z.max 1 (power (stats (player b)) - enemy_defense e) in
    let dealt := match action_power b with Full => d | Half => d / 2 end in
    enemy_hp e - dealt <= 0 ->
    let r := execute_action escaped b in
    let pl := fst (add_xp (rewards_xp b + enemy_xp e) (player b)) in
    snd r = None
    /\ victory (fst r) = true
    /\ enemies (fst r) = []
    /\ player (fst r)
       = with_progress (level pl) (xp pl)
           (coins (player b) + (rewards_coins b + enemy_coins e)) pl
    /\ defeat (fst r) = defeat b
    /\ turn (fst r) = turn b.
Proof.
  intros escaped b e Ha He Hb d dealt Hk. cbv zeta.
  destruct (attack_single_spec b e He Hb) as (S0 & _ & K & _).
  destruct (K Hk) as (E1 & RX & RC).
  destruct (attack_frame b) as (T & _ & _ & D & P).
  unfold execute_action, act. rewrite Ha. cbn [String.eqb Ascii.eqb Bool.eqb].
  destruct (attack b) as [b1 o]. cbn [fst snd] in *. subst o.
  destruct (conclude_cleared b1 E1) as (P' & V' & D' & T' & E').
  cbv zeta in P'. cbn [fst snd].
  rewrite P', V', D', T', E', RX, RC, P, D, T.
  repeat split.
  now rewrite add_xp_coins.
Qed.

Lemma attack_wins_battle_witness :
  victory (fst (execute_action false
                  (select_action "Attack"
                     (new_battle (level_up (level_up (level_up
                                    (level_up (level_up (level_up
                                      (level_up default_character)))))))
                                 (battle_enemies ["Goomba"])))))
  = true.
Proof.
  apply (attack_wins_battle false
           (select_action "Attack"
              (new_battle (level_up (level_up (level_up
                             (level_up (level_up (level_up
                               (level_up default_character)))))))
                          (battle_enemies ["Goomba"])))
           {| enemy_name := "Goomba"; enemy_hp := 20; enemy_power := 5;
              enemy_defense := 2; enemy_speed := 5; enemy_xp := 10;
              enemy_coins := 5 |}).
  - reflexivity.
  - reflexivity.
  - vm_compute. reflexivity.
  - vm_compute. discriminate.
Defined.

(** X18: the action Run, in a battle with enemies: when the escape
    succeeds the battle is marked won without any reward, the player and
    the enemies being left as they were and the enemies getting no turn;
    when it fails and the battle is not won, the enemies take their
    turn. *)
Theorem run_outcomes :
  forall (escaped : bool) (b : BattleSystem),
    selected_action b = Some "Run" ->
    enemies b <> [] ->
    let r := execute_action escaped b in
    snd r = None
    /\ enemies (fst r) = enemies b
    /\ rewards_xp (fst r) = rewards_xp b
    /\ rewards_coins (fst r) = rewards_coins b
    /\ (escaped = true ->
          victory (fst r) = true /\ player (fst r) = player b
          /\ defeat (fst r) = defeat b)
    /\ (escaped = false -> victory b = false -> turn b = "player" ->
          victory (fst r) = false
          /\ hp (stats (player (fst r)))
             = hp (stats (player b))
               - turn_damage (defense (stats (player b))) (enemies b)).
Proof.
  intros escaped b Ha He. cbv zeta.
  unfold execute_action, act. rewrite Ha. cbn [String.eqb Ascii.eqb Bool.eqb].
  cbn [fst snd]. split; [reflexivity|].
  destruct escaped.
  - rewrite conclude_won; [| exact He | reflexivity].
    repeat split; discriminate.
  - destruct (victory b) eqn:V.
    + rewrite conclude_won; [| exact He | exact V].
      repeat split; discriminate.
    + destruct (String.eqb (turn b) "player") eqn:T.
      * apply String.eqb_eq in T.
        rewrite conclude_fight; [| exact He | exact V | exact T].
        match goal with |- context [enemy_turn ?y] => set (x := y) end.
        destruct (enemy_turn_spec x)
          as (H1 & _ & _ & _ & H5 & H6 & H7 & H8).
        cbv zeta in H1. rewrite H1, H5, H6, H7, H8.
        repeat split; try discriminate.
      * rewrite conclude_idle; [| exact He | exact T].
        repeat split; try discriminate;
          match goal with
          | Hp : turn b = _ |- _ => rewrite Hp in T; discriminate
          end.
Qed.

Lemma run_outcomes_witness :
  player (fst (execute_action true
                 (select_action "Run"
                    (new_battle default_character
                                (battle_enemies ["Pokey"])))))
  = default_character.
Proof.
  apply (run_outcomes true
           (select_action "Run"
              (new_battle default_character (battle_enemies ["Pokey"])))).
  - reflexivity.
  - discriminate.
  - reflexivity.
Defined.

(** X26: the action Special in a battle without enemies, for a player
    with five skill points or more, raises [UnboundLocalError] when it
    builds its message, after the five points have been spent: the check
    for victory and the turn of the enemies are not reached. *)
Theorem special_without_enemies :
  forall (escaped : bool) (b : BattleSystem),
    selected_action b = Some "Special" ->
    enemies b = [] ->
    5 <= sp (stats (player b)) ->
    let r := execute_action escaped b in
    snd r = Some UnboundLocalError
    /\ sp (stats (player (fst r))) = sp (stats (player b)) - 5
    /\ victory (fst r) = victory b
    /\ turn (fst r) = turn b
    /\ battle_log (fst r) = battle_log b.
Proof.
  intros escaped b Ha He Hs. cbv zeta.
  unfold execute_action, act. rewrite Ha. cbn [String.eqb Ascii.eqb Bool.eqb].
  unfold special. apply Z.leb_le in Hs. rewrite Hs, He. cbn.
  now repeat split.
Qed.

Lemma special_without_enemies_witness :
  snd (execute_action false
         (select_action "Special" (new_battle default_character [])))
  = Some UnboundLocalError.
Proof.
  apply (special_without_enemies false
           (select_action "Special" (new_battle default_character []))).
  - reflexivity.
  - reflexivity.
  - vm_compute. discriminate.
Defined.

End GameFacts.

(** * Shop, inventory and patches *)

Module EngineFacts.

Import Engine.

Lemma item_at_in_range {A : Type} (l : list A) (i : Z) :
  0 <= i -> i < length_Z l ->
  item_at l i = nth_error l (Z.to_nat i)
  /\ position (List.length l) i = Some (Z.to_nat i)
  /\ exists a, nth_error l (Z.to_nat i) = Some a.
Proof.
  intros H0 H1. unfold length_Z in H1. unfold item_at, position.
  destruct (i <? 0) eqn:E; [apply Z.ltb_lt in E; lia|].
  destruct (0 <=? i) eqn:F; [|apply Z.leb_gt in F; lia].
  destruct (i <? Z.of_nat (List.length l)) eqn:G;
    [|apply Z.ltb_ge in G; lia].
  cbn [andb]. repeat split.
  destruct (nth_error l (Z.to_nat i)) eqn:N; [now eexists|].
  apply nth_error_None in N. lia.
Qed.

Lemma item_prices (n : string) (item : Game.Item) :
  Game.lookup n Game.ITEMS = Some item -> 0 <= Game.price item.
Proof.
  unfold Game.ITEMS. cbn [Game.lookup].
  repeat match goal with
  | |- context [if ?c then _ else _] =>
      destruct c; [intros H; injection H as <-; cbn; lia|]
  end.
  discriminate.
Qed.

Lemma shop_buy (g : GameEngine) (c : Game.Character) (o : option string) :
  player g = Some c ->
  0 <= Game.coins c ->
  0 <= menu_index g ->
  item_at (shop_items g) (menu_index g) = o ->
  snd (shop_key K_RETURN g) = None
  /\ exists c',
       player (fst (shop_key K_RETURN g)) = Some c'
       /\ Game.stats c' = Game.stats c
       /\ Game.level c' = Game.level c /\ Game.xp c' = Game.xp c
       /\ 0 <= Game.coins c' <= Game.coins c
       /\ ((Game.coins c' = Game.coins c /\ Game.items c' = Game.items c)
           \/ exists n item,
                o = Some n
                /\ Game.lookup n Game.ITEMS = Some item
                /\ Game.price item <= Game.coins c
                /\ Game.coins c' = Game.coins c - Game.price item
                /\ Game.items c' = (Game.items c ++ [n])%list).
Proof.
  intros Hp Hc Hm Ho.
  assert (forall g', player g' = Some c ->
            None = (None : option error)
            /\ exists c',
                 player g' = Some c' /\ Game.stats c' = Game.stats c
                 /\ Game.level c' = Game.level c /\ Game.xp c' = Game.xp c
                 /\ 0 <= Game.coins c' <= Game.coins c
                 /\ ((Game.coins c' = Game.coins c
                      /\ Game.items c' = Game.items c)
                     \/ exists n item,
                          o = Some n
                          /\ Game.lookup n Game.ITEMS = Some item
                          /\ Game.price item <= Game.coins c
                          /\ Game.coins c' = Game.coins c - Game.price item
                          /\ Game.items c' = (Game.items c ++ [n])%list))
    as Same.
  { intros g' H. split; [reflexivity|]. exists c. repeat split; auto; lia. }
  unfold shop_key. rewrite Ho.
  destruct (menu_index g <? length_Z (shop_items g)) eqn:L;
    [|now apply Same].
  apply Z.ltb_lt in L.
  destruct (item_at_in_range (shop_items g) (menu_index g) Hm L)
    as (I & _ & n & N).
  rewrite Ho, N in I. clear Ho. subst o.
  destruct (Game.lookup n Game.ITEMS) as [item|] eqn:K; [|now apply Same].
  rewrite Hp.
  destruct (Game.price item <=? Game.coins c) eqn:P; [|now apply Same].
  apply Z.leb_le in P. pose proof (item_prices n item K) as Q.
  split; [reflexivity|]. cbn [fst player show_notification with_player].
  eexists. split; [reflexivity|]. cbn. repeat split; try lia.
  right. exists n, item. repeat split; auto.
Qed.

(** X19: a key in the shop, for a player with coins and a menu index that
    is not negative, raises nothing and either leaves the player's coins
    and items as they were, or, on the confirm keys, buys the item under
    the menu index: the player could afford its price, pays exactly it and
    gets the item at the end of the list.  The coins never go below zero,
    and nothing else of the player changes. *)
Theorem shop_purchase :
  forall (key : Key) (g : GameEngine) (c : Game.Character),
    player g = Some c ->
    0 <= Game.coins c ->
    0 <= menu_index g ->
    let r := shop_key key g in
    snd r = None
    /\ exists c',
         player (fst r) = Some c'
         /\ Game.stats c' = Game.stats c
         /\ Game.level c' = Game.level c /\ Game.xp c' = Game.xp c
         /\ 0 <= Game.coins c' <= Game.coins c
         /\ ((Game.coins c' = Game.coins c /\ Game.items c' = Game.items c)
             \/ exists n item,
                  (key = K_RETURN \/ key = K_z)
                  /\ item_at (shop_items g) (menu_index g) = Some n
                  /\ Game.lookup n Game.ITEMS = Some item
                  /\ Game.price item <= Game.coins c
                  /\ Game.coins c' = Game.coins c - Game.price item
                  /\ Game.items c' = (Game.items c ++ [n])%list).
Proof.
  intros key g c Hp Hc Hm. cbv zeta.
  destruct (shop_buy g c _ Hp Hc Hm eq_refl)
    as (E & c' & P & S & L & X & C & D).
  assert (key = K_RETURN \/ key = K_z
          \/ (snd (shop_key key g) = None
              /\ player (fst (shop_key key g)) = Some c)) as [K|[K|[K1 K2]]].
  { destruct key; auto; right; right; now split. }
  - subst key. split; [exact E|]. exists c'. repeat split; auto; try lia.
    destruct D as [D|(n & item & D1 & D2)]; [now left|].
    right. exists n, item. now split; [left|split].
  - subst key. split; [exact E|]. exists c'. repeat split; auto; try lia.
    destruct D as [D|(n & item & D1 & D2)]; [now left|].
    right. exists n, item. now split; [right|split].
  - split; [exact K1|]. exists c. repeat split; auto; lia.
Qed.

Lemma shop_purchase_witness :
  snd (shop_key K_RETURN
         (with_player Game.default_character new_engine)) = None.
Proof.
  apply (shop_purchase K_RETURN
           (with_player Game.default_character new_engine)
           Game.default_character).
  - reflexivity.
  - vm_compute. discriminate.
  - vm_compute. discriminate.
Defined.

(** X20: in the shop the menu index stays on an item: from an index within
    the list of the shop, no key takes it out of the list; the key up stops
    at the first item and the key down at the last. *)
Theorem shop_menu_in_range :
  forall (key : Key) (g : GameEngine),
    0 <= menu_index g < length_Z (shop_items g) ->
    let g' := fst (shop_key key g) in
    0 <= menu_index g' < length_Z (shop_items g')
    /\ (key = K_UP -> menu_index g = 0 -> menu_index g' = 0)
    /\ (key = K_DOWN -> menu_index g = length_Z (shop_items g) - 1 ->
        menu_index g' = menu_index g).
Proof.
  intros key g [H0 H1]. cbv zeta.
  assert (forall (r : GameEngine * option error),
            menu_index (fst r) = menu_index g ->
            shop_items (fst r) = shop_items g ->
            0 <= menu_index (fst r) < length_Z (shop_items (fst r))
            /\ (K_RETURN = K_UP -> menu_index g = 0 ->
                menu_index (fst r) = 0)
            /\ (K_RETURN = K_DOWN ->
                menu_index g = length_Z (shop_items g) - 1 ->
                menu_index (fst r) = menu_index g)) as Same.
  { intros r -> ->. repeat split; intros; try discriminate; lia. }
  assert (menu_index (fst (shop_key K_RETURN g)) = menu_index g
          /\ shop_items (fst (shop_key K_RETURN g)) = shop_items g)
    as [M S].
  { unfold shop_key. destruct (_ <? _); [|now split].
    destruct (item_at _ _); [|now split].
    destruct (Game.lookup _ _); [|now split].
    destruct (player g); [|now split].
    now destruct (_ <=? _). }
  destruct key;
    try (cbn [shop_key fst menu_index shop_items with_menu transition_to];
         repeat split; intros; try discriminate; lia).
  - exact (Same _ M S).
  - destruct (Same _ M S) as (A & _ & _).
    repeat split; intros; try discriminate; apply A.
Qed.

Lemma shop_menu_in_range_witness :
  0 <= menu_index (fst (shop_key K_DOWN (with_menu 3 new_engine)))
    < length_Z (shop_items (fst (shop_key K_DOWN (with_menu 3 new_engine)))).
Proof.
  apply (shop_menu_in_range K_DOWN (with_menu 3 new_engine)).
  vm_compute. split; [discriminate | reflexivity].
Defined.

(** X21: with no player, confirming the purchase of an item of the table
    raises [AttributeError] and leaves the engine as it was; a name of the
    shop list that is not in the table is skipped without any error. *)
Theorem shop_without_player :
  forall (g : GameEngine) (n : string),
    player g = None ->
    0 <= menu_index g < length_Z (shop_items g) ->
    item_at (shop_items g) (menu_index g) = Some n ->
    shop_key K_RETURN g
    = (g, match Game.lookup n Game.ITEMS with
          | Some _ => Some AttributeError
          | None => None
          end).
Proof.
  intros g n Hp [H0 H1] Hn. unfold shop_key.
  apply Z.ltb_lt in H1. rewrite H1, Hn, Hp.
  now destruct (Game.lookup n Game.ITEMS).
Qed.

Lemma shop_without_player_witness :
  shop_key K_RETURN new_engine = (new_engine, Some AttributeError).
Proof.
  apply (shop_without_player new_engine "Mushroom").
  - reflexivity.
  - vm_compute. split; [discriminate | reflexivity].
  - reflexivity.
Defined.

Lemma pop_at_length {A : Type} (l : list A) (i : Z) :
  0 <= i -> i < length_Z l ->
  (List.length (pop_at l i) + 1 = List.length l)%nat.
Proof.
  intros H0 H1.
  destruct (item_at_in_range l i H0 H1) as (_ & P & _).
  unfold pop_at. rewrite P. unfold length_Z in H1.
  rewrite length_app, length_firstn, length_skipn. lia.
Qed.

(** X22: in the inventory, confirming on an item of the table restores hit
    points and skill points up to their maxima, adds the luck that the item
    carries (the Lucky Clover, which the battle action Item ignores, gives
    ten), takes that one item off the list and leaves the coins and the
    maxima as they were. *)
Theorem inventory_use :
  forall (g : GameEngine) (c : Game.Character) (n : string)
         (item : Game.Item),
    player g = Some c ->
    0 <= menu_index g < length_Z (Game.items c) ->
    item_at (Game.items c) (menu_index g) = Some n ->
    Game.lookup n Game.ITEMS = Some item ->
    let r := inventory_key K_RETURN g in
    snd r = None
    /\ exists c',
         player (fst r) = Some c'
         /\ Game.items c' = pop_at (Game.items c) (menu_index g)
         /\ (List.length (Game.items c') + 1
             = List.length (Game.items c))%nat
         /\ Game.hp (Game.stats c')
            = Z.min (Game.max_hp (Game.stats c))
                    (Game.hp (Game.stats c) + Game.item_hp item)
         /\ Game.sp (Game.stats c')
            = Z.min (Game.max_sp (Game.stats c))
                    (Game.sp (Game.stats c) + Game.item_sp item)
         /\ Game.luck (Game.stats c')
            = Game.luck (Game.stats c)
              + match Game.item_luck item with Some l => l | None => 0 end
         /\ Game.max_hp (Game.stats c') = Game.max_hp (Game.stats c)
         /\ Game.max_sp (Game.stats c') = Game.max_sp (Game.stats c)
         /\ Game.coins c' = Game.coins c.
Proof.
  intros g c n item Hp [H0 H1] Hn Hl. cbv zeta.
  pose proof (pop_at_length (Game.items c) (menu_index g) H0 H1) as PL.
  unfold inventory_key. rewrite Hp.
  apply Z.ltb_lt in H1. rewrite H1, Hn, Hl.
  cbn [fst snd player show_notification with_player].
  split; [reflexivity|]. eexists. split; [reflexivity|].
  destruct (Game.item_luck item) as [l|].
  - destruct (l =? 0) eqn:E.
    + apply Z.eqb_eq in E. subst l. cbn. repeat split; auto; lia.
    + cbn. repeat split; auto.
  - cbn. repeat split; auto; lia.
Qed.

Lemma inventory_use_witness :
  snd (inventory_key K_RETURN
         (with_menu 2 (with_player Game.default_character new_engine)))
  = None.
Proof.
  apply (inventory_use
           (with_menu 2 (with_player Game.default_character new_engine))
           Game.default_character "Lucky Clover"
           {| Game.price := 100; Game.item_hp := 0; Game.item_sp := 0;
              Game.desc := "+10 Luck for battle"; Game.item_luck := Some 10;
              Game.poison := false; Game.item_speed := None |}).
  - reflexivity.
  - vm_compute. split; [discriminate | reflexivity].
  - reflexivity.
  - reflexivity.
Defined.

Lemma item_at_bound {A : Type} (l : list A) (i : Z) (a : A) :
  0 <= i -> item_at l i = Some a -> i < length_Z l.
Proof.
  intros H0. unfold item_at, position, length_Z.
  destruct (i <? 0) eqn:E; [apply Z.ltb_lt in E; lia|].
  destruct (0 <=? i); [|discriminate].
  destruct (i <? Z.of_nat (List.length l)) eqn:G; [|discriminate].
  intros _. now apply Z.ltb_lt.
Qed.

Lemma item_at_In {A : Type} (l : list A) (i : Z) (a : A) :
  item_at l i = Some a -> In a l.
Proof.
  unfold item_at. destruct (position _ _); [|discriminate].
  apply nth_error_In.
Qed.

Lemma owned_add (g : GameEngine) (id q : string) :
  owned g id = false ->
  owned (add_patch id g) q = owned g q || String.eqb q id.
Proof.
  intros H. unfold add_patch. rewrite H. unfold owned.
  cbn [patches_owned with_patches]. rewrite existsb_app. cbn.
  now rewrite orb_false_r.
Qed.

Lemma filter_filter {A : Type} (f h : A -> bool) (l : list A) :
  filter h (filter f l) = filter (fun a => f a && h a) l.
Proof.
  induction l as [|a l IH]; [reflexivity|]. cbn.
  destruct (f a); cbn; [|exact IH].
  destruct (h a); now rewrite IH.
Qed.

(** X23: in the patch manager, confirming on a patch that is on offer (one
    the player does not own): a player who can pay is charged its price
    and owns it afterwards together with what was owned before, and the
    patch is no longer on offer, so that it cannot be bought again; a
    player who cannot pay is only told so. *)
Theorem patches_purchase :
  forall (g : GameEngine) (c : Game.Character) (id : string) (p : Patch),
    player g = Some c ->
    0 <= menu_index g ->
    item_at (available g) (menu_index g) = Some (id, p) ->
    let r := patches_key K_RETURN g in
    snd r = None
    /\ (patch_price p <= Game.coins c ->
          (exists c',
             player (fst r) = Some c'
             /\ Game.coins c' = Game.coins c - patch_price p
             /\ Game.items c' = Game.items c
             /\ Game.stats c' = Game.stats c)
          /\ owned (fst r) id = true
          /\ (forall q, owned g q = true -> owned (fst r) q = true)
          /\ available (fst r)
             = filter (fun x => negb (String.eqb (fst x) id)) (available g)
          /\ ~ In id (map fst (available (fst r))))
    /\ (Game.coins c < patch_price p ->
          fst r = show_notification "Not enough coins!" g).
Proof.
  intros g c id p Hp H0 Ha. cbv zeta.
  pose proof (item_at_bound _ _ _ H0 Ha) as H1.
  assert (owned g id = false) as Hn.
  { apply item_at_In in Ha. unfold available in Ha.
    apply filter_In in Ha as [_ F]. now apply negb_true_iff in F. }
  unfold patches_key. apply Z.ltb_lt in H1. rewrite H1, Hp, Ha.
  destruct (patch_price p <=? Game.coins c) eqn:E.
  - apply Z.leb_le in E. cbn [fst snd]. split; [reflexivity|].
    split; [|lia]. intros _.
    set (g1 := with_player _ g).
    assert (owned g1 id = false) as Hn1 by exact Hn.
    assert (forall q, owned (show_notification
                               ("Bought " ++ patch_name p ++ "!")
                               (add_patch id g1)) q
                      = owned g q || String.eqb q id) as Ho.
    { intros q. exact (owned_add g1 id q Hn1). }
    repeat split.
    + unfold add_patch. rewrite Hn1. cbn. eexists. now repeat split.
    + rewrite Ho, String.eqb_refl. apply orb_true_r.
    + intros q Hq. now rewrite Ho, Hq.
    + unfold available at 1 2. rewrite filter_filter.
      apply filter_ext. intros x. rewrite Ho. apply negb_orb.
    + rewrite in_map_iff. intros ([i q] & F1 & F2). cbn in F1. subst i.
      unfold available in F2. apply filter_In in F2 as [_ F2].
      rewrite Ho, String.eqb_refl, orb_true_r in F2. discriminate.
  - apply Z.leb_gt in E. cbn [fst snd]. split; [reflexivity|].
    split; [lia | reflexivity].
Qed.

Lemma patches_purchase_witness :
  snd (patches_key K_RETURN
         (with_player
            (Game.with_progress 1 0 800 Game.default_character) new_engine))
  = None.
Proof.
  apply (patches_purchase
           (with_player
              (Game.with_progress 1 0 800 Game.default_character) new_engine)
           (Game.with_progress 1 0 800 Game.default_character)
           "MLBiS"
           {| patch_name := "MLBiS Patch"; patch_price := 750;
              patch_desc := "Bowser's Inside Story areas" |}).
  - reflexivity.
  - vm_compute. discriminate.
  - reflexivity.
Defined.

(** X24: the enemies that [start_battle] builds are the names it is given
    that [ENEMIES] knows, in their order and each as often as it is given,
    the other names being skipped; every one starts with hit points above
    zero and is named after its entry. *)
Theorem battle_enemies_names :
  forall enemy_names : list string,
    map Game.enemy_name (Game.battle_enemies enemy_names)
    = filter (fun n => match Game.lookup n Game.ENEMIES with
                       | Some _ => true
                       | None => false
                       end) enemy_names
    /\ Forall (fun e => 0 < Game.enemy_hp e /\ 0 <= Game.enemy_xp e
                        /\ 0 <= Game.enemy_coins e)
              (Game.battle_enemies enemy_names).
Proof.
  assert (forall n f, Game.lookup n Game.ENEMIES = Some f ->
            Game.enemy_name (f n) = n /\ 0 < Game.enemy_hp (f n)
            /\ 0 <= Game.enemy_xp (f n) /\ 0 <= Game.enemy_coins (f n))
    as Table.
  { intros n f. unfold Game.ENEMIES. cbn [Game.lookup].
    repeat match goal with
    | |- context [if ?c then _ else _] =>
        destruct c; [intros H; injection H as <-; cbn; repeat split; lia|]
    end.
    discriminate. }
  induction enemy_names as [|n l [IH1 IH2]]; [split; [reflexivity|constructor]|].
  cbn [Game.battle_enemies filter].
  destruct (Game.lookup n Game.ENEMIES) as [f|] eqn:E; [|now split].
  destruct (Table n f E) as (T1 & T2). split.
  - cbn [map]. now rewrite T1, IH1.
  - constructor; [exact T2 | exact IH2].
Qed.

End EngineFacts.
